(** * Bluepages MCP server: the authenticated request pipeline

    A shallow embedding of [plugins/bluepages/mcp-server.js]: the
    authentication selector, the x402 payment header, the authenticated
    request executor, the credit tracker, the batch streaming driver and the
    tool-call handler, followed by the properties stated about them.

    Conventions of the embedding.
    - JavaScript values are the type [Val], the values JSON has and those
      the code computes from them; numbers are the integers of binary64,
      the infinities and [NaN]: a number with a fraction is not a [Val],
      the code keeps none that it computes, and the properties are about
      integers. A conversion that JavaScript may refuse returns in
      [Exn + _].
    - [async] functions run to completion one after the other, so an
      [await]ed call is a call in the monad [M]: state passing over [World]
      with exceptions that keep the state reached when they were thrown.
    - What the process cannot decide (the network, the clock, the random
      source) and the built-in or third-party functions it calls are fields
      of the environment [Env]; the text of successful tool results is
      presentation and is a field of [Env] too.
    - Strings are byte strings: lengths and slices of strings agree with
      JavaScript's on ASCII text, which is well formed, so that
      [encodeURIComponent] returns on it.
    - The module is taken as loaded: [loads] says when loading it fails.
    - [formatResult] and the console output are left out. *)

From Stdlib Require Import ZArith List String Ascii Bool Lia.
From Stdlib Require Import Floats Uint63 DecimalString.
From Equations Require Import Equations.
Import ListNotations.

Set Warnings "-register-all".

Local Open Scope string_scope.
Local Open Scope Z_scope.

(** ** JavaScript values *)

Module Js.

Inductive Val : Type :=
| Undefined
| Null
| Bool (b : bool)
| Num (z : Z)
| NaN
| Infinity (negative : bool)
| Str (s : string)
| Arr (items : list Val)
| Obj (fields : list (string * Val)).
(** [Num z] is the number [z], an integer that binary64 has: [binary64]
    below gives the number an integer stands for. [Obj fields] lists the
    own enumerable properties of an object in their enumeration order;
    such an object, parsed from JSON or written as a literal of data, has
    [Object.prototype] above it and no function among its own
    properties. *)

(** Thrown values: [new Error(message)] and the engine's [TypeError]. *)
Inductive Exn : Type :=
| Error (message : string)
| TypeError (message : string).

Definition message (e : Exn) : string :=
  match e with Error m => m | TypeError m => m end.

(** ToBoolean. *)
Definition truthy (v : Val) : bool :=
  match v with
  | Undefined | Null | NaN => false
  | Bool b => b
  | Num z => negb (z =? 0)
  | Str s => negb (s =? "")%string
  | Infinity _ | Arr _ | Obj _ => true
  end.

(** [a || b] *)
Definition or_else (a b : Val) : Val := if truthy a then a else b.

Definition decimal (z : Z) : string := NilZero.string_of_int (Z.to_int z).

(** The binary64 number nearest to an integer, ties to the even
    significand: the integer itself up to 2^53 in size, an infinity from
    2^1024 - 2^970 on. *)
Definition binary64 (z : Z) : Val :=
  let a := Z.abs z in
  if a <=? 2 ^ 53 then Num z
  else
    let shift := Z.log2 a - 52 in
    let q := Z.shiftr a shift in
    let r := a - Z.shiftl q shift in
    let half := 2 ^ (shift - 1) in
    let q' := if (half <? r) || ((r =? half) && Z.odd q) then q + 1 else q in
    let v := Z.shiftl q' shift in
    if 2 ^ 1024 <=? v then Infinity (z <? 0) else Num (Z.sgn z * v).

(** Number::toString on an integer: its decimal digits up to 2^53 in
    size; beyond, the shortest decimal digits that read back as the same
    binary64 number (the closest to it among these) followed by zeros, in
    exponent notation from 10^21 on. *)
Definition reads_as (a c : Z) : bool :=
  match binary64 c with
  | Num v => v =? a
  | _ => false
  end.

Fixpoint shortest (fuel : nat) (k n a : Z) : Z :=
  match fuel with
  | O => a
  | S fuel' =>
      let p := 10 ^ (n - k) in
      let lo := (a / p) * p in
      let hi := lo + p in
      match reads_as a lo, reads_as a hi with
      | true, true => if a - lo <=? hi - a then lo else hi
      | true, false => lo
      | false, true => hi
      | false, false => shortest fuel' (k + 1) n a
      end
  end.

Fixpoint strip_zeros (rev_digits : list ascii) : list ascii :=
  match rev_digits with
  | "0"%char :: rest => strip_zeros rest
  | _ => rev_digits
  end.

Definition exponent_form (c : Z) : string :=
  let all := decimal c in
  let significant := rev (strip_zeros (rev (list_ascii_of_string all))) in
  let e := decimal (Z.of_nat (String.length all) - 1) in
  match significant with
  | [] => all
  | [d] => String d ("e+" ++ e)
  | d :: rest => String d ("." ++ string_of_list_ascii rest ++ "e+" ++ e)
  end.

Definition Number_toString (z : Z) : string :=
  let a := Z.abs z in
  if a <=? 2 ^ 53 then decimal z
  else
    let n := Z.of_nat (String.length (decimal a)) in
    let c := shortest (Z.to_nat n) 1 n a in
    (if z <? 0 then "-" else "") ++
    (if c <? 10 ^ 21 then decimal c else exponent_form c).

Arguments binary64 : simpl never.
Arguments Number_toString : simpl never.

(** [Object.hasOwn(fields, k)] *)
Definition has_own (k : string) (fields : list (string * Val)) : bool :=
  existsb (fun kv => (fst kv =? k)%string) fields.

(** Whether the conversion of a value to a primitive returns. An object
    is converted by calling its [valueOf] and [toString]: with an own
    [toString] property, which is not a function, neither call yields a
    primitive and the conversion throws; an array is converted by joining
    the conversions of its elements. *)
Fixpoint converts (v : Val) : bool :=
  match v with
  | Obj fields => negb (has_own "toString" fields)
  | Arr items =>
      (fix all (l : list Val) : bool :=
         match l with
         | [] => true
         | x :: rest => converts x && all rest
         end) items
  | _ => true
  end.

(** The string a value converts to, when the conversion returns. *)
Fixpoint string_of (v : Val) : string :=
  match v with
  | Undefined => "undefined"
  | Null => "null"
  | Bool true => "true"
  | Bool false => "false"
  | Num z => Number_toString z
  | NaN => "NaN"
  | Infinity false => "Infinity"
  | Infinity true => "-Infinity"
  | Str s => s
  | Arr items =>
      (fix join (l : list Val) : string :=
         match l with
         | [] => ""
         | x :: rest =>
             let here := match x with
                         | Undefined | Null => ""
                         | _ => string_of x
                         end in
             match rest with
             | [] => here
             | _ :: _ => here ++ "," ++ join rest
             end
         end) items
  | Obj _ => "[object Object]"
  end.

Definition not_primitive : Exn :=
  TypeError "Cannot convert object to primitive value".

(** ToString, as used by template literals, [new Error(v)],
    [encodeURIComponent(v)] and property keys. *)
Definition toString (v : Val) : Exn + string :=
  if converts v then inr (string_of v) else inl not_primitive.

(** Own property of an object literal or of a parsed JSON object: the first
    binding of the key, [Undefined] when there is none. *)
Fixpoint lookup (k : string) (fields : list (string * Val)) : Val :=
  match fields with
  | [] => Undefined
  | (k', v) :: rest => if (k =? k')%string then v else lookup k rest
  end.

(** What reading a property of [undefined] or [null] throws. *)
Definition cannot_read (v : Val) (k : string) : Exn :=
  TypeError ("Cannot read properties of " ++ string_of v ++ " (reading '" ++ k ++ "')").

(** [v.k] *)
Definition get (v : Val) (k : string) : Exn + Val :=
  match v with
  | Undefined | Null => inl (cannot_read v k)
  | Obj fields => inr (lookup k fields)
  | Arr items =>
      inr (if (k =? "length")%string then Num (Z.of_nat (List.length items)) else Undefined)
  | Str s =>
      inr (if (k =? "length")%string then Num (Z.of_nat (String.length s)) else Undefined)
  | Bool _ | Num _ | NaN | Infinity _ => inr Undefined
  end.

(** [v?.k] *)
Definition get_opt (v : Val) (k : string) : Val :=
  match get v k with
  | inl _ => Undefined
  | inr x => x
  end.

(** [v[0]] *)
Definition first (v : Val) : Exn + Val :=
  match v with
  | Undefined | Null => inl (cannot_read v "0")
  | Arr items => inr (nth 0 items Undefined)
  | Obj fields => inr (lookup "0" fields)
  | Str s => inr (match s with
                  | EmptyString => Undefined
                  | String c _ => Str (String c EmptyString)
                  end)
  | Bool _ | Num _ | NaN | Infinity _ => inr Undefined
  end.

(** [Object.entries(v)] for a value that passed a truthiness test. *)
Definition entries (v : Val) : list (string * Val) :=
  match v with
  | Obj fields => fields
  | Arr items =>
      combine (map (fun i => decimal (Z.of_nat i)) (seq 0 (List.length items))) items
  | Str s =>
      combine (map (fun i => decimal (Z.of_nat i)) (seq 0 (String.length s)))
              (map (fun c => Str (String c EmptyString)) (list_ascii_of_string s))
  | _ => []
  end.

(** [s.startsWith(p)] *)
Definition startsWith (s p : string) : bool := String.prefix p s.

(** An object literal, evaluated left to right: a key written twice keeps
    its first position and its last value. *)
Fixpoint put (k : string) (v : Val) (fields : list (string * Val)) : list (string * Val) :=
  match fields with
  | [] => [(k, v)]
  | (k', v') :: rest =>
      if (k =? k')%string then (k', v) :: rest else (k', v') :: put k v rest
  end.

Definition literal (bindings : list (string * Val)) : Val :=
  Obj (fold_left (fun fields kv => put (fst kv) (snd kv) fields) bindings []).

(** [items.length] and [items.slice(i, j)] with [i <= j], for an array or
    a string. *)
Definition length_of (items : Val) : nat :=
  match items with
  | Arr l => List.length l
  | Str s => String.length s
  | _ => 0%nat
  end.

Definition slice (items : Val) (i j : nat) : Val :=
  match items with
  | Arr l => Arr (firstn (j - i) (skipn i l))
  | Str s => Str (substring i (j - i) s)
  | _ => Undefined
  end.

End Js.

Import Js.

(** ** Requests, responses and notifications *)

Record Request := {
  url : string;
  method : string;
  headers : list (string * string);
  body : option string
}.

(** What the code reads of a [fetch] response: the status line, the result
    of [response.json()] (it rejects when the body is not JSON) and
    [response.headers.get("X-Credits-Remaining")]. *)
Record Response := {
  status : Z;
  statusText : string;
  json : Exn + Val;
  credits_remaining : option string
}.

(** [response.ok] *)
Definition ok (r : Response) : bool := (200 <=? status r) && (status r <=? 299).

(** The [params] of a [notifications/message] sent to the host. *)
Record Notification := {
  level : string;
  text : string;
  data : Val
}.

(** The value a tool call resolves to. *)
Record ToolResult := {
  content : string;
  isError : bool
}.

(** ** Process state and environment *)

(** The mutable module-level bindings ([lastKnownCredits],
    [customAlertThreshold]) and what the process has done to the outside so
    far: the requests handed to [fetch], the notifications handed to the
    host, how often the clock was read, how many random bytes were drawn and
    which authorizations were given to [wallet.signTypedData]. *)
Record World := {
  lastKnownCredits : Val;
  customAlertThreshold : Val;
  calls : list Request;
  outbox : list Notification;
  clock_reads : nat;
  random_drawn : nat;
  signed : list Val
}.

(** What a successful tool call shows: the values its text is built from. *)
Inductive Screen : Type :=
| CheckAddress (args result : Val)
| CheckTwitter (twitter : string) (result : Val)
| DataForAddress (args result : Val)
| DataForTwitter (twitter : string) (result : Val)
| BatchCheck (args result : Val)
| BatchGetData (result : Val)
| BatchCheckStreaming (results : list Val)
| BatchGetDataStreaming (foundItems : list Val) (args : Val)
| CheckCredits (credits result threshold : Val)
| SetCreditAlert (threshold : Val)
| PurchaseCredits (result pkg : Val) (address : string).

Record Env := {
  (* process.env *)
  env_BLUEPAGES_API_URL : option string;
  env_BLUEPAGES_API_KEY : option string;
  env_PRIVATE_KEY : option string;
  (* the outside: the n-th fetch, the n-th clock reading in milliseconds,
     the n-th random byte *)
  fetch_reply : nat -> Request -> Exn + Response;
  clock : nat -> Z;
  random_byte : nat -> Byte.byte;
  (* ethers: whether [new ethers.Wallet(key, provider)] returns rather
     than throws, the address of the wallet it returns, and what the
     wallet signs *)
  wallet_accepts : string -> bool;
  wallet_address : string -> string;
  signTypedData : string -> Val -> Val -> Val -> Exn + string;
  (* built-ins; [toLocaleString] is [Number.prototype.toLocaleString],
     applied to numbers only *)
  encodeURIComponent : string -> string;
  JSON_stringify : Val -> string;
  base64 : string -> string;
  StringToNumber : string -> Val;
  toLocaleString : Val -> string;
  (* the text of a successful result; building it may throw *)
  render : Screen -> Exn + string
}.

(** ** The monad of the handler code *)

Inductive Outcome (A : Type) : Type :=
| Return (a : A)
| Throw (e : Exn).
Arguments Return {A} a.
Arguments Throw {A} e.

Definition M (A : Type) : Type := World -> Outcome A * World.

Definition ret {A} (a : A) : M A := fun w => (Return a, w).

Definition throw {A} (e : Exn) : M A := fun w => (Throw e, w).

Definition bind {A B} (m : M A) (k : A -> M B) : M B :=
  fun w =>
    match m w with
    | (Return a, w') => k a w'
    | (Throw e, w') => (Throw e, w')
    end.

(** [try { m } catch (error) { h error }] *)
Definition try_catch {A} (m : M A) (h : Exn -> M A) : M A :=
  fun w =>
    match m w with
    | (Return a, w') => (Return a, w')
    | (Throw e, w') => h e w'
    end.

Definition lift {A} (r : Exn + A) : M A :=
  match r with
  | inl e => throw e
  | inr a => ret a
  end.

Declare Scope js_scope.
Delimit Scope js_scope with js.
Notation "x <- c1 ;; c2" := (bind c1 (fun x => c2))
  (at level 100, c1 at next level, right associativity) : js_scope.
Notation "c1 ;;; c2" := (bind c1 (fun _ => c2))
  (at level 100, right associativity) : js_scope.
Local Open Scope js_scope.

Definition set_lastKnownCredits (v : Val) : M unit :=
  fun w => (Return tt,
            {| lastKnownCredits := v;
               customAlertThreshold := customAlertThreshold w;
               calls := calls w; outbox := outbox w;
               clock_reads := clock_reads w; random_drawn := random_drawn w;
               signed := signed w |}).

Definition set_customAlertThreshold (v : Val) : M unit :=
  fun w => (Return tt,
            {| lastKnownCredits := lastKnownCredits w;
               customAlertThreshold := v;
               calls := calls w; outbox := outbox w;
               clock_reads := clock_reads w; random_drawn := random_drawn w;
               signed := signed w |}).

Definition read {A} (f : World -> A) : M A := fun w => (Return (f w), w).

Definition log_call (req : Request) (w : World) : World :=
  {| lastKnownCredits := lastKnownCredits w;
     customAlertThreshold := customAlertThreshold w;
     calls := calls w ++ [req]; outbox := outbox w;
     clock_reads := clock_reads w; random_drawn := random_drawn w;
     signed := signed w |}.

Definition log_notification (n : Notification) (w : World) : World :=
  {| lastKnownCredits := lastKnownCredits w;
     customAlertThreshold := customAlertThreshold w;
     calls := calls w; outbox := outbox w ++ [n];
     clock_reads := clock_reads w; random_drawn := random_drawn w;
     signed := signed w |}.

Definition log_signed (a : Val) (w : World) : World :=
  {| lastKnownCredits := lastKnownCredits w;
     customAlertThreshold := customAlertThreshold w;
     calls := calls w; outbox := outbox w;
     clock_reads := clock_reads w; random_drawn := random_drawn w;
     signed := signed w ++ [a] |}.

Definition tick_clock (w : World) : World :=
  {| lastKnownCredits := lastKnownCredits w;
     customAlertThreshold := customAlertThreshold w;
     calls := calls w; outbox := outbox w;
     clock_reads := S (clock_reads w); random_drawn := random_drawn w;
     signed := signed w |}.

Definition draw (n : nat) (w : World) : World :=
  {| lastKnownCredits := lastKnownCredits w;
     customAlertThreshold := customAlertThreshold w;
     calls := calls w; outbox := outbox w;
     clock_reads := clock_reads w; random_drawn := (random_drawn w + n)%nat;
     signed := signed w |}.

(** ** Small pure helpers *)

(** [process.env.X] as a condition: set and not empty. *)
Definition present (x : option string) : bool :=
  match x with
  | Some s => negb (s =? "")%string
  | None => false
  end.

Definition hex_digit (n : N) : ascii :=
  nth (N.to_nat n) (list_ascii_of_string "0123456789abcdef") "0"%char.

Definition hex_byte (b : Byte.byte) : string :=
  let n := Byte.to_N b in
  String (hex_digit (n / 16)) (String (hex_digit (n mod 16)) EmptyString).

(** [ethers.hexlify] *)
Definition hexlify (bytes : list Byte.byte) : string :=
  "0x" ++ String.concat "" (map hex_byte bytes).

(** [s.includes(p)] *)
Fixpoint includes (s p : string) : bool :=
  String.prefix p s ||
  match s with
  | EmptyString => false
  | String _ rest => includes rest p
  end.

(** [parseInt(s, 10)]: leading white space, an optional sign, then the
    longest run of decimal digits, read as a binary64 number; [NaN] when
    there is no digit. *)
Definition is_space (c : ascii) : bool :=
  let n := nat_of_ascii c in
  ((n =? 32) || ((9 <=? n) && (n <=? 13)))%nat.

Definition digit_of (c : ascii) : option Z :=
  let n := nat_of_ascii c in
  if ((48 <=? n) && (n <=? 57))%nat then Some (Z.of_nat (n - 48)) else None.

Fixpoint skip_spaces (s : string) : string :=
  match s with
  | String c rest => if is_space c then skip_spaces rest else s
  | EmptyString => s
  end.

Fixpoint digits (acc : option Z) (s : string) : option Z :=
  match s with
  | String c rest =>
      match digit_of c with
      | Some d => digits (Some (10 * match acc with Some a => a | None => 0 end + d)) rest
      | None => acc
      end
  | EmptyString => acc
  end.

Definition parseInt (s : string) : Val :=
  match skip_spaces s with
  | String "-" rest =>
      match digits None rest with Some n => binary64 (- n) | None => NaN end
  | String "+" rest =>
      match digits None rest with Some n => binary64 n | None => NaN end
  | t => match digits None t with Some n => binary64 n | None => NaN end
  end.

(** [Math.round] of a double: the integer nearest to it, the larger one on
    a tie, computed exactly on the decoded binary64 value. *)
Definition Math_round (x : float) : Val :=
  match Prim2SF x with
  | S754_zero _ => Num 0
  | S754_finite s m e =>
      let n := if s then Z.neg m else Z.pos m in
      if 0 <=? e then Num (n * 2 ^ e)
      else Num ((2 * n + 2 ^ (- e)) / 2 ^ (- e + 1))
  | S754_infinity s => Infinity s
  | S754_nan => NaN
  end.

Definition float_of_nat (n : nat) : float :=
  PrimFloat.of_uint63 (Uint63.of_Z (Z.of_nat n)).

(** [Math.round((current / total) * 100)] in binary64 arithmetic. *)
Definition percentage_of (current total : nat) : Val :=
  Math_round (PrimFloat.mul (PrimFloat.div (float_of_nat current) (float_of_nat total))
                            (float_of_nat 100)).

(** [t.startsWith("@") ? t : `@${t}`] on a string. *)
Definition withAt (t : string) : string :=
  if startsWith t "@" then t else "@" ++ t.

(** The same expression on an arbitrary value [t], named [what] in the
    source: calling [startsWith] on anything but a string throws. *)
Definition atHandle (what : string) (t : Val) : Exn + string :=
  match t with
  | Str s => inr (withAt s)
  | Undefined | Null => inl (cannot_read t "startsWith")
  | _ => inl (TypeError (what ++ ".startsWith is not a function"))
  end.

(** ** The server *)

Section Server.

Variable E : Env.

(** *** Configuration (lines 46-63) *)

Definition DEFAULT_API_URL : string := "https://bluepages.fyi".

Definition API_URL : string :=
  match env_BLUEPAGES_API_URL E with
  | Some s => if (s =? "")%string then DEFAULT_API_URL else s
  | None => DEFAULT_API_URL
  end.

Definition API_KEY : option string := env_BLUEPAGES_API_KEY E.

Definition PRIVATE_KEY : option string := env_PRIVATE_KEY E.

Definition LOW_CREDIT_WARNING : Z := 1000.

Definition CRITICAL_CREDIT_WARNING : Z := 100.

Inductive AuthMode : Type := api_key | x402 | none.

Definition AUTH_MODE : AuthMode :=
  if present API_KEY then api_key
  else if present PRIVATE_KEY then x402
  else none.

Record Wallet := {
  key : string;
  address : string
}.


(** [wallet] stays undefined unless the private key is present and the API
    key is not. *)
Definition wallet : option Wallet :=
  match PRIVATE_KEY with
  | Some k =>
      if present PRIVATE_KEY && negb (present API_KEY)
      then Some {| key := k; address := wallet_address E k |}
      else None
  | None => None
  end.

(** *** Effects *)

(** [await fetch(url, init)]: the request goes out, then the reply of the
    outside decides between a response and a rejection. *)
Definition fetch (req : Request) : M Response :=
  fun w =>
    match fetch_reply E (List.length (calls w)) req with
    | inl e => (Throw e, log_call req w)
    | inr r => (Return r, log_call req w)
    end.

(** [Date.now()] *)
Definition Date_now : M Z :=
  fun w => (Return (clock E (clock_reads w)), tick_clock w).

(** [ethers.randomBytes(n)] *)
Definition randomBytes (n : nat) : M (list Byte.byte) :=
  fun w => (Return (map (random_byte E) (seq (random_drawn w) n)), draw n w).

(** [await wallet.signTypedData(domain, types, value)] *)
Definition wallet_signTypedData (wl : Wallet) (domain types value : Val) : M string :=
  fun w =>
    match signTypedData E (key wl) domain types value with
    | inl e => (Throw e, log_signed value w)
    | inr s => (Return s, log_signed value w)
    end.

(** [sendNotification] (lines 138-155). [serverInstance] is assigned before
    any handler is registered, and a failing delivery is caught and logged,
    so the call always completes; the outbox records what was sent. *)
Definition sendNotification (lvl msg : string) (d : Val) : M unit :=
  fun w => (Return tt, log_notification {| level := lvl; text := msg; data := d |} w).

(** *** Numbers *)

(** The number a value converts to, when its conversion to a primitive
    returns. *)
Definition number_of (v : Val) : Val :=
  match v with
  | Undefined | NaN => NaN
  | Null => Num 0
  | Bool b => Num (if b then 1 else 0)
  | Num z => Num z
  | Infinity s => Infinity s
  | Str s => StringToNumber E s
  | Arr _ | Obj _ => StringToNumber E (string_of v)
  end.

(** ToNumber *)
Definition toNumber (v : Val) : Exn + Val :=
  if converts v then inr (number_of v) else inl not_primitive.

(** Whether a number is at most, or more than, the integer [k]. *)
Definition at_most (n : Val) (k : Z) : bool :=
  match n with
  | Num z => z <=? k
  | Infinity negative => negative
  | _ => false
  end.

Definition more_than (n : Val) (k : Z) : bool :=
  match n with
  | Num z => k <? z
  | Infinity negative => negb negative
  | _ => false
  end.

(** [v <= k] and [v > k] against a number literal [k]. *)
Definition le_num (v : Val) (k : Z) : Exn + bool :=
  match toNumber v with
  | inl e => inl e
  | inr n => inr (at_most n k)
  end.

Definition gt_num (v : Val) (k : Z) : Exn + bool :=
  match toNumber v with
  | inl e => inl e
  | inr n => inr (more_than n k)
  end.

(** The sum of two numbers in binary64. *)
Definition add (x y : Val) : Val :=
  match x, y with
  | Num a, Num b => binary64 (a + b)
  | Infinity s, Infinity s' => if Bool.eqb s s' then Infinity s else NaN
  | Infinity s, Num _ | Num _, Infinity s => Infinity s
  | _, _ => NaN
  end.

(** [a + b]: both operands are converted to primitives, the left one
    first; a string among them makes it a concatenation. *)
Definition plus (a b : Val) : Exn + Val :=
  if negb (converts a) || negb (converts b) then inl not_primitive
  else
    match a, b with
    | (Str _ | Arr _ | Obj _), _ | _, (Str _ | Arr _ | Obj _) =>
        inr (Str (string_of a ++ string_of b))
    | _, _ => inr (add (number_of a) (number_of b))
    end.

(** *** createPaymentHeader (lines 72-119) *)

Definition TransferWithAuthorization_types : Val :=
  let field n t := Obj [("name", Str n); ("type", Str t)] in
  Obj [("TransferWithAuthorization",
        Arr [field "from" "address"; field "to" "address";
             field "value" "uint256"; field "validAfter" "uint256";
             field "validBefore" "uint256"; field "nonce" "bytes32"])].

(** [Date.now()] is a time value, an integer of at most 8.64e15 in size:
    on these, [Math.floor(now / 1000)] and the subtraction of 600 are
    exact. *)
Definition createPaymentHeader (paymentRequest : Val) : M string :=
  match wallet with
  | None => throw (Error "PRIVATE_KEY environment variable required for x402 payments")
  | Some wl =>
      accepts <- lift (get paymentRequest "accepts") ;;
      accept <- lift (first accepts) ;;
      bytes <- randomBytes 32 ;;
      let nonce := hexlify bytes in
      now1 <- Date_now ;;
      let validAfter := Num (now1 / 1000 - 600) in
      now2 <- Date_now ;;
      maxTimeoutSeconds <- lift (get accept "maxTimeoutSeconds") ;;
      validBefore <- lift (plus (Num (now2 / 1000)) maxTimeoutSeconds) ;;
      payTo <- lift (get accept "payTo") ;;
      maxAmountRequired <- lift (get accept "maxAmountRequired") ;;
      let authorization :=
        Obj [("from", Str (address wl));
             ("to", payTo);
             ("value", maxAmountRequired);
             ("validAfter", Str (string_of validAfter));
             ("validBefore", Str (string_of validBefore));
             ("nonce", Str nonce)] in
      asset <- lift (get accept "asset") ;;
      let domain :=
        Obj [("name", Str "USD Coin");
             ("version", Str "2");
             ("chainId", Num 8453);
             ("verifyingContract", asset)] in
      signature <- wallet_signTypedData wl domain TransferWithAuthorization_types
                                        authorization ;;
      x402Version <- lift (get paymentRequest "x402Version") ;;
      scheme <- lift (get accept "scheme") ;;
      network <- lift (get accept "network") ;;
      let payment :=
        Obj [("x402Version", x402Version);
             ("scheme", scheme);
             ("network", network);
             ("payload", Obj [("signature", Str signature);
                              ("authorization", authorization)])] in
      ret (base64 E (JSON_stringify E payment))
  end.

(** *** buildHeaders (lines 124-133) *)

Definition buildHeaders (contentType : option string) : list (string * string) :=
  (match API_KEY with
   | Some k => if present API_KEY then [("X-API-KEY", k)] else []
   | None => []
   end)
  ++
  (match contentType with
   | Some c => if (c =? "")%string then [] else [("Content-Type", c)]
   | None => []
   end).

(** *** checkCreditsAndNotify (lines 160-181) *)

(** The two alerts. Their text converts [credits] to a string, which the
    comparison made before either is sent has converted already. *)
Definition critical_alert (credits : Val) : Notification :=
  {| level := "error";
     text := "⚠️ CRITICAL: Only " ++ string_of credits ++
             " Bluepages credits remaining! Purchase more at bluepages.fyi/api-keys.html";
     data := Obj [("credits", credits); ("threshold", Num CRITICAL_CREDIT_WARNING)] |}.

Definition low_alert (credits : Val) : Notification :=
  {| level := "warning";
     text := "⚠️ Low credits: " ++ string_of credits ++
             " remaining. Consider purchasing more.";
     data := Obj [("credits", credits); ("threshold", Num LOW_CREDIT_WARNING)] |}.

Definition send (n : Notification) : M unit :=
  sendNotification (level n) (text n) (data n).

Definition is_nullish (v : Val) : bool :=
  match v with
  | Undefined | Null => true
  | _ => false
  end.

Definition is_null (v : Val) : bool :=
  match v with
  | Null => true
  | _ => false
  end.

(** [credits <= threshold && lastKnownCredits > threshold]: the second
    comparison is made only when the first one holds. *)
Definition falls_to (threshold : Z) (last credits : Val) : Exn + bool :=
  match le_num credits threshold with
  | inl e => inl e
  | inr false => inr false
  | inr true => gt_num last threshold
  end.

Definition checkCreditsAndNotify (credits : Val) : M unit :=
  if negb (present API_KEY) || is_nullish credits then ret tt
  else
    last <- read lastKnownCredits ;;
    (if negb (is_null last) then
       critical <- lift (falls_to CRITICAL_CREDIT_WARNING last credits) ;;
       if critical then send (critical_alert credits)
       else
         low <- lift (falls_to LOW_CREDIT_WARNING last credits) ;;
         if low then send (low_alert credits) else ret tt
     else ret tt) ;;;
    set_lastKnownCredits credits.

(** *** fetchWithAuth (lines 186-270) *)

Record Options := {
  opt_method : option string;
  opt_contentType : option string;
  opt_body : option string
}.

(** [const error = await r.json().catch(() => ({ error: r.statusText }));
     throw new Error(error.error || `<prefix>${r.status}`)] *)
Definition throw_http_error {A} (r : Response) (prefix : string) : M A :=
  let error := match json r with
               | inl _ => Obj [("error", Str (statusText r))]
               | inr v => v
               end in
  reason <- lift (get error "error") ;;
  message <- lift (toString (or_else reason (Str (prefix ++ decimal (status r))))) ;;
  throw (Error message).

(** The argument of each [fetch] in [fetchWithAuth]: the headers of
    [buildHeaders], then [extra]; no caller passes [options.headers]. *)
Definition request_for (url : string) (options : Options) (extra : list (string * string))
  : Request :=
  {| url := url;
     method := (if present (opt_method options)
                then match opt_method options with Some m => m | None => "GET" end
                else "GET");
     headers := buildHeaders (opt_contentType options) ++ extra;
     body := opt_body options |}.

Definition fetchWithAuth (url : string) (options : Options) : M Val :=
  let request := request_for url options in
  if present API_KEY then
    response <- fetch (request []) ;;
    if negb (ok response) then throw_http_error response "Request failed: "
    else
      result <- lift (json response) ;;
      (if present (credits_remaining response)
       then match credits_remaining response with
            | Some creditsHeader => checkCreditsAndNotify (parseInt creditsHeader)
            | None => ret tt
            end
       else ret tt) ;;;
      ret result
  else
    response1 <- fetch (request []) ;;
    if negb (status response1 =? 402) then
      if negb (ok response1) then throw_http_error response1 "Request failed: "
      else lift (json response1)
    else
      match wallet with
      | None =>
          throw (Error "Payment required but no PRIVATE_KEY or BLUEPAGES_API_KEY configured")
      | Some _ =>
          paymentRequest <- lift (json response1) ;;
          paymentHeader <- createPaymentHeader paymentRequest ;;
          response2 <- fetch (request [("X-PAYMENT", paymentHeader)]) ;;
          if negb (ok response2) then throw_http_error response2 "Request failed: "
          else lift (json response2)
      end.

(** The [options] of [getWithAuth] (none) and of [postWithAuth]. *)
Definition get_options : Options :=
  {| opt_method := None; opt_contentType := None; opt_body := None |}.

Definition post_options (body : Val) : Options :=
  {| opt_method := Some "POST";
     opt_contentType := Some "application/json";
     opt_body := Some (JSON_stringify E body) |}.

Definition getWithAuth (url : string) : M Val :=
  fetchWithAuth url get_options.

Definition postWithAuth (url : string) (body : Val) : M Val :=
  fetchWithAuth url (post_options body).

(** *** main (lines 1404-1443), without its console output

    In API-key mode the balance is asked for once at startup; a failure
    is logged and the balance stays as it was. *)
Definition main : M unit :=
  if present API_KEY then
    try_catch
      (result <- getWithAuth (API_URL ++ "/api/me") ;;
       credits <- lift (get result "credits") ;;
       set_lastKnownCredits (or_else credits (Num 0)))
      (fun _ => ret tt)
  else ret tt.

(** *** processBatchWithStreaming (lines 357-427) *)

Definition batchSize : nat := 50.

Section Batch.

(** The callback may update bindings of the calling handler (the
    [foundItems] array of [batch_get_data_streaming]); that state is the
    type [St], threaded through the calls. *)
Context {St : Type}.
Variable progressCallback : Val -> St -> M St.

Definition id_key (type : string) : string :=
  if (type =? "address")%string then "address" else "twitter".

(** The body of the loop over [Object.entries(result.results[key])]. *)
Definition item_of (type : string) (isDataEndpoint : bool) (itemKey : string) (info : Val)
  : M Val :=
  if isDataEndpoint then
    found <- lift (get info "found") ;;
    primary <- lift (get info "primary") ;;
    alternates <- lift (get info "alternates") ;;
    ret (literal
           [(id_key type, Str itemKey);
            ("found", found);
            ("twitter", or_else (get_opt primary "twitter") Null);
            ("displayName", or_else (get_opt (get_opt primary "metadata") "displayName") Null);
            ("source", or_else (get_opt (get_opt primary "metadata") "source") Null);
            ("alternates", or_else (get_opt alternates "length") (Num 0))])
  else
    found <- lift (get info "exists") ;;
    twitter <- lift (get info "twitter") ;;
    farcaster <- lift (get info "farcaster") ;;
    ret (literal
           [(id_key type, Str itemKey);
            ("found", found);
            ("twitter", twitter);
            ("farcaster", farcaster)]).

Definition found_message (isDataEndpoint : bool) (itemKey : string) (info : Val)
  : Exn + string :=
  if isDataEndpoint then
    match toString (or_else (get_opt (get_opt info "primary") "twitter")
                            (Str "no twitter")) with
    | inl e => inl e
    | inr twitter => inr ("✓ Found: " ++ itemKey ++ " → " ++ twitter)
    end
  else
    match toString (get_opt info "twitter") with
    | inl e => inl e
    | inr twitter =>
        match toString (get_opt info "farcaster") with
        | inl e => inl e
        | inr farcaster =>
            inr ("✓ Found: " ++ itemKey ++ " (twitter: " ++ twitter ++
                 ", farcaster: " ++ farcaster ++ ")")
        end
    end.

Fixpoint each_entry (type : string) (isDataEndpoint : bool)
    (remaining : list (string * Val)) (results : list Val) (s : St) : M (list Val * St) :=
  match remaining with
  | [] => ret (results, s)
  | (itemKey, info) :: rest =>
      itemResult <- item_of type isDataEndpoint itemKey info ;;
      let results := (results ++ [itemResult])%list in
      let isFound := get_opt info (if isDataEndpoint then "found" else "exists") in
      s' <- (if truthy isFound
             then
               message <- lift (found_message isDataEndpoint itemKey info) ;;
               progressCallback
                 (Obj [("type", Str "result");
                       ("message", Str message);
                       ("item", itemResult)]) s
             else ret s) ;;
      each_entry type isDataEndpoint rest results s'
  end.

Definition progress_event (type : string) (i total : nat) (batch : Val) : Val :=
  let batchNum := (i / batchSize + 1)%nat in
  let totalBatches := ((total + batchSize - 1) / batchSize)%nat in
  let current := (i + length_of batch)%nat in
  Obj [("type", Str "progress");
       ("message", Str ("Processing batch " ++ decimal (Z.of_nat batchNum) ++ "/" ++
                        decimal (Z.of_nat totalBatches) ++ " (" ++
                        decimal (Z.of_nat (length_of batch)) ++ " " ++ type ++ "s)..."));
       ("current", Num (Z.of_nat current));
       ("total", Num (Z.of_nat total));
       ("percentage", percentage_of current total)].

(** [type === "address" ? { addresses: batch } : { twitters: batch }] *)
Definition batch_request_body (type : string) (batch : Val) : Val :=
  if (type =? "address")%string
  then Obj [("addresses", batch)]
  else Obj [("twitters", batch)].

(** One pass of the body of the [for] loop, at index [i]: the progress
    event, the request for the chunk, and the records of its response added
    to [results]. *)
Definition chunk_pass (items : Val) (type endpoint : string)
    (i : nat) (results : list Val) (s : St) : M (list Val * St) :=
  let batch := slice items i (Nat.min (i + batchSize) (length_of items)) in
  s1 <- progressCallback (progress_event type i (length_of items) batch) s ;;
  result <- postWithAuth (API_URL ++ endpoint) (batch_request_body type batch) ;;
  let key := if (type =? "address")%string then "addresses" else "twitters" in
  keyed <- lift (get result "results") ;;
  if truthy (get_opt keyed key)
  then each_entry type (includes endpoint "/data") (entries (get_opt keyed key)) results s1
  else ret (results, s1).

(** The [for (let i = 0; i < items.length; i += batchSize)] loop, entered at
    index [i] with the results accumulated so far. *)
Equations? batch_loop (items : Val) (type endpoint : string)
    (i : nat) (results : list Val) (s : St) : M (list Val * St)
    by wf (length_of items - i)%nat lt :=
  batch_loop items type endpoint i results s with lt_dec i (length_of items) := {
    | left _ =>
        r <- chunk_pass items type endpoint i results s ;;
        batch_loop items type endpoint (i + batchSize) (fst r) (snd r)
    | right _ => ret (results, s)
  }.
Proof.
  unfold batchSize. lia.
Qed.

(** [items] is whatever the caller passed as [args.addresses]: an array or
    a string is sliced; [undefined] and [null] have no [length] to read;
    an object has no [slice] to call, which shows as soon as its [length]
    lets the loop start; any other value has an undefined [length] and the
    loop does not start. *)
Definition processBatchWithStreaming (items : Val) (type endpoint : string) (s : St)
  : M (list Val * St) :=
  match items with
  | Undefined | Null => throw (cannot_read items "length")
  | Arr _ | Str _ => batch_loop items type endpoint 0 [] s
  | Obj fields =>
      entered <- lift (gt_num (lookup "length" fields) 0) ;;
      if entered
      then throw (TypeError "items.slice is not a function")
      else ret ([], s)
  | Bool _ | Num _ | NaN | Infinity _ => ret ([], s)
  end.

End Batch.

(** *** Conversions for display *)

(** [v.toLocaleString()], where [what] is the text of [v] in the source.
    A number is formatted for the locale, a string is itself, and
    [Object.prototype.toLocaleString] calls [toString]; an own property
    of either name is not a function, so the call throws; an array joins
    what its elements give. *)
Fixpoint localized (what : string) (v : Val) : Exn + string :=
  match v with
  | Undefined | Null => inl (cannot_read v "toLocaleString")
  | Num _ | NaN | Infinity _ => inr (toLocaleString E v)
  | Str s => inr s
  | Bool _ => inr (string_of v)
  | Obj fields =>
      if has_own "toLocaleString" fields || has_own "toString" fields
      then inl (TypeError (what ++ ".toLocaleString is not a function"))
      else inr "[object Object]"
  | Arr items =>
      (fix join (l : list Val) : Exn + string :=
         match l with
         | [] => inr ""
         | x :: rest =>
             match (match x with
                    | Undefined | Null => inr ""
                    | _ => localized what x
                    end) with
             | inl e => inl e
             | inr here =>
                 match rest with
                 | [] => inr here
                 | _ :: _ =>
                     match join rest with
                     | inl e => inl e
                     | inr others => inr (here ++ "," ++ others)
                     end
                 end
             end
         end) items
  end.

(** *** The tool-call handler (lines 647-1095) *)

Definition nl : string := String (ascii_of_nat 10) EmptyString.

Definition not_configured : ToolResult :=
  {| content :=
       "Bluepages is not configured. Set one of these environment variables and restart:" ++ nl ++ nl ++
       "Option 1 (recommended): BLUEPAGES_API_KEY" ++ nl ++
       "  Get a key at https://bluepages.fyi/api-keys.html" ++ nl ++
       "  20% cheaper, 2x rate limits" ++ nl ++ nl ++
       "Option 2: PRIVATE_KEY" ++ nl ++
       "  Ethereum private key for x402 payments (USDC on Base)" ++ nl ++
       "  No API key needed, pay per request";
     isError := true |}.

(** The [catch] of the handler. *)
Definition error_result (error : Exn) : ToolResult :=
  {| content := "Error: " ++ message error; isError := true |}.

(** A [return { content: [{ type: "text", text }] }] whose text is
    presentation. *)
Definition show (screen : Screen) : M ToolResult :=
  shown <- lift (render E screen) ;;
  ret {| content := shown; isError := false |}.

(** [v === 0] *)
Definition is_zero (v : Val) : bool :=
  match v with
  | Num 0 => true
  | _ => false
  end.

(** [v === "..."] *)
Definition is_string (v : Val) (s : string) : bool :=
  match v with
  | Str s' => (s' =? s)%string
  | _ => false
  end.

Definition check_address (args : Val) : M ToolResult :=
  a <- lift (get args "address") ;;
  address <- lift (toString a) ;;
  result <- getWithAuth (API_URL ++ "/check?address=" ++ encodeURIComponent E address) ;;
  show (CheckAddress args result).

Definition check_twitter (args : Val) : M ToolResult :=
  t <- lift (get args "twitter") ;;
  twitter <- lift (atHandle "args.twitter" t) ;;
  result <- getWithAuth (API_URL ++ "/check?identity=" ++ encodeURIComponent E twitter) ;;
  show (CheckTwitter twitter result).

Definition get_data_for_address (args : Val) : M ToolResult :=
  a <- lift (get args "address") ;;
  address <- lift (toString a) ;;
  result <- getWithAuth (API_URL ++ "/data?address=" ++ encodeURIComponent E address) ;;
  show (DataForAddress args result).

Definition get_data_for_twitter (args : Val) : M ToolResult :=
  t <- lift (get args "twitter") ;;
  twitter <- lift (atHandle "args.twitter" t) ;;
  result <- getWithAuth (API_URL ++ "/data?identity=" ++ encodeURIComponent E twitter) ;;
  show (DataForTwitter twitter result).

(** [twitters.map((t) => (t.startsWith("@") ? t : `@${t}`))] on an array *)
Fixpoint map_atHandle (twitters : list Val) : Exn + list Val :=
  match twitters with
  | [] => inr []
  | t :: rest =>
      match atHandle "t" t with
      | inl e => inl e
      | inr h =>
          match map_atHandle rest with
          | inl e => inl e
          | inr hs => inr (Str h :: hs)
          end
      end
  end.

(** [list && list.length > 0] *)
Definition given (list : Val) : Exn + bool :=
  if truthy list then gt_num (get_opt list "length") 0 else inr false.

(** The request body both batch tools build from [args]. *)
Definition batch_body (args : Val) : M (list (string * Val)) :=
  addresses <- lift (get args "addresses") ;;
  addresses_given <- lift (given addresses) ;;
  let body1 := if addresses_given then [("addresses", addresses)] else [] in
  twitters <- lift (get args "twitters") ;;
  twitters_given <- lift (given twitters) ;;
  body2 <-
    (if twitters_given
     then match twitters with
          | Arr ts =>
              handles <- lift (map_atHandle ts) ;;
              ret (body1 ++ [("twitters", Arr handles)])%list
          | _ => throw (TypeError "args.twitters.map is not a function")
          end
     else ret body1) ;;
  if negb (truthy (lookup "addresses" body2)) && negb (truthy (lookup "twitters" body2))
  then throw (Error "At least one address or twitter handle required")
  else ret body2.

Definition batch_check (args : Val) : M ToolResult :=
  body <- batch_body args ;;
  result <- postWithAuth (API_URL ++ "/batch/check") (Obj body) ;;
  show (BatchCheck args result).

Definition batch_get_data (args : Val) : M ToolResult :=
  body <- batch_body args ;;
  result <- postWithAuth (API_URL ++ "/batch/data") (Obj body) ;;
  show (BatchGetData result).

Definition count_found (results : list Val) : nat :=
  List.length (filter (fun r => truthy (get_opt r "found")) results).

Definition count_not_found (results : list Val) : nat :=
  List.length (filter (fun r => negb (truthy (get_opt r "found"))) results).

(** The progress callbacks of the two streaming tools. The second one
    also collects the found items into the handler's [foundItems]. *)
Definition notify_progress (progress : Val) (_ : unit) : M unit :=
  sendNotification "info" (string_of (get_opt progress "message")) progress.

Definition collect_found (progress : Val) (foundItems : list Val) : M (list Val) :=
  let foundItems :=
    if is_string (get_opt progress "type") "result" &&
       truthy (get_opt (get_opt progress "item") "found")
    then (foundItems ++ [get_opt progress "item"])%list
    else foundItems in
  sendNotification "info" (string_of (get_opt progress "message")) progress ;;;
  ret foundItems.

(** The notification each streaming tool sends before it starts; its text
    converts the length to a string, which may throw. *)
Definition starting (what : string) (addresses : Val) : Notification :=
  {| level := "info";
     text := "Starting " ++ what ++ string_of (get_opt addresses "length") ++ " addresses...";
     data := Obj [("total", get_opt addresses "length")] |}.

Definition batch_check_streaming (args : Val) : M ToolResult :=
  addresses <- lift (get args "addresses") ;;
  if negb (truthy addresses) || is_zero (get_opt addresses "length")
  then throw (Error "At least one address required")
  else
    lift (toString (get_opt addresses "length")) ;;;
    send (starting "batch check of " addresses) ;;;
    r <- processBatchWithStreaming notify_progress addresses "address" "/batch/check" tt ;;
    let results := fst r in
    let found := Num (Z.of_nat (count_found results)) in
    let notFound := Num (Z.of_nat (count_not_found results)) in
    sendNotification "info"
      ("✓ Batch check complete: " ++ string_of found ++ " found, " ++
       string_of notFound ++ " not found")
      (Obj [("found", found); ("notFound", notFound);
            ("total", Num (Z.of_nat (List.length results)))]) ;;;
    show (BatchCheckStreaming results).

Definition batch_get_data_streaming (args : Val) : M ToolResult :=
  addresses <- lift (get args "addresses") ;;
  if negb (truthy addresses) || is_zero (get_opt addresses "length")
  then throw (Error "At least one address required")
  else
    lift (toString (get_opt addresses "length")) ;;;
    send (starting "data retrieval for " addresses) ;;;
    r <- processBatchWithStreaming collect_found addresses "address" "/batch/data" [] ;;
    let foundItems := snd r in
    let found := Num (Z.of_nat (List.length foundItems)) in
    sendNotification "info"
      ("✓ Data retrieval complete: found data for " ++ string_of found ++ " addresses")
      (Obj [("found", found); ("total", get_opt addresses "length")]) ;;;
    show (BatchGetDataStreaming foundItems args).

Definition check_credits (args : Val) : M ToolResult :=
  if negb (present API_KEY)
  then throw (Error "check_credits only available with API key authentication")
  else
    result <- getWithAuth (API_URL ++ "/api/me") ;;
    c <- lift (get result "credits") ;;
    let credits := or_else c (Num 0) in
    checkCreditsAndNotify credits ;;;
    threshold <- read customAlertThreshold ;;
    show (CheckCredits credits result threshold).

Definition set_credit_alert (args : Val) : M ToolResult :=
  if negb (present API_KEY)
  then throw (Error "set_credit_alert only available with API key authentication")
  else
    threshold <- lift (get args "threshold") ;;
    set_customAlertThreshold threshold ;;;
    shown <- lift (localized "customAlertThreshold" threshold) ;;
    sendNotification "info"
      ("Credit alert threshold set to " ++ shown ++ " credits")
      (Obj [("threshold", threshold)]) ;;;
    show (SetCreditAlert threshold).

Definition packages : list (string * Val) :=
  [("starter", Obj [("credits", Num 5000); ("priceUsd", Num 5);
                    ("priceUsdc", Str "5000000")]);
   ("pro", Obj [("credits", Num 50000); ("priceUsd", Num 45);
                ("priceUsdc", Str "45000000")]);
   ("enterprise", Obj [("credits", Num 1000000); ("priceUsd", Num 600);
                       ("priceUsdc", Str "600000000")])].

(** Names every object literal inherits from [Object.prototype]. *)
Definition Object_prototype_keys : list string :=
  ["constructor"; "hasOwnProperty"; "isPrototypeOf"; "propertyIsEnumerable";
   "toLocaleString"; "toString"; "valueOf"; "__proto__";
   "__defineGetter__"; "__defineSetter__"; "__lookupGetter__"; "__lookupSetter__"].

(** [literal[name]] on an object literal with the given own properties: an
    inherited name yields a function (or the prototype), which is truthy
    and has none of the own properties; [Obj []] stands for it. *)
Definition member (name : string) (own : list (string * Val)) : Val :=
  match lookup name own with
  | Undefined => if existsb (String.eqb name) Object_prototype_keys then Obj [] else Undefined
  | v => v
  end.

Definition purchase_request (packageName : Val) (wl : Wallet) (extra : list (string * string))
  : Request :=
  {| url := API_URL ++ "/api/credits/purchase?package=" ++ string_of packageName;
     method := "POST";
     headers := [("Content-Type", "application/json")] ++ extra;
     body := Some (JSON_stringify E (Obj [("address", Str (address wl))])) |}.

Definition purchase_credits (args : Val) : M ToolResult :=
  match wallet with
  | None => throw (Error "purchase_credits requires PRIVATE_KEY for x402 payments")
  | Some wl =>
      packageName <- lift (get args "package") ;;
      name <- lift (toString packageName) ;;
      let pkg := member name packages in
      if negb (truthy pkg)
      then throw (Error ("Invalid package: " ++ name))
      else
        credits <- lift (localized "pkg.credits" (get_opt pkg "credits")) ;;
        price <- lift (toString (get_opt pkg "priceUsd")) ;;
        sendNotification "info"
          ("Purchasing " ++ credits ++ " credits ($" ++ price ++ ")...")
          (Obj [("package", packageName)]) ;;;
        response1 <- fetch (purchase_request packageName wl []) ;;
        if negb (status response1 =? 402)
        then throw_http_error response1 "Unexpected response: "
        else
          paymentRequest <- lift (json response1) ;;
          paymentHeader <- createPaymentHeader paymentRequest ;;
          response2 <- fetch (purchase_request packageName wl [("X-PAYMENT", paymentHeader)]) ;;
          if negb (ok response2)
          then throw_http_error response2 "Payment failed: "
          else
            result <- lift (json response2) ;;
            creditsAdded <- lift (get result "creditsAdded") ;;
            added <- (if is_nullish creditsAdded then ret ""
                      else lift (localized "result.creditsAdded?" creditsAdded)) ;;
            sendNotification "info"
              ("✓ Purchased " ++ (if (added =? "")%string then credits else added) ++
               " credits!")
              (Obj [("credits", get_opt result "newCredits");
                    ("txHash", get_opt result "transactionHash")]) ;;;
            show (PurchaseCredits result pkg (address wl))
  end.

(** The [switch (name)] of the handler. *)
Definition dispatch (name : string) (args : Val) : M ToolResult :=
  if (name =? "check_address")%string then check_address args
  else if (name =? "check_twitter")%string then check_twitter args
  else if (name =? "get_data_for_address")%string then get_data_for_address args
  else if (name =? "get_data_for_twitter")%string then get_data_for_twitter args
  else if (name =? "batch_check")%string then batch_check args
  else if (name =? "batch_get_data")%string then batch_get_data args
  else if (name =? "batch_check_streaming")%string then batch_check_streaming args
  else if (name =? "batch_get_data_streaming")%string then batch_get_data_streaming args
  else if (name =? "check_credits")%string then check_credits args
  else if (name =? "set_credit_alert")%string then set_credit_alert args
  else if (name =? "purchase_credits")%string then purchase_credits args
  else throw (Error ("Unknown tool: " ++ name)).

(** The handler registered for [CallToolRequestSchema], applied to
    [request.params.name] and [request.params.arguments]. It always
    resolves: whatever the [switch] throws is turned into an error result. *)
Definition callTool (name : string) (args : Val) : World -> ToolResult * World :=
  fun w =>
    match AUTH_MODE with
    | none => (not_configured, w)
    | _ =>
        match dispatch name args w with
        | (Return result, w') => (result, w')
        | (Throw error, w') => (error_result error, w')
        end
    end.

End Server.

(** The bindings as the module initialises them, before anything ran. *)
Definition initial : World :=
  {| lastKnownCredits := Null;
     customAlertThreshold := Num LOW_CREDIT_WARNING;
     calls := []; outbox := [];
     clock_reads := 0; random_drawn := 0; signed := [] |}.

(** What a run added to the request log and to the outbox. *)
Definition new_calls (w w' : World) : list Request :=
  skipn (List.length (calls w)) (calls w').

Definition new_notifications (w w' : World) : list Notification :=
  skipn (List.length (outbox w)) (outbox w').

(** A request that carries a payment header is the retry of another. *)
Definition is_retry (req : Request) : bool :=
  existsb (fun h => (fst h =? "X-PAYMENT")%string) (headers req).

Definition plain (req : Request) : bool := negb (is_retry req).

(** A computation that sends no request, however it ends. *)
Definition quiet {A} (m : M A) : Prop :=
  forall w, calls (snd (m w)) = calls w.

(** A downward crossing of [threshold]: the previous balance is known and
    strictly above it, the new balance is at or below it. *)
Definition crossing (threshold : Z) (last credits : Val) : bool :=
  match last, credits with
  | Num l, Num c => (threshold <? l) && (c <=? threshold)
  | _, _ => false
  end.

(** A balance: an integer that binary64 has. *)
Definition balance (v : Val) : Prop :=
  exists z, v = Num z /\ binary64 z = Num z.


(** Successive observations of a balance: what each call of
    [checkCreditsAndNotify] sent. *)
Fixpoint observe (E : Env) (balances : list Val) (w : World) : list (list Notification) :=
  match balances with
  | [] => []
  | credits :: rest =>
      let w' := snd (checkCreditsAndNotify E credits w) in
      new_notifications w w' :: observe E rest w'
  end.

(** Tool calls handled one after the other. *)
Fixpoint session (E : Env) (requests : list (string * Val)) (w : World)
  : list ToolResult * World :=
  match requests with
  | [] => ([], w)
  | (name, args) :: rest =>
      let (result, w') := callTool E name args w in
      let (results, w'') := session E rest w' in
      (result :: results, w'')
  end.

(** The states in which a run of the batch loop, started with [s0] in
    [w0], enters a pass: the start, and what every completed pass leaves. *)
Inductive reaches (E : Env) {St : Type} (progressCallback : Val -> St -> M St)
    (items : Val) (type endpoint : string) (s0 : St) (w0 : World)
  : nat -> list Val -> St -> World -> Prop :=
| reaches_start :
    reaches E progressCallback items type endpoint s0 w0 0 [] s0 w0
| reaches_next (i : nat) (results : list Val) (s : St) (w : World)
    (results' : list Val) (s' : St) (w' : World) :
    reaches E progressCallback items type endpoint s0 w0 i results s w ->
    (i < length_of items)%nat ->
    chunk_pass E progressCallback items type endpoint i results s w =
      (Return (results', s'), w') ->
    reaches E progressCallback items type endpoint s0 w0 (i + batchSize) results' s' w'.

(** The request of the driver for one chunk, as [postWithAuth] builds it. *)
Definition chunk_request (E : Env) (type endpoint : string) (chunk : list Val) : Request :=
  request_for E (API_URL E ++ endpoint)
    (post_options E (batch_request_body type (Arr chunk))) [].

(** ** The partition the batch driver is specified to make

    Contiguous chunks of exactly [n] items, the last one possibly shorter:
    written from the specification, to compare the loop with. *)
Fixpoint chunks_fuel {A} (fuel n : nat) (l : list A) : list (list A) :=
  match fuel, l with
  | _, [] => []
  | O, _ => []
  | S fuel', _ => firstn n l :: chunks_fuel fuel' n (skipn n l)
  end.

Definition chunks {A} (n : nat) (l : list A) : list (list A) :=
  chunks_fuel (List.length l) n l.

(** ** The catalogues and the resource and prompt handlers *)

(** [lines.join("\n")]: a template literal, line by line. *)
Definition text_of (lines : list string) : string := String.concat nl lines.

(** [s.repeat(n)] *)
Fixpoint repeat_string (s : string) (n : nat) : string :=
  match n with
  | O => ""
  | S n' => s ++ repeat_string s n'
  end.

(** An entry of the tool catalogue. *)
Record Tool := {
  tool_name : string;
  tool_description : string;
  inputSchema : Val
}.

Definition check_address_tool : Tool :=
  {| tool_name := "check_address";
     tool_description :=
       "Check if an Ethereum address exists in the Bluepages database. " ++
       "Returns whether data is available. Fast and cheap - use this " ++
       "first before fetching full data. Cost: 1 credit ($0.001 USD).";
     inputSchema :=
       Obj [("type", Str "object");
            ("properties", Obj [("address", Obj [("type", Str "string");
                      ("description", Str "Ethereum address to check (0x format, 42 characters)");
                      ("pattern", Str "^0x[a-fA-F0-9]{40}$")])]);
            ("required", Arr [Str "address"])] |}.

Definition check_twitter_tool : Tool :=
  {| tool_name := "check_twitter";
     tool_description :=
       "Check if a Twitter/X handle exists in the Bluepages database. " ++
       "Returns whether data is available. Cost: 1 credit ($0.001 USD).";
     inputSchema :=
       Obj [("type", Str "object");
            ("properties", Obj [("twitter", Obj [("type", Str "string");
                      ("description", Str "Twitter/X handle (with or without @)")])]);
            ("required", Arr [Str "twitter"])] |}.

Definition get_data_for_address_tool : Tool :=
  {| tool_name := "get_data_for_address";
     tool_description :=
       "Get Twitter/Farcaster for a SINGLE address. For MULTIPLE " ++
       "addresses, use batch_get_data instead (faster and cheaper). " ++
       "Cost: 50 credits when data found, free if not found.";
     inputSchema :=
       Obj [("type", Str "object");
            ("properties", Obj [("address", Obj [("type", Str "string");
                      ("description", Str "Ethereum address (0x format, 42 characters)");
                      ("pattern", Str "^0x[a-fA-F0-9]{40}$")])]);
            ("required", Arr [Str "address"])] |}.

Definition get_data_for_twitter_tool : Tool :=
  {| tool_name := "get_data_for_twitter";
     tool_description :=
       "Get Ethereum addresses for a SINGLE Twitter handle. For " ++
       "MULTIPLE handles, use batch_get_data instead (faster and " ++
       "cheaper). Cost: 50 credits when data found, free if not found.";
     inputSchema :=
       Obj [("type", Str "object");
            ("properties", Obj [("twitter", Obj [("type", Str "string");
                      ("description", Str "Twitter/X handle (with or without @)")])]);
            ("required", Arr [Str "twitter"])] |}.

Definition batch_check_tool : Tool :=
  {| tool_name := "batch_check";
     tool_description :=
       "Check multiple addresses and/or Twitter handles at once (up to " ++
       "50 total). More efficient than individual checks. Cost: 40 " ++
       "credits ($0.04 USD) per batch.";
     inputSchema :=
       Obj [("type", Str "object");
            ("properties", Obj [("addresses", Obj [("type", Str "array");
                      ("items", Obj [("type", Str "string")]);
                      ("description", Str "Array of Ethereum addresses to check (max 50 total with twitters)")]);
                 ("twitters", Obj [("type", Str "array");
                      ("items", Obj [("type", Str "string")]);
                      ("description", Str "Array of Twitter handles to check (max 50 total with addresses)")])])] |}.

Definition batch_get_data_tool : Tool :=
  {| tool_name := "batch_get_data";
     tool_description :=
       "RECOMMENDED for multiple addresses. Get full data for up to 50 " ++
       "addresses/Twitter handles at once. Much cheaper than individual " ++
       "get_data calls. First use batch_check to find which have data, " ++
       "then call this. Cost: API key users pay 40 credits per item " ++
       "found; x402 users pay $2.00 flat per batch.";
     inputSchema :=
       Obj [("type", Str "object");
            ("properties", Obj [("addresses", Obj [("type", Str "array");
                      ("items", Obj [("type", Str "string")]);
                      ("description", Str "Array of Ethereum addresses to get data for")]);
                 ("twitters", Obj [("type", Str "array");
                      ("items", Obj [("type", Str "string")]);
                      ("description", Str "Array of Twitter handles to get data for")])])] |}.

Definition batch_check_streaming_tool : Tool :=
  {| tool_name := "batch_check_streaming";
     tool_description :=
       "Check a large list of addresses with streaming progress " ++
       "updates. Use this for lists larger than 50 items. Sends " ++
       "progress notifications as batches complete. Cost: 40 credits " ++
       "per batch of 50.";
     inputSchema :=
       Obj [("type", Str "object");
            ("properties", Obj [("addresses", Obj [("type", Str "array");
                      ("items", Obj [("type", Str "string")]);
                      ("description", Str "Array of Ethereum addresses to check (any size, processed in batches of 50)")])]);
            ("required", Arr [Str "addresses"])] |}.

Definition batch_get_data_streaming_tool : Tool :=
  {| tool_name := "batch_get_data_streaming";
     tool_description :=
       "Get data for a large list of addresses with streaming progress " ++
       "updates. Use this for lists larger than 50 items. Sends " ++
       "notifications as results are found. Cost: API key users pay 40 " ++
       "credits per item found; x402 users pay $2.00 per batch of 50.";
     inputSchema :=
       Obj [("type", Str "object");
            ("properties", Obj [("addresses", Obj [("type", Str "array");
                      ("items", Obj [("type", Str "string")]);
                      ("description", Str "Array of Ethereum addresses to get data for (any size, processed in batches of 50)")])]);
            ("required", Arr [Str "addresses"])] |}.

Definition check_credits_tool : Tool :=
  {| tool_name := "check_credits";
     tool_description :=
       "Check your remaining API credits and points. Only available " ++
       "when using API key authentication.";
     inputSchema :=
       Obj [("type", Str "object");
            ("properties", Obj [])] |}.

Definition set_credit_alert_tool : Tool :=
  {| tool_name := "set_credit_alert";
     tool_description :=
       "Set a custom threshold for low credit warnings. You'll receive " ++
       "a notification when credits drop below this level.";
     inputSchema :=
       Obj [("type", Str "object");
            ("properties", Obj [("threshold", Obj [("type", Str "number");
                      ("description", Str "Credit threshold for warnings (default: 1000)");
                      ("minimum", Num 0)])]);
            ("required", Arr [Str "threshold"])] |}.

Definition purchase_credits_tool : Tool :=
  {| tool_name := "purchase_credits";
     tool_description :=
       "Purchase API credits using x402 payment (USDC on Base). " ++
       "Packages: starter (5,000 credits, $5), pro (50,000 credits, " ++
       "$45), enterprise (1,000,000 credits, $600). Returns an API key " ++
       "if you don't have one.";
     inputSchema :=
       Obj [("type", Str "object");
            ("properties", Obj [("package", Obj [("type", Str "string");
                      ("enum", Arr [Str "starter"; Str "pro"; Str "enterprise"]);
                      ("description", Str "Credit package to purchase")])]);
            ("required", Arr [Str "package"])] |}.


(** An entry of the resource catalogue and the contents of a resource. *)
Record Resource := {
  resource_uri : string;
  resource_name : string;
  resource_description : string;
  resource_mimeType : string
}.

Record Contents := {
  contents_uri : string;
  contents_mimeType : string;
  contents_text : string
}.

(** An entry of the prompt catalogue (each prompt has one argument) and
    the message a prompt expands to (its role is "user", its type "text"). *)
Record Prompt := {
  prompt_name : string;
  prompt_description : string;
  argument_name : string;
  argument_description : string;
  argument_required : bool
}.

Record PromptMessage := {
  message_description : string;
  message_text : string
}.

(** The handler of [ListResourcesRequestSchema] (lines 1099-1122). *)
Definition listResources : list Resource :=
  [{| resource_uri := "bluepages://info";
      resource_name := "Bluepages API Information";
      resource_description :=
        "Information about the Bluepages API, authentication, and pricing";
      resource_mimeType := "text/plain" |};
   {| resource_uri := "bluepages://pricing";
      resource_name := "Pricing Information";
      resource_description := "Credit costs for each endpoint";
      resource_mimeType := "text/plain" |};
   {| resource_uri := "bluepages://status";
      resource_name := "Current Session Status";
      resource_description := "Your current credits, points, and session information";
      resource_mimeType := "text/plain" |}].

(** The handler of [ListPromptsRequestSchema] (lines 1292-1330). *)
Definition listPrompts : list Prompt :=
  [{| prompt_name := "analyze_addresses";
      prompt_description :=
        "Analyze a list of Ethereum addresses to find their Twitter/social identities";
      argument_name := "addresses";
      argument_description := "Comma-separated list of Ethereum addresses";
      argument_required := true |};
   {| prompt_name := "find_crypto_twitter";
      prompt_description := "Find the Ethereum address for a Twitter/X crypto personality";
      argument_name := "twitter_handle";
      argument_description := "Twitter/X handle to look up";
      argument_required := true |};
   {| prompt_name := "analyze_large_list";
      prompt_description :=
        "Analyze a large list of addresses (100+) with streaming progress updates";
      argument_name := "addresses";
      argument_description := "Comma-separated list of Ethereum addresses (any size)";
      argument_required := true |}].

(** The handler of [GetPromptRequestSchema] (lines 1332-1400), applied to
    [request.params.name] and [request.params.arguments]. The arguments of
    a prompt are strings, which is what the protocol lets through to the
    handler: their conversion in the template is [string_of]. *)
Definition getPrompt (name : string) (args : Val) : Exn + PromptMessage :=
  if (name =? "analyze_addresses")%string then
    inr {| message_description := "Analyze Ethereum addresses for social identities";
           message_text :=
             text_of
               (["Please analyze these Ethereum addresses and find any associated Twitter/social identities:";
       ""] ++
                [string_of (or_else (get_opt args "addresses") (Str "No addresses provided"))] ++
                ["";
       "For each address:";
       "1. First use batch_check to efficiently check which addresses have data";
       "2. Then use batch_get_data only for addresses that were found";
       "3. Summarize the findings in a clear format"])%list |}
  else if (name =? "find_crypto_twitter")%string then
    inr {| message_description := "Find crypto address for Twitter personality";
           message_text :=
             text_of
               ([("Please find the Ethereum address associated with the Twitter/X handle: " ++
                  string_of (or_else (get_opt args "twitter_handle") (Str "unknown")))%string] ++
                ["";
       "1. First use check_twitter to verify the handle exists in the database";
       "2. If found, use get_data_for_twitter to get the full details";
       "3. Report any associated addresses, display name, and Farcaster username"])%list |}
  else if (name =? "analyze_large_list")%string then
    inr {| message_description := "Analyze large list of addresses with streaming";
           message_text :=
             text_of
               (["Please analyze this large list of Ethereum addresses with streaming progress:";
       ""] ++
                [string_of (or_else (get_opt args "addresses") (Str "No addresses provided"))] ++
                ["";
       "Since this is a large list:";
       "1. Use batch_check_streaming to check all addresses with progress updates";
       "2. Then use batch_get_data_streaming for found addresses";
       "3. Watch for progress notifications as batches complete";
       "4. Summarize all findings when complete"])%list |}
  else inl (Error ("Unknown prompt: " ++ name)).

Definition pricing_text : string :=
  text_of
    ["Bluepages API Pricing";
     "";
     "Payment Methods:";
     "1. API Key (credits) - 1 credit = $0.001 USD";
     "2. x402 (USDC on Base) - Pay per request";
     "";
     "Single Operations:";
     "- check_address / check_twitter: 1 credit ($0.001)";
     "- get_data_for_address / get_data_for_twitter: 50 credits ($0.05) - only if found";
     "";
     "Batch Operations (up to 50 items per batch):";
     "- batch_check: 40 credits ($0.04) per batch";
     "- batch_get_data:";
     "  * API Key: 40 credits per item with data found";
     "  * x402: $2.00 flat per batch (regardless of items)";
     "";
     "Streaming Operations (same pricing, for large lists):";
     "- batch_check_streaming: 40 credits ($0.04) per batch of 50";
     "- batch_get_data_streaming: Same as batch_get_data";
     "";
     "Credit Packages:";
     "- 5,000 credits: $5 (Starter)";
     "- 50,000 credits: $45 (Pro - 10% discount)";
     "- 1,000,000 credits: $600 (Enterprise - 40% discount)";
     "";
     "Cost Optimization Tips:";
     "1. Use batch_check first to find which addresses have data ($0.04 per 50)";
     "2. Collect all found addresses, then call batch_get_data in full batches";
     "3. This two-phase approach saves 90%+ vs calling batch_get_data per batch";
     "";
     "Notes:";
     "- get_data doesn't charge if no data is found";
     "- Credits never expire";
     "- You earn 1 point for every credit spent (shown on leaderboard)"].

Section Catalogue.

Variable E : Env.

(** The handler of [ListToolsRequestSchema] (lines 450-641): the eight
    lookup tools, the two credit tools under an API key, the purchase tool
    under a wallet. *)
Definition listTools : list Tool :=
  [check_address_tool; check_twitter_tool; get_data_for_address_tool;
   get_data_for_twitter_tool; batch_check_tool; batch_get_data_tool;
   batch_check_streaming_tool; batch_get_data_streaming_tool] ++
  (if present (API_KEY E) then [check_credits_tool; set_credit_alert_tool] else []) ++
  (match wallet E with
   | Some _ => [purchase_credits_tool]
   | None => []
   end).

(** [a <= b] on arbitrary values: both are converted to primitives; two
    strings compare as strings, anything else as numbers. *)
Definition primitive (v : Val) : Val :=
  match v with
  | Arr _ | Obj _ => Str (string_of v)
  | _ => v
  end.

Definition number_le (x y : Val) : bool :=
  match x, y with
  | Num n, Num m => n <=? m
  | Infinity true, (Num _ | Infinity _) => true
  | (Num _ | Infinity _), Infinity false => true
  | _, _ => false
  end.

Definition le_val (a b : Val) : Exn + bool :=
  if negb (converts a) || negb (converts b) then inl not_primitive
  else
    match primitive a, primitive b with
    | Str x, Str y => inr (String.leb x y)
    | x, y => inr (number_le (number_of E x) (number_of E y))
    end.

Definition info_text : string :=
  (match AUTH_MODE E with
   | none =>
       text_of
         (["⚠️  NOT CONFIGURED — All tool calls will fail until credentials are set.";
           "";
           "Set one of these environment variables and restart:";
           "";
           "  Option 1 (recommended): BLUEPAGES_API_KEY";
           "    Get a key at https://bluepages.fyi/api-keys.html";
           "    20% cheaper, 2x rate limits";
           "";
           "  Option 2: PRIVATE_KEY";
           "    Ethereum private key for x402 payments (USDC on Base)";
           "    No API key needed, pay per request";
           ""] ++
          [repeat_string "─" 60; ""])%list
   | _ => ""
   end) ++
  text_of
    (["Bluepages API - Crypto Address ↔ Twitter/X Lookup Service";
       "";
       "Bluepages maintains a database of over 800,000 verified connections between";
       "Ethereum addresses and Twitter/X handles, along with Farcaster usernames and";
       "display names.";
       ""] ++
     [("Authentication Mode: " ++
       match AUTH_MODE E with
       | api_key => "API Key"
       | x402 => "x402 Payments (USDC on Base)"
       | none => "Not configured"
       end)%string;
      match AUTH_MODE E with
      | api_key => "Use check_credits tool to see remaining balance"
      | _ => ""
      end;
      match AUTH_MODE E with
      | x402 =>
          ("Wallet: " ++
           match wallet E with
           | Some wl => if (address wl =? "")%string then "Not configured" else address wl
           | None => "Not configured"
           end)%string
      | _ => ""
      end] ++
     ["";
       "Usage Tips:";
       "1. Use check_address or check_twitter first (cheap) to see if data exists";
       "2. Only call get_data_* when check returns found=true";
       "3. Use batch_* endpoints for multiple lookups (more efficient)";
       "4. Use batch_*_streaming for large lists (100+ items) to see progress";
       "5. The /data endpoints don't charge if no data is found";
       "";
       "Features:";
       "- Streaming: batch_check_streaming and batch_get_data_streaming for large lists";
       "- Notifications: Low credit warnings when balance drops below threshold";
       "- Credit alerts: Use set_credit_alert to customize warning threshold";
       ""] ++
     [("API URL: " ++ API_URL E)%string])%list.

(** The text of the status resource under an API key, from the reply of
    [/api/me]. *)
Definition status_text (result : Val) : M string :=
  credits <- lift (get result "credits") ;;
  shown_credits <- lift (localized E "(result.credits || 0)" (or_else credits (Num 0))) ;;
  points <- lift (get result "points") ;;
  shown_points <- lift (localized E "(result.points || 0)" (or_else points (Num 0))) ;;
  threshold <- read customAlertThreshold ;;
  shown_threshold <- lift (localized E "customAlertThreshold" threshold) ;;
  critical <- lift (le_num E credits CRITICAL_CREDIT_WARNING) ;;
  low <- (if critical then ret false else lift (le_val credits threshold)) ;;
  ret (text_of
         ["Current Session Status";
          "";
          "Authentication: API Key";
          "Credits: " ++ shown_credits;
          "Points: " ++ shown_points;
          "Alert Threshold: " ++ shown_threshold ++ " credits";
          "";
          if critical then "⚠️ CRITICAL: Credits very low!"
          else if low then "⚠️ Credits running low"
          else "✓ Credits OK"]).

Definition text_plain (uri text : string) : Contents :=
  {| contents_uri := uri; contents_mimeType := "text/plain"; contents_text := text |}.

(** The handler of [ReadResourceRequestSchema] (lines 1124-1288), applied
    to [request.params.uri]. *)
Definition readResource (uri : string) : M Contents :=
  if (uri =? "bluepages://info")%string then ret (text_plain uri info_text)
  else if (uri =? "bluepages://pricing")%string then ret (text_plain uri pricing_text)
  else if (uri =? "bluepages://status")%string then
    if present (API_KEY E) then
      try_catch
        (result <- getWithAuth E (API_URL E ++ "/api/me") ;;
         shown <- status_text result ;;
         ret (text_plain uri shown))
        (fun e =>
           ret (text_plain uri
                  (text_of ["Current Session Status";
                            "";
                            "Authentication: API Key";
                            "Status: Error fetching credits - " ++ message e])))
    else
      match wallet E with
      | Some wl =>
          ret (text_plain uri
                 (text_of
                    (["Current Session Status";
                     "";
                     "Authentication: x402 Payments"] ++
                     [("Wallet: " ++ address wl)%string] ++
                     ["Mode: Pay-per-request with USDC on Base";
                     "";
                     "Note: Check your wallet balance for available funds."])%list))
      | None =>
          ret (text_plain uri
                 (text_of
                    ["Current Session Status";
                     "";
                     "Authentication: Not configured";
                     "";
                     "Set BLUEPAGES_API_KEY or PRIVATE_KEY environment variable to enable API access."]))
      end
  else throw (Error ("Unknown resource: " ++ uri)).

End Catalogue.

(** A computation that leaves an observation [f] of the state as it was,
    however it ends. *)
Definition keeps {A B} (f : World -> B) (m : M A) : Prop :=
  forall w, f (snd (m w)) = f w.

(** ** Vocabulary of the properties *)

(** The tool names of the switch of the tool-call handler. *)
Definition known_tools : list string :=
  ["check_address"; "check_twitter"; "get_data_for_address"; "get_data_for_twitter";
   "batch_check"; "batch_get_data"; "batch_check_streaming"; "batch_get_data_streaming";
   "check_credits"; "set_credit_alert"; "purchase_credits"].

(** A value with nothing to look up: missing, [null] or an empty array. *)
Definition nothing_given (v : Val) : Prop :=
  v = Undefined \/ v = Null \/ v = Arr [].

(** The credit tracker: the last known balance and the alert threshold. *)
Definition tracker (w : World) : Val * Val :=
  (lastKnownCredits w, customAlertThreshold w).

(** What a payment leaves behind: signatures, random bytes, clock reads. *)
Definition payment_trace (w : World) : list Val * nat * nat :=
  (signed w, random_drawn w, clock_reads w).

(** Balances that never rise, starting below [last]. *)
Fixpoint falling (last : Z) (balances : list Z) : Prop :=
  match balances with
  | [] => True
  | b :: rest => b <= last /\ falling b rest
  end.

(** How many of the notifications sent are of the given level. *)
Definition count_level (lvl : string) (sent : list Notification) : nat :=
  List.length (filter (fun n => (level n =? lvl)%string) sent).

(** The [found] flag of a record of a batch run, as JavaScript tests it. *)
Definition found_flag (r : Val) : bool := truthy (get_opt r "found").

(** A notification that carries a chunk-level progress event. *)
Definition is_progress (n : Notification) : bool :=
  is_string (get_opt (data n) "type") "progress".

Definition percentage (n : Notification) : Val := get_opt (data n) "percentage".

(** The percentages of the passes of the batch loop from index [i] on,
    over [n] items: [Math.round((current / n) * 100)] with [current] the
    items handled when the pass is done. *)
Fixpoint percentages_from (passes i n : nat) : list Val :=
  match passes with
  | O => []
  | S passes' =>
      if (i <? n)%nat
      then percentage_of (Nat.min (i + 50) n) n :: percentages_from passes' (i + 50) n
      else []
  end.

(** A computation that sends no progress event, however it ends. *)
Definition silent {A} (m : M A) : Prop :=
  forall w, exists extra,
    outbox (snd (m w)) = (outbox w ++ extra)%list /\ filter is_progress extra = [].

(** What a request shows of itself besides its headers. *)
Definition described (r : Request) : string * string * option string :=
  (url r, method r, body r).


(** ** Sample environments

    Concrete instances of [Env], used to run the definitions. The built-ins
    are simple stand-ins: nothing proved for all environments depends on
    them. *)
Module Sample.

Fixpoint stringify (v : Val) : string :=
  match v with
  | Str s => "'" ++ s ++ "'"
  | Arr items => "[" ++ String.concat "," (map stringify items) ++ "]"
  | Obj fields =>
      "{" ++ String.concat "," (map (fun kv => fst kv ++ ":" ++ stringify (snd kv)) fields) ++ "}"
  | _ => string_of v
  end.

Definition byte_of_nat (n : nat) : Byte.byte :=
  match Byte.of_N (N.of_nat n mod 256) with
  | Some b => b
  | None => Byte.x00
  end.

(** A private key that ethers accepts and the address of its wallet (the
    first account of the usual development chains). *)
Definition private_key : string :=
  "0xac0974bec39a17e36ba4a6b4d238ff944bacb478cbed5efcae784d7bf4f2ff80".

Definition account : Wallet :=
  {| key := private_key; address := "0xf39Fd6e51aad88F6F4ce6aB8827279cffFb92266" |}.

Definition is_hex (c : ascii) : bool :=
  let n := nat_of_ascii c in
  ((48 <=? n) && (n <=? 57) || (65 <=? n) && (n <=? 70) || (97 <=? n) && (n <=? 102))%nat.

(** 32 bytes in hexadecimal, with or without the prefix. *)
Definition accepts (k : string) : bool :=
  let digits := if String.prefix "0x" k then substring 2 (String.length k - 2) k else k in
  (String.length digits =? 64)%nat && forallb is_hex (list_ascii_of_string digits).

Definition env (apiKey privateKey : option string)
    (replies : nat -> Request -> Exn + Response) : Env :=
  {| env_BLUEPAGES_API_URL := None;
     env_BLUEPAGES_API_KEY := apiKey;
     env_PRIVATE_KEY := privateKey;
     fetch_reply := replies;
     clock := fun n => 1700000000000 + 1000 * Z.of_nat n;
     random_byte := byte_of_nat;
     wallet_accepts := accepts;
     wallet_address := fun k => address account;
     signTypedData := fun k _ _ _ => inr ("signed-by-" ++ k);
     encodeURIComponent := fun s => s;
     JSON_stringify := stringify;
     base64 := fun s => "b64(" ++ s ++ ")";
     StringToNumber := parseInt;
     toLocaleString := string_of;
     render := fun _ => inr "done" |}.

Definition reply (code : Z) (body : Val) : Exn + Response :=
  inr {| status := code; statusText := "status " ++ decimal code;
         json := inr body; credits_remaining := None |}.

(** A server that answers every request with 200 and an empty object. *)
Definition always_ok : nat -> Request -> Exn + Response :=
  fun _ _ => reply 200 (Obj []).

(** The replies are taken from a list, by call number; 500 afterwards. *)
Definition scripted (replies : list (Exn + Response)) : nat -> Request -> Exn + Response :=
  fun n _ => nth n replies (reply 500 (Obj [("error", Str "no more replies")])).

Definition requirement : Val :=
  Obj [("x402Version", Num 1);
       ("accepts",
        Arr [Obj [("scheme", Str "exact"); ("network", Str "base");
                  ("maxAmountRequired", Str "2000"); ("payTo", Str "0xPAYEE");
                  ("asset", Str "0xUSDC"); ("maxTimeoutSeconds", Num 60)];
             Obj [("scheme", Str "other"); ("network", Str "elsewhere");
                  ("maxAmountRequired", Str "1"); ("payTo", Str "0xOTHER");
                  ("asset", Str "0xDAI"); ("maxTimeoutSeconds", Num 5)]])].

(** A reply that reports the remaining credits in its header. *)
Definition reply_with_credits (remaining : string) : Exn + Response :=
  inr {| status := 200; statusText := "OK";
         json := inr (Obj [("exists", Bool true)]);
         credits_remaining := Some remaining |}.

(** An API-key session: the balance is reported as 1500, 900, then 400. *)
Definition metered : Env :=
  env (Some "bp_key") None
      (scripted [reply_with_credits "1500"; reply_with_credits "900";
                 reply_with_credits "400"]).

Definition known (credits : Z) : World :=
  {| lastKnownCredits := Num credits;
     customAlertThreshold := Num LOW_CREDIT_WARNING;
     calls := []; outbox := [];
     clock_reads := 0; random_drawn := 0; signed := [] |}.

(** An x402 session: a challenge and a paid success; a challenge and a
    failure of the paid retry; a plain failure. *)
Definition paying : Env :=
  env None (Some private_key)
      (scripted [reply 402 requirement; reply 200 (Obj [("exists", Bool true)]);
                 reply 402 requirement; reply 500 (Obj [("error", Str "settlement failed")]);
                 reply 404 (Obj [("error", Str "not found")])]).

Definition plain_get : Options :=
  {| opt_method := None; opt_contentType := None; opt_body := None |}.

(** An API-key session in which the first batch request succeeds, with
    one address found, and the second one is refused. *)
Definition throttled : Env :=
  env (Some "bp_key") None
      (scripted
         [reply 200
            (Obj [("results",
                   Obj [("addresses",
                         Obj [("a0", Obj [("exists", Bool true); ("twitter", Bool true);
                                          ("farcaster", Bool false)]);
                              ("a1", Obj [("exists", Bool false); ("twitter", Bool false);
                                          ("farcaster", Bool false)])])])]);
          reply 429 (Obj [("error", Str "rate limited")])]).

(** An API-key session whose server accepts everything. *)
Definition open_handed : Env :=
  env (Some "bp_key") None always_ok.

(** 120 addresses: ["a0"; "a1"; ...; "a119"]. *)
Definition addresses (n : nat) : list Val :=
  map (fun i => Str ("a" ++ decimal (Z.of_nat i))) (seq 0 n).

(** An API-key session whose server fails every request with 500. *)
Definition out_of_order : Env :=
  env (Some "bp_key") None (scripted []).

(** An API-key session whose server knows one address of two; the
    entries are those of [/batch/data]. *)
Definition profiled : Env :=
  env (Some "bp_key") None
      (scripted
         [reply 200
            (Obj [("results",
                   Obj [("addresses",
                         Obj [("a0", Obj [("found", Bool true);
                                          ("primary",
                                           Obj [("twitter", Str "alice");
                                                ("metadata",
                                                 Obj [("displayName", Str "Alice");
                                                      ("source", Str "ens")])]);
                                          ("alternates", Arr [])]);
                              ("a1", Obj [("found", Bool false);
                                          ("primary", Null);
                                          ("alternates", Arr [])])])])])]).

(** A session with no credential at all, whose server asks for payment. *)
Definition unfunded : Env :=
  env None None (scripted [reply 402 requirement]).

End Sample.

(** ** Properties *)

(** Close an equation between closed terms by evaluating its left side,
    which also fills in what the right side leaves open. *)
Ltac by_evaluation :=
  lazymatch goal with
  | |- ?lhs = ?rhs =>
      let v := eval vm_compute in lhs in
      unify rhs v; vm_cast_no_check (@eq_refl _ v)
  end.

(** *** Logs *)

Lemma skipn_length_app {A} (l extra : list A) :
  skipn (List.length l) (l ++ extra) = extra.
Proof.
  induction l as [|x l IH]; simpl; auto.
Qed.

Lemma new_notifications_same (w : World) : new_notifications w w = [].
Proof.
  unfold new_notifications. apply skipn_all.
Qed.

Lemma new_notifications_logged (n : Notification) (w : World) :
  new_notifications w (log_notification n w) = [n].
Proof.
  unfold new_notifications. simpl. apply skipn_length_app.
Qed.

Lemma alerts_differ (credits credits' : Val) : critical_alert credits <> low_alert credits'.
Proof.
  unfold critical_alert, low_alert. intros H. inversion H.
Qed.

(** *** Numbers of binary64 *)



Lemma binary64_number (z : Z) :
  (exists v, binary64 z = Num v) \/ (exists s, binary64 z = Infinity s).
Proof.
  unfold binary64. cbv zeta. destruct (Z.abs z <=? 2 ^ 53); [eauto|].
  match goal with |- context [if ?c then _ else _] => destruct c end; eauto.
Qed.

Lemma parseInt_cases (s : string) :
  parseInt s = NaN \/ (exists v, parseInt s = Num v) \/ (exists n, parseInt s = Infinity n).
Proof.
  unfold parseInt.
  assert (H : forall o : option Z,
             match o with Some n => binary64 n | None => NaN end = NaN \/
             (exists v, match o with Some n => binary64 n | None => NaN end = Num v) \/
             (exists n, match o with Some n => binary64 n | None => NaN end = Infinity n)).
  { intros [n|]; [right; apply binary64_number|left; reflexivity]. }
  assert (H' : forall o : option Z,
             match o with Some n => binary64 (- n) | None => NaN end = NaN \/
             (exists v, match o with Some n => binary64 (- n) | None => NaN end = Num v) \/
             (exists n, match o with Some n => binary64 (- n) | None => NaN end = Infinity n)).
  { intros [n|]; [right; apply binary64_number|left; reflexivity]. }
  destruct (skip_spaces s) as [|c rest]; [apply H|].
  destruct c as [[] [] [] [] [] [] [] []]; first [apply H | apply H'].
Qed.

Lemma parseInt_number (s : string) : is_nullish (parseInt s) = false.
Proof.
  destruct (parseInt_cases s) as [-> | [[v ->] | [n ->]]]; reflexivity.
Qed.

Lemma parseInt_converts (s : string) : converts (parseInt s) = true.
Proof.
  destruct (parseInt_cases s) as [-> | [[v ->] | [n ->]]]; reflexivity.
Qed.




Lemma toString_converted (v : Val) : converts v = true -> toString v = inr (string_of v).
Proof.
  unfold toString. intros ->. reflexivity.
Qed.

Section Tracker.

Variable E : Env.

(** *** The credit tracker *)

Lemma falls_to_converted (threshold : Z) (last credits : Val) :
  converts credits = true ->
  converts last = true ->
  falls_to E threshold last credits =
  inr (at_most (number_of E credits) threshold && more_than (number_of E last) threshold).
Proof.
  intros Hcredits Hlast. unfold falls_to, le_num, gt_num, toNumber.
  rewrite Hcredits, Hlast.
  destruct (at_most (number_of E credits) threshold); reflexivity.
Qed.

(** What one observation does in API-key mode, when neither the balance
    nor the previous one is refused by the comparisons: it returns, having
    sent at most one alert, and the balance is remembered. *)
Lemma checkCreditsAndNotify_returns (credits : Val) (w : World) :
  present (API_KEY E) = true ->
  is_nullish credits = false ->
  converts credits = true ->
  converts (lastKnownCredits w) = true ->
  exists w1,
    checkCreditsAndNotify E credits w = set_lastKnownCredits credits w1 /\
    (w1 = w \/ w1 = log_notification (critical_alert credits) w \/
     w1 = log_notification (low_alert credits) w).
Proof.
  intros Hkey Hcredits Hconverts Hlast. unfold checkCreditsAndNotify.
  rewrite Hkey, Hcredits. cbn [negb orb]. unfold bind, read.
  destruct (is_null (lastKnownCredits w)); cbn [negb].
  - exists w. split; [reflexivity|left; reflexivity].
  - rewrite !(falls_to_converted _ _ _ Hconverts Hlast). cbn [lift ret].
    destruct (at_most (number_of E credits) CRITICAL_CREDIT_WARNING &&
              more_than (number_of E (lastKnownCredits w)) CRITICAL_CREDIT_WARNING).
    + exists (log_notification (critical_alert credits) w).
      split; [reflexivity|right; left; reflexivity].
    + destruct (at_most (number_of E credits) LOW_CREDIT_WARNING &&
                more_than (number_of E (lastKnownCredits w)) LOW_CREDIT_WARNING).
      * exists (log_notification (low_alert credits) w).
        split; [reflexivity|right; right; reflexivity].
      * exists w. split; [reflexivity|left; reflexivity].
Qed.

(** The same for a number after an unknown balance or a number: the alert
    is chosen by the two crossings. *)
Lemma checkCreditsAndNotify_run (c : Z) (w : World) :
  present (API_KEY E) = true ->
  lastKnownCredits w = Null \/ (exists l, lastKnownCredits w = Num l) ->
  checkCreditsAndNotify E (Num c) w =
  set_lastKnownCredits (Num c)
    (if crossing CRITICAL_CREDIT_WARNING (lastKnownCredits w) (Num c)
     then log_notification (critical_alert (Num c)) w
     else if crossing LOW_CREDIT_WARNING (lastKnownCredits w) (Num c)
     then log_notification (low_alert (Num c)) w
     else w).
Proof.
  intros Hkey Hlast. unfold checkCreditsAndNotify.
  rewrite Hkey. cbn [negb orb is_nullish]. unfold bind, read.
  destruct Hlast as [Hlast | [l Hlast]]; rewrite Hlast; [reflexivity|].
  cbn [is_null negb crossing].
  rewrite !(falls_to_converted _ (Num l) (Num c) eq_refl eq_refl).
  cbn [lift ret number_of at_most more_than].
  rewrite (andb_comm (c <=? CRITICAL_CREDIT_WARNING)).
  destruct ((CRITICAL_CREDIT_WARNING <? l) && (c <=? CRITICAL_CREDIT_WARNING));
    [reflexivity|].
  rewrite (andb_comm (c <=? LOW_CREDIT_WARNING)).
  destruct ((LOW_CREDIT_WARNING <? l) && (c <=? LOW_CREDIT_WARNING)); reflexivity.
Qed.

(** C1, as the code has it. In API-key mode and with the alert threshold
    at its default, for every observation of a balance after an unknown
    balance or another balance: the observation returns; the critical
    alert is sent exactly on a downward crossing of 100; the low alert is
    sent exactly on a downward crossing of 1000 that is not also a
    crossing of 100; nothing else is sent, at most one alert per
    observation; and the balance is remembered. Starting from an unknown
    balance, the observations 1500, 900, 900, 50 send nothing, the low
    alert, nothing, the critical alert. *)
Theorem credit_alert_on_crossing :
  present (API_KEY E) = true ->
  (forall (credits : Val) (w : World),
      balance credits ->
      lastKnownCredits w = Null \/ balance (lastKnownCredits w) ->
      customAlertThreshold w = Num LOW_CREDIT_WARNING ->
      let w' := snd (checkCreditsAndNotify E credits w) in
      let last := lastKnownCredits w in
      fst (checkCreditsAndNotify E credits w) = Return tt /\
      (In (critical_alert credits) (new_notifications w w') <->
       crossing CRITICAL_CREDIT_WARNING last credits = true) /\
      (In (low_alert credits) (new_notifications w w') <->
       crossing LOW_CREDIT_WARNING last credits = true /\
       crossing CRITICAL_CREDIT_WARNING last credits = false) /\
      (forall n, In n (new_notifications w w') ->
                 n = critical_alert credits \/ n = low_alert credits) /\
      (List.length (new_notifications w w') <= 1)%nat /\
      lastKnownCredits w' = credits) /\
  (forall w : World,
      lastKnownCredits w = Null ->
      customAlertThreshold w = Num LOW_CREDIT_WARNING ->
      observe E [Num 1500; Num 900; Num 900; Num 50] w =
      [[]; [low_alert (Num 900)]; []; [critical_alert (Num 50)]]).
Proof.
  intros Hkey. split.
  - intros credits w [c [-> _]] Hlast _ w' last. subst w' last.
    assert (Hlast' : lastKnownCredits w = Null \/ exists l, lastKnownCredits w = Num l).
    { destruct Hlast as [H | [l [H _]]]; [left; exact H|right; exists l; exact H]. }
    rewrite (checkCreditsAndNotify_run c w Hkey Hlast').
    destruct (crossing CRITICAL_CREDIT_WARNING (lastKnownCredits w) (Num c));
      [|destruct (crossing LOW_CREDIT_WARNING (lastKnownCredits w) (Num c))];
      cbn [fst snd set_lastKnownCredits lastKnownCredits];
      unfold new_notifications; cbn [outbox log_notification];
      rewrite ?skipn_length_app, ?skipn_all; cbn [In List.length].
    + split; [reflexivity|]. split; [|split; [|split; [|split]]]; auto.
      * tauto.
      * split; [|intros [_ H]; discriminate].
        intros [H|[]]. now apply alerts_differ in H.
      * intros n [H|[]]; auto.
    + split; [reflexivity|]. split; [|split; [|split; [|split]]]; auto.
      * split; [|discriminate]. intros [H|[]]. symmetry in H. now apply alerts_differ in H.
      * tauto.
      * intros n [H|[]]; auto.
    + split; [reflexivity|]. split; [|split; [|split; [|split]]]; auto.
      * split; [contradiction|discriminate].
      * split; [contradiction|intros [H _]; discriminate].
      * contradiction.
  - intros w Hlast _. unfold observe.
    rewrite (checkCreditsAndNotify_run 1500 w Hkey (or_introl Hlast)).
    rewrite Hlast.
    repeat (rewrite checkCreditsAndNotify_run
              by (assumption || (right; eexists; reflexivity));
            cbn [snd set_lastKnownCredits lastKnownCredits log_notification
                 crossing andb
                 CRITICAL_CREDIT_WARNING LOW_CREDIT_WARNING Z.ltb Z.leb Z.compare
                 Pos.compare Pos.compare_cont]).
    unfold new_notifications; cbn [outbox log_notification].
    rewrite ?skipn_length_app, ?skipn_all. reflexivity.
Qed.

End Tracker.

Lemma credit_alert_on_crossing_witness :
  let E := Sample.metered in
  let w := Sample.known 1500 in
  (In (critical_alert (Num 50))
      (new_notifications w (snd (checkCreditsAndNotify E (Num 50) w))) <->
   crossing CRITICAL_CREDIT_WARNING (Num 1500) (Num 50) = true) /\
  observe E [Num 1500; Num 900; Num 900; Num 50] initial =
  [[]; [low_alert (Num 900)]; []; [critical_alert (Num 50)]].
Proof.
  intros E w. split.
  - refine (proj1 (proj2 (proj1 (credit_alert_on_crossing E eq_refl) (Num 50) w _ _ eq_refl))).
    + exists 50. split; reflexivity.
    + right. exists 1500. split; reflexivity.
  - exact (proj2 (credit_alert_on_crossing E eq_refl) initial eq_refl eq_refl).
Defined.

(** C1, as stated, fails for the low threshold: when the balance falls
    from 1500 to 50 it crosses 1000 downwards, yet no low alert is sent
    (the critical alert is sent instead). *)
Lemma low_alert_suppressed_by_critical :
  let E := Sample.metered in
  let w := Sample.known 1500 in
  ~ (In (low_alert (Num 50))
        (new_notifications w (snd (checkCreditsAndNotify E (Num 50) w))) <->
     crossing LOW_CREDIT_WARNING (lastKnownCredits w) (Num 50) = true).
Proof.
  intros E w [_ H]. specialize (H eq_refl).
  vm_compute in H. destruct H as [H|[]]. discriminate H.
Qed.

Section Threshold.

Variable E : Env.

(** C2, on the code. [checkCreditsAndNotify] never reads
    [customAlertThreshold]: whatever value [set_credit_alert] stored, an
    observation sends the same notifications. In the session below the
    threshold is set to 500 and the balance is then reported as 1500, 900
    and 400: the low alert is sent at 900, with threshold 1000, and
    nothing is sent at 400. *)
Theorem custom_threshold_not_consulted :
  (forall (v credits : Val) (w : World),
      new_notifications (snd (set_customAlertThreshold v w))
        (snd (checkCreditsAndNotify E credits (snd (set_customAlertThreshold v w)))) =
      new_notifications w (snd (checkCreditsAndNotify E credits w))) /\
  (let address := Obj [("address", Str "0xd8dA6BF26964aF9D7eEd9e03E53415D37aA96045")] in
   let w := snd (session Sample.metered
                   [("set_credit_alert", Obj [("threshold", Num 500)]);
                    ("check_address", address);
                    ("check_address", address);
                    ("check_address", address)] initial) in
   customAlertThreshold w = Num 500 /\
   lastKnownCredits w = Num 400 /\
   map (fun n => (level n, data n)) (outbox w) =
   [("info", Obj [("threshold", Num 500)]);
    ("warning", Obj [("credits", Num 900); ("threshold", Num 1000)])]).
Proof.
  split.
  - intros v credits w. unfold checkCreditsAndNotify.
    destruct (negb (present (API_KEY E)) || is_nullish credits);
      [reflexivity|].
    unfold bind, read, set_customAlertThreshold, new_notifications;
      cbn [snd lastKnownCredits outbox].
    destruct (negb (is_null (lastKnownCredits w))); [|reflexivity].
    destruct (falls_to E CRITICAL_CREDIT_WARNING (lastKnownCredits w) credits)
      as [e|[|]]; [reflexivity|reflexivity|].
    cbn [lift ret].
    destruct (falls_to E LOW_CREDIT_WARNING (lastKnownCredits w) credits)
      as [e|[|]]; reflexivity.
  - vm_compute. repeat split.
Qed.

End Threshold.

(** *** Computations that send no request *)

Lemma quiet_ret {A} (a : A) : quiet (ret a).
Proof. intros w. reflexivity. Qed.

Lemma quiet_throw {A} (e : Exn) : quiet (@throw A e).
Proof. intros w. reflexivity. Qed.

Lemma quiet_lift {A} (r : Exn + A) : quiet (lift r).
Proof. destruct r; intros w; reflexivity. Qed.

Lemma quiet_read {A} (f : World -> A) : quiet (read f).
Proof. intros w. reflexivity. Qed.

Lemma quiet_bind {A B} (m : M A) (k : A -> M B) :
  quiet m -> (forall a, quiet (k a)) -> quiet (bind m k).
Proof.
  intros Hm Hk w. unfold bind. specialize (Hm w).
  destruct (m w) as [[a|e] w']; simpl in *; [rewrite Hk|]; assumption.
Qed.

Lemma quiet_set_lastKnownCredits (v : Val) : quiet (set_lastKnownCredits v).
Proof. intros w. reflexivity. Qed.

Lemma quiet_set_customAlertThreshold (v : Val) : quiet (set_customAlertThreshold v).
Proof. intros w. reflexivity. Qed.

Create HintDb quiet.
#[export] Hint Resolve quiet_ret quiet_throw quiet_lift quiet_read
  quiet_set_lastKnownCredits quiet_set_customAlertThreshold : quiet.

(** Decompose a computation along its binds and case distinctions. *)
Ltac quiet_steps :=
  repeat (cbv zeta;
          first [ solve [auto with quiet]
                | apply quiet_bind; [|intro]
                | match goal with
                  | |- quiet (match ?x with _ => _ end) => destruct x
                  | |- quiet (if ?x then _ else _) => destruct x
                  end ]).

(** *** The authenticated request executor *)

Section Executor.

Variable E : Env.

Lemma x402_mode :
  AUTH_MODE E = x402 -> present (API_KEY E) = false /\ exists wl, wallet E = Some wl.
Proof.
  unfold AUTH_MODE, wallet. intros H.
  destruct (present (API_KEY E)) eqn:Hkey; [discriminate|].
  destruct (present (PRIVATE_KEY E)) eqn:Hpk; [|discriminate].
  split; [reflexivity|].
  destruct (PRIVATE_KEY E) as [k|]; [|discriminate]. simpl. eauto.
Qed.

Lemma quiet_Date_now : quiet (Date_now E).
Proof. intros w. reflexivity. Qed.

Lemma quiet_randomBytes (n : nat) : quiet (randomBytes E n).
Proof. intros w. reflexivity. Qed.

Lemma quiet_wallet_signTypedData (wl : Wallet) (domain types value : Val) :
  quiet (wallet_signTypedData E wl domain types value).
Proof.
  intros w. unfold wallet_signTypedData.
  destruct (signTypedData E (key wl) domain types value); reflexivity.
Qed.

Lemma quiet_sendNotification (lvl msg : string) (d : Val) :
  quiet (sendNotification lvl msg d).
Proof. intros w. reflexivity. Qed.

Hint Resolve quiet_Date_now quiet_randomBytes quiet_wallet_signTypedData
  quiet_sendNotification : quiet.

(** Building a payment header sends nothing. *)
Lemma quiet_createPaymentHeader (paymentRequest : Val) :
  quiet (createPaymentHeader E paymentRequest).
Proof.
  unfold createPaymentHeader. quiet_steps.
Qed.

Lemma quiet_checkCreditsAndNotify (credits : Val) :
  quiet (checkCreditsAndNotify E credits).
Proof.
  unfold checkCreditsAndNotify, send. quiet_steps.
Qed.

(** A response that is not a success always ends in a throw, there. *)
Lemma throw_http_error_throws {A} (r : Response) (prefix : string) (w : World) :
  exists e, @throw_http_error A r prefix w = (Throw e, w).
Proof.
  unfold throw_http_error, bind. cbv zeta.
  destruct (get (match json r with
                 | inl _ => Obj [("error", Str (statusText r))]
                 | inr v => v
                 end) "error") as [e|reason]; cbn [lift throw ret]; [eauto|].
  destruct (toString (or_else reason (Str (prefix ++ decimal (status r)))));
    cbn [lift throw ret]; eexists; reflexivity.
Qed.

Lemma new_calls_one (req : Request) (w : World) :
  new_calls w (log_call req w) = [req].
Proof.
  unfold new_calls. simpl. apply skipn_length_app.
Qed.

Lemma new_calls_two (req1 req2 : Request) (w w1 : World) :
  calls w1 = calls (log_call req1 w) ->
  new_calls w (log_call req2 w1) = [req1; req2].
Proof.
  intros H. unfold new_calls. simpl in *. rewrite H, <- app_assoc.
  apply skipn_length_app.
Qed.

(** Every run of [fetchWithAuth] sends the plain request first and at most
    one more request after it, which carries the payment header. *)
Lemma fetchWithAuth_calls (url : string) (options : Options) (w : World) :
  exists extra,
    calls (snd (fetchWithAuth E url options w)) =
    (calls w ++ request_for E url options [] :: extra)%list /\
    (extra = [] \/
     present (API_KEY E) = false /\
     exists h, extra = [request_for E url options [("X-PAYMENT", h)]]).
Proof.
  unfold fetchWithAuth. cbv zeta.
  set (req1 := request_for E url options []).
  destruct (present (API_KEY E)) eqn:Hkey.
  - exists []. split; [|now left].
    unfold bind at 1. unfold fetch at 1.
    destruct (fetch_reply E (List.length (calls w)) req1) as [e|r]; simpl;
      [reflexivity|].
    destruct (ok r); simpl.
    + match goal with
      | |- calls (snd (?m ?w0)) = _ => assert (Hq : quiet m)
      end.
      { quiet_steps; apply quiet_checkCreditsAndNotify. }
      rewrite Hq. reflexivity.
    + destruct (@throw_http_error_throws Val r "Request failed: " (log_call req1 w))
        as [e He].
      rewrite He. reflexivity.
  - unfold bind at 1. unfold fetch at 1.
    destruct (fetch_reply E (List.length (calls w)) req1) as [e|r1]; simpl;
      [exists []; split; [reflexivity|now left]|].
    destruct (status r1 =? 402) eqn:H402; simpl.
    + destruct (wallet E) as [wl|];
        [|exists []; split; [reflexivity|now left]].
      unfold bind at 1. unfold lift at 1.
      destruct (json r1) as [e|pr]; simpl;
        [exists []; split; [reflexivity|now left]|].
      unfold bind at 1.
      pose proof (quiet_createPaymentHeader pr (log_call req1 w)) as Hq.
      destruct (createPaymentHeader E pr (log_call req1 w)) as [[h|e] w1];
        simpl in Hq.
      * exists [request_for E url options [("X-PAYMENT", h)]].
        split; [|right; split; [reflexivity|now exists h]].
        set (req2 := request_for E url options [("X-PAYMENT", h)]).
        assert (Hlog : calls (log_call req2 w1) = (calls w ++ [req1; req2])%list).
        { simpl. rewrite Hq, <- app_assoc. reflexivity. }
        unfold bind, fetch.
        destruct (fetch_reply E (List.length (calls w1)) req2) as [e|r2]; simpl;
          [exact Hlog|].
        destruct (ok r2); simpl.
        -- destruct (json r2); exact Hlog.
        -- destruct (@throw_http_error_throws Val r2 "Request failed: "
                       (log_call req2 w1)) as [e He].
           unfold bind in He. rewrite He. exact Hlog.
      * exists []. split; [|now left]. simpl. exact Hq.
    + exists []. split; [|now left].
      destruct (ok r1); simpl.
      * destruct (json r1); reflexivity.
      * destruct (@throw_http_error_throws Val r1 "Request failed: " (log_call req1 w))
          as [e He].
        rewrite He. reflexivity.
Qed.

(** C4. In x402 mode, for every request run through [fetchWithAuth]:
    a 402 followed by a successful retry makes exactly two network calls
    and yields the body of the second response; a 402 followed by another
    failure throws after the second call, with no third call; a first
    response that is neither 402 nor a success throws after exactly one
    call. In any mode and whatever the network answers, a run never makes
    more than two calls. *)
Theorem payment_retry_bound :
  AUTH_MODE E = x402 ->
  forall (url : string) (options : Options) (w : World),
    let req1 := request_for E url options [] in
    (forall (r1 r2 : Response) (pr : Val) (h : string) (w1 : World),
        fetch_reply E (List.length (calls w)) req1 = inr r1 ->
        status r1 = 402 ->
        json r1 = inr pr ->
        createPaymentHeader E pr (log_call req1 w) = (Return h, w1) ->
        let req2 := request_for E url options [("X-PAYMENT", h)] in
        fetch_reply E (List.length (calls w1)) req2 = inr r2 ->
        new_calls w (log_call req2 w1) = [req1; req2] /\
        (ok r2 = true ->
         fetchWithAuth E url options w = lift (json r2) (log_call req2 w1)) /\
        (ok r2 = false ->
         exists e, fetchWithAuth E url options w = (Throw e, log_call req2 w1))) /\
    (forall r1 : Response,
        fetch_reply E (List.length (calls w)) req1 = inr r1 ->
        status r1 <> 402 ->
        ok r1 = false ->
        new_calls w (log_call req1 w) = [req1] /\
        exists e, fetchWithAuth E url options w = (Throw e, log_call req1 w)) /\
    (List.length (new_calls w (snd (fetchWithAuth E url options w))) <= 2)%nat.
Proof.
  intros Hmode url options w req1.
  destruct (x402_mode Hmode) as [Hkey [wl Hwallet]].
  split; [|split].
  - intros r1 r2 pr h w1 Hr1 H402 Hjson Hheader req2 Hr2.
    pose proof (quiet_createPaymentHeader pr (log_call req1 w)) as Hq.
    rewrite Hheader in Hq. simpl in Hq.
    split; [now apply new_calls_two|].
    assert (Hrun : fetchWithAuth E url options w =
                   (if negb (ok r2) then throw_http_error r2 "Request failed: "
                    else lift (json r2)) (log_call req2 w1)).
    { unfold fetchWithAuth. cbv zeta. rewrite Hkey.
      unfold bind at 1. unfold fetch at 1. fold req1. rewrite Hr1.
      rewrite H402. simpl. rewrite Hwallet.
      unfold bind at 1. rewrite Hjson. simpl.
      unfold bind at 1. rewrite Hheader.
      unfold bind, fetch. fold req2. rewrite Hr2. reflexivity. }
    split; intros Hok; rewrite Hrun, Hok; simpl; [reflexivity|].
    apply throw_http_error_throws.
  - intros r1 Hr1 H402 Hok.
    split; [apply new_calls_one|].
    destruct (@throw_http_error_throws Val r1 "Request failed: " (log_call req1 w))
      as [e He].
    exists e. rewrite <- He.
    unfold fetchWithAuth. cbv zeta. rewrite Hkey.
    unfold bind, fetch. fold req1. rewrite Hr1.
    apply Z.eqb_neq in H402. rewrite H402, Hok. reflexivity.
  - destruct (fetchWithAuth_calls url options w) as [extra [H Hextra]].
    unfold new_calls. rewrite H, skipn_length_app.
    destruct Hextra as [->|[_ [h ->]]]; simpl; lia.
Qed.

End Executor.

Lemma payment_retry_bound_witness :
  let E := Sample.paying in
  let url := "https://bluepages.fyi/check?address=0x1" in
  let w0 := initial in
  let w2 := snd (fetchWithAuth E url get_options w0) in
  let w4 := snd (fetchWithAuth E url get_options w2) in
  (List.length (new_calls w0 w2) = 2%nat /\
   fst (fetchWithAuth E url get_options w0) = Return (Obj [("exists", Bool true)])) /\
  (List.length (new_calls w2 w4) = 2%nat /\
   exists e, fst (fetchWithAuth E url get_options w2) = Throw e) /\
  (exists e, fetchWithAuth E url get_options w4 =
             (Throw e, log_call (request_for E url get_options []) w4)).
Proof.
  intros E url w0 w2 w4.
  pose proof (payment_retry_bound E eq_refl url get_options w0) as [Hpaid _].
  pose proof (payment_retry_bound E eq_refl url get_options w2) as [Hfail _].
  pose proof (payment_retry_bound E eq_refl url get_options w4) as [_ [Hplain _]].
  split; [|split].
  - edestruct Hpaid as [Hcalls [Hok _]];
      [by_evaluation | reflexivity | reflexivity | by_evaluation | by_evaluation |].
    specialize (Hok eq_refl). split.
    + subst w2. rewrite Hok. vm_compute. reflexivity.
    + rewrite Hok. reflexivity.
  - edestruct Hfail as [Hcalls [_ Hthrow]];
      [by_evaluation | reflexivity | reflexivity | by_evaluation | by_evaluation |].
    destruct (Hthrow eq_refl) as [e He]. split.
    + subst w4. rewrite He. vm_compute. reflexivity.
    + exists e. rewrite He. reflexivity.
  - edestruct Hplain as [_ Hthrow]; [by_evaluation | discriminate | reflexivity |].
    exact Hthrow.
Defined.

(** *** The authentication selector and the handler's guard *)

Section Selector.

Variable E : Env.

(** C3. When both the API key and the private key are set, the
    authentication mode is the API key, never x402, and no wallet is
    derived. *)
Theorem auth_priority :
  present (API_KEY E) = true ->
  present (PRIVATE_KEY E) = true ->
  AUTH_MODE E = api_key /\ AUTH_MODE E <> x402 /\ wallet E = None.
Proof.
  intros Hkey Hpk. unfold AUTH_MODE, wallet. rewrite Hkey, Hpk.
  repeat split; try discriminate.
  destruct (PRIVATE_KEY E); reflexivity.
Qed.

(** C6. With neither credential set, every tool call resolves to the
    configuration text, flagged as an error, and leaves the process state
    and the request log as they were: no network call is made. *)
Theorem no_credentials_fail_fast :
  AUTH_MODE E = none ->
  forall (name : string) (args : Val) (w : World),
    callTool E name args w = (not_configured, w) /\
    isError (fst (callTool E name args w)) = true /\
    new_calls w (snd (callTool E name args w)) = [].
Proof.
  intros Hmode name args w. unfold callTool. rewrite Hmode. simpl.
  repeat split. unfold new_calls. apply skipn_all.
Qed.

End Selector.

Lemma auth_priority_witness :
  let E := Sample.env (Some "bp_key") (Some Sample.private_key) Sample.always_ok in
  AUTH_MODE E = api_key /\ AUTH_MODE E <> x402 /\ wallet E = None.
Proof.
  apply auth_priority; reflexivity.
Defined.

Lemma no_credentials_fail_fast_witness :
  let E := Sample.env None None Sample.always_ok in
  let call := callTool E "check_address" (Obj [("address", Str "0x1")]) initial in
  call = (not_configured, initial) /\
  isError (fst call) = true /\
  new_calls initial (snd call) = [].
Proof.
  intros E call. apply (no_credentials_fail_fast E eq_refl).
Defined.

(** *** The payment challenge handler *)


Section Challenge.

Variable E : Env.


End Challenge.



(** *** Handles *)




Lemma bind_ret {A B} (a : A) (k : A -> M B) (w : World) :
  bind (ret a) k w = k a w.
Proof. reflexivity. Qed.

Lemma calls_bind_quiet {A B} (m : M A) (k : A -> M B) (w : World) :
  (forall a, quiet (k a)) -> calls (snd (bind m k w)) = calls (snd (m w)).
Proof.
  intros Hk. unfold bind. destruct (m w) as [[a|e] w']; simpl; [apply Hk|reflexivity].
Qed.

Section Handles.

Variable E : Env.

Lemma quiet_show (screen : Screen) : quiet (show E screen).
Proof.
  unfold show. quiet_steps.
Qed.

Lemma callTool_world (name : string) (args : Val) (w : World) :
  AUTH_MODE E <> none ->
  snd (callTool E name args w) = snd (dispatch E name args w).
Proof.
  intros Hmode. unfold callTool.
  destruct (AUTH_MODE E); try congruence;
    destruct (dispatch E name args w) as [[r|e] w']; reflexivity.
Qed.

Lemma fetchWithAuth_first_call (url : string) (options : Options) (w : World) :
  hd_error (new_calls w (snd (fetchWithAuth E url options w))) =
  Some (request_for E url options []).
Proof.
  destruct (fetchWithAuth_calls E url options w) as [extra [H _]].
  unfold new_calls. rewrite H, skipn_length_app. reflexivity.
Qed.




End Handles.


(** *** Buying credits *)

Section Purchase.

Variable E : Env.

Lemma wallet_mode (wl : Wallet) : wallet E = Some wl -> AUTH_MODE E = x402.
Proof.
  unfold wallet, AUTH_MODE.
  destruct (PRIVATE_KEY E) as [k|]; [|discriminate].
  destruct (present (Some k)); [|discriminate].
  destruct (present (API_KEY E)); [discriminate|reflexivity].
Qed.

Lemma callTool_dispatch (name : string) (args : Val) (w : World) :
  AUTH_MODE E <> none ->
  callTool E name args w =
  match dispatch E name args w with
  | (Return result, w') => (result, w')
  | (Throw error, w') => (error_result error, w')
  end.
Proof.
  intros Hmode. unfold callTool. destruct (AUTH_MODE E); congruence.
Qed.

(** What [purchase_credits] does up to its first response, for a package
    of the catalogue. *)
Lemma purchase_credits_start (wl : Wallet) (args : Val) (name : string) (w : World) :
  wallet E = Some wl ->
  get args "package" = inr (Str name) ->
  In name ["starter"; "pro"; "enterprise"] ->
  exists (notice : Notification) (credits : string),
    purchase_credits E args w =
    (response1 <- fetch E (purchase_request E (Str name) wl []) ;;
     if negb (status response1 =? 402)
     then throw_http_error response1 "Unexpected response: "
     else
       paymentRequest <- lift (json response1) ;;
       paymentHeader <- createPaymentHeader E paymentRequest ;;
       response2 <- fetch E (purchase_request E (Str name) wl
                               [("X-PAYMENT", paymentHeader)]) ;;
       if negb (ok response2)
       then throw_http_error response2 "Payment failed: "
       else
         result <- lift (json response2) ;;
         creditsAdded <- lift (get result "creditsAdded") ;;
         added <- (if is_nullish creditsAdded then ret ""
                   else lift (localized E "result.creditsAdded?" creditsAdded)) ;;
         sendNotification "info"
           ("✓ Purchased " ++ (if (added =? "")%string then credits else added) ++
            " credits!")
           (Obj [("credits", get_opt result "newCredits");
                 ("txHash", get_opt result "transactionHash")]) ;;;
         show E (PurchaseCredits result (member name packages) (address wl)))
      (log_notification notice w).
Proof.
  intros Hwallet Hget Hname. unfold purchase_credits. rewrite Hwallet, Hget.
  cbn [lift]. rewrite bind_ret.
  change (toString (Str name)) with (@inr Exn string name).
  cbn [lift]. rewrite bind_ret. cbv zeta.
  assert (Hpkg : truthy (member name packages) = true /\
                 exists credits price,
                   get_opt (member name packages) "credits" = Num credits /\
                   get_opt (member name packages) "priceUsd" = Num price).
  { simpl in Hname. destruct Hname as [<-|[<-|[<-|[]]]]; split; try reflexivity;
      eexists; eexists; split; reflexivity. }
  destruct Hpkg as [Htruthy [credits [price [Hcredits Hprice]]]].
  rewrite Htruthy, Hcredits, Hprice. cbn [negb localized lift].
  rewrite bind_ret.
  change (toString (Num price)) with (@inr Exn string (string_of (Num price))).
  cbn [lift]. rewrite bind_ret.
  eexists. eexists. reflexivity.
Qed.

(** C9. [purchase_credits] goes through the challenge or fails. For a
    package of the catalogue: when the first response to the purchase
    request has any status other than 402, success statuses included, the
    call resolves to an error after that single request, and nothing was
    signed, drawn from the random source or read from the clock, so no
    payment header was built; and whenever the call does not resolve to an
    error, the first response was a 402 and exactly two requests were
    made, the second one carrying the payment header. *)
Theorem purchase_only_after_challenge
    (wl : Wallet) (args : Val) (name : string) (w : World) :
  wallet E = Some wl ->
  get args "package" = inr (Str name) ->
  In name ["starter"; "pro"; "enterprise"] ->
  let req1 := purchase_request E (Str name) wl [] in
  (forall r1 : Response,
      fetch_reply E (List.length (calls w)) req1 = inr r1 ->
      status r1 <> 402 ->
      exists (e : Exn) (w' : World),
        callTool E "purchase_credits" args w = (error_result e, w') /\
        isError (error_result e) = true /\
        new_calls w w' = [req1] /\
        signed w' = signed w /\
        random_drawn w' = random_drawn w /\
        clock_reads w' = clock_reads w) /\
  (isError (fst (callTool E "purchase_credits" args w)) = false ->
   exists (r1 : Response) (h : string),
     fetch_reply E (List.length (calls w)) req1 = inr r1 /\
     status r1 = 402 /\
     new_calls w (snd (callTool E "purchase_credits" args w)) =
     [req1; purchase_request E (Str name) wl [("X-PAYMENT", h)]]).
Proof.
  intros Hwallet Hget Hname req1.
  assert (Hmode : AUTH_MODE E <> none)
    by (rewrite (wallet_mode wl Hwallet); discriminate).
  destruct (purchase_credits_start wl args name w Hwallet Hget Hname)
    as [notice [credits Hrun]].
  rewrite (callTool_dispatch "purchase_credits" args w Hmode).
  change (dispatch E "purchase_credits" args) with (purchase_credits E args).
  rewrite Hrun. clear Hrun. fold req1.
  set (wn := log_notification notice w).
  assert (Hlen : List.length (calls wn) = List.length (calls w)) by reflexivity.
  match goal with
  | |- context [bind (fetch E req1) ?k wn] => set (run := bind (fetch E req1) k wn)
  end.
  split.
  - intros r1 Hr1 H402.
    destruct (@throw_http_error_throws ToolResult r1 "Unexpected response: "
                (log_call req1 wn)) as [e He].
    assert (Hrun : run = (Throw e, log_call req1 wn)).
    { subst run. unfold bind at 1. unfold fetch at 1. rewrite Hlen, Hr1.
      apply Z.eqb_neq in H402. rewrite H402. exact He. }
    rewrite Hrun. exists e, (log_call req1 wn).
    repeat split. unfold new_calls. simpl. apply skipn_length_app.
  - assert (Hcases : forall o w',
      run = (o, w') ->
      (exists e, o = Throw e) \/
      (exists result r1 h,
          o = Return result /\
          fetch_reply E (List.length (calls w)) req1 = inr r1 /\
          status r1 = 402 /\
          calls w' = (calls w ++ [req1; purchase_request E (Str name) wl
                                          [("X-PAYMENT", h)]])%list)).
    { intros o w' Hrun. subst run.
      unfold bind at 1 in Hrun. unfold fetch at 1 in Hrun. rewrite Hlen in Hrun.
      destruct (fetch_reply E (List.length (calls w)) req1) as [e|r1];
        [inversion Hrun; eauto|].
      destruct (status r1 =? 402) eqn:H402; cbn [negb] in Hrun.
      2:{ destruct (@throw_http_error_throws ToolResult r1 "Unexpected response: "
                      (log_call req1 wn)) as [e He].
          rewrite He in Hrun. inversion Hrun; eauto. }
      unfold bind at 1 in Hrun.
      destruct (json r1) as [e|pr]; cbn [lift throw ret] in Hrun;
        [inversion Hrun; eauto|].
      unfold bind at 1 in Hrun.
      pose proof (quiet_createPaymentHeader E pr (log_call req1 wn)) as Hq.
      destruct (createPaymentHeader E pr (log_call req1 wn)) as [[h|e] w1];
        [|inversion Hrun; eauto].
      simpl in Hq.
      set (req2 := purchase_request E (Str name) wl [("X-PAYMENT", h)]) in *.
      unfold bind at 1 in Hrun. unfold fetch at 1 in Hrun.
      destruct (fetch_reply E (List.length (calls w1)) req2) as [e|r2];
        [inversion Hrun; eauto|].
      destruct (ok r2); cbn [negb] in Hrun.
      2:{ destruct (@throw_http_error_throws ToolResult r2 "Payment failed: "
                      (log_call req2 w1)) as [e He].
          rewrite He in Hrun. inversion Hrun; eauto. }
      match type of Hrun with
      | ?m (log_call req2 w1) = _ => assert (Hrest : quiet m)
      end.
      { quiet_steps; try apply quiet_sendNotification; apply quiet_show. }
      specialize (Hrest (log_call req2 w1)). rewrite Hrun in Hrest.
      destruct o as [result|e]; [right|left; eauto].
      exists result, r1, h. split; [reflexivity|]. split; [reflexivity|].
      split; [now apply Z.eqb_eq|].
      simpl in Hrest. rewrite Hrest, Hq. rewrite <- app_assoc. reflexivity. }
    destruct run as [o w'].
    destruct (Hcases o w' eq_refl)
      as [[e ->]|[result [r1 [h [-> [Hr1 [H402 Hcalls]]]]]]].
    + intros H; discriminate H.
    + intros _. exists r1, h. split; [assumption|]. split; [assumption|].
      unfold new_calls. simpl. rewrite Hcalls. apply skipn_length_app.
Qed.

End Purchase.

Lemma purchase_only_after_challenge_witness :
  let free := Sample.env None (Some Sample.private_key) Sample.always_ok in
  let args := Obj [("package", Str "starter")] in
  (exists (e : Exn) (w' : World),
      callTool free "purchase_credits" args initial = (error_result e, w') /\
      List.length (new_calls initial w') = 1%nat /\ signed w' = []) /\
  (exists (r1 : Response) (h : string),
      fetch_reply Sample.paying 0 (purchase_request Sample.paying (Str "starter")
                                     Sample.account []) = inr r1 /\
      status r1 = 402 /\
      List.length (new_calls initial
                     (snd (callTool Sample.paying "purchase_credits" args initial))) = 2%nat).
Proof.
  intros free args. split.
  - destruct (purchase_only_after_challenge free
                Sample.account args "starter" initial
                eq_refl eq_refl (or_introl eq_refl)) as [Hfail _].
    edestruct Hfail as [e [w' [Hrun [_ [Hcalls [Hsigned _]]]]]];
      [by_evaluation | discriminate |].
    exists e, w'. split; [exact Hrun|]. split; [rewrite Hcalls; reflexivity|exact Hsigned].
  - destruct (purchase_only_after_challenge Sample.paying
                Sample.account args "starter" initial
                eq_refl eq_refl (or_introl eq_refl)) as [_ Hpaid].
    destruct (Hpaid eq_refl) as [r1 [h [Hr1 [H402 Hcalls]]]].
    exists r1, h. split; [exact Hr1|]. split; [exact H402|].
    rewrite Hcalls. reflexivity.
Defined.

(** *** The batch streaming driver *)

Section Driver.

Variable E : Env.
Context {St : Type}.
Variable progressCallback : Val -> St -> M St.

Lemma batch_loop_step (items : Val) (type endpoint : string)
    (i : nat) (results : list Val) (s : St) :
  (i < length_of items)%nat ->
  batch_loop E progressCallback items type endpoint i results s =
  (r <- chunk_pass E progressCallback items type endpoint i results s ;;
   batch_loop E progressCallback items type endpoint (i + batchSize) (fst r) (snd r)).
Proof.
  intros Hi. rewrite batch_loop_equation_1.
  destruct (lt_dec i (length_of items)); [reflexivity|contradiction].
Qed.

Lemma batch_loop_done (items : Val) (type endpoint : string)
    (i : nat) (results : list Val) (s : St) :
  ~ (i < length_of items)%nat ->
  batch_loop E progressCallback items type endpoint i results s = ret (results, s).
Proof.
  intros Hi. rewrite batch_loop_equation_1.
  destruct (lt_dec i (length_of items)); [contradiction|reflexivity].
Qed.

(** A run that reached a pass continues as the loop entered there. *)
Lemma batch_loop_from_reached (items : Val) (type endpoint : string)
    (s0 : St) (w0 : World) (i : nat) (results : list Val) (s : St) (w : World) :
  reaches E progressCallback items type endpoint s0 w0 i results s w ->
  batch_loop E progressCallback items type endpoint 0 [] s0 w0 =
  batch_loop E progressCallback items type endpoint i results s w.
Proof.
  induction 1 as [|i results s w results' s' w' Hreach IH Hi Hpass]; [reflexivity|].
  rewrite IH, (batch_loop_step _ _ _ _ _ _ Hi). unfold bind. rewrite Hpass.
  reflexivity.
Qed.

End Driver.

Lemma send_run (n : Notification) (w : World) :
  send n w = (Return tt, log_notification n w).
Proof.
  destruct n. reflexivity.
Qed.

Section Abort.

Variable E : Env.

Lemma streaming_guard (l : list Val) :
  l <> [] ->
  negb (truthy (Arr l)) || is_zero (get_opt (Arr l) "length") = false.
Proof.
  destruct l as [|x l]; [congruence|]. intros _. reflexivity.
Qed.

(** C7. A failing request ends the batch there. In the driver: when a run
    of the loop has reached a pass, its progress callback has returned and
    the authenticated request for the chunk throws, the whole run throws
    that error in the state the request left, whatever results were
    accumulated. In the two streaming tools: the call then resolves to the
    error result made of that error's message alone, in that same state,
    so nothing more is requested or notified and no record of an earlier
    chunk is returned. *)
Theorem failed_chunk_aborts_batch :
  (forall (St : Type) (progressCallback : Val -> St -> M St)
          (items : Val) (type endpoint : string) (s0 : St) (w0 : World)
          (i : nat) (results : list Val) (s s1 : St) (w w1 w2 : World) (e : Exn),
      reaches E progressCallback items type endpoint s0 w0 i results s w ->
      (i < length_of items)%nat ->
      let batch := slice items i (Nat.min (i + batchSize) (length_of items)) in
      progressCallback (progress_event type i (length_of items) batch) s w =
        (Return s1, w1) ->
      postWithAuth E (API_URL E ++ endpoint) (batch_request_body type batch) w1 =
        (Throw e, w2) ->
      batch_loop E progressCallback items type endpoint 0 [] s0 w0 = (Throw e, w2)) /\
  (AUTH_MODE E <> none ->
   forall (args : Val) (l : list Val) (w : World)
          (i : nat) (results : list Val) (wi w2 : World) (e : Exn),
     get args "addresses" = inr (Arr l) ->
     l <> [] ->
     (i < List.length l)%nat ->
     let batch := slice (Arr l) i (Nat.min (i + batchSize) (List.length l)) in
     let progress := progress_event "address" i (List.length l) batch in
     (forall s : unit,
         reaches E notify_progress (Arr l) "address" "/batch/check" tt
                 (log_notification (starting "batch check of " (Arr l)) w)
                 i results s wi ->
         postWithAuth E (API_URL E ++ "/batch/check")
                      (batch_request_body "address" batch)
                      (snd (notify_progress progress s wi)) = (Throw e, w2) ->
         callTool E "batch_check_streaming" args w = (error_result e, w2)) /\
     (forall foundItems : list Val,
         reaches E collect_found (Arr l) "address" "/batch/data" []
                 (log_notification (starting "data retrieval for " (Arr l)) w)
                 i results foundItems wi ->
         postWithAuth E (API_URL E ++ "/batch/data")
                      (batch_request_body "address" batch)
                      (snd (collect_found progress foundItems wi)) = (Throw e, w2) ->
         callTool E "batch_get_data_streaming" args w = (error_result e, w2))).
Proof.
  assert (Hdriver :
    forall (St : Type) (progressCallback : Val -> St -> M St)
           (items : Val) (type endpoint : string) (s0 : St) (w0 : World)
           (i : nat) (results : list Val) (s s1 : St) (w w1 w2 : World) (e : Exn),
      reaches E progressCallback items type endpoint s0 w0 i results s w ->
      (i < length_of items)%nat ->
      progressCallback
        (progress_event type i (length_of items)
           (slice items i (Nat.min (i + batchSize) (length_of items)))) s w =
        (Return s1, w1) ->
      postWithAuth E (API_URL E ++ endpoint)
        (batch_request_body type
           (slice items i (Nat.min (i + batchSize) (length_of items)))) w1 =
        (Throw e, w2) ->
      batch_loop E progressCallback items type endpoint 0 [] s0 w0 = (Throw e, w2)).
  { intros St cb items type endpoint s0 w0 i results s s1 w w1 w2 e
           Hreach Hi Hcb Hpost.
    rewrite (batch_loop_from_reached E cb _ _ _ _ _ _ _ _ _ Hreach).
    rewrite (batch_loop_step E cb _ _ _ _ _ _ Hi).
    unfold bind at 1. unfold chunk_pass. cbv zeta.
    unfold bind at 1. rewrite Hcb.
    unfold bind at 1. rewrite Hpost. reflexivity. }
  split; [exact Hdriver|].
  intros Hmode args l w i results wi w2 e Hget Hl Hi batch progress.
  split.
  - intros s Hreach Hpost.
    rewrite (callTool_dispatch E _ _ _ Hmode).
    change (dispatch E "batch_check_streaming" args) with (batch_check_streaming E args).
    unfold batch_check_streaming. rewrite Hget. cbn [lift]. rewrite bind_ret.
    rewrite (streaming_guard l Hl).
    change (toString (get_opt (Arr l) "length"))
      with (@inr Exn string (string_of (get_opt (Arr l) "length"))).
    cbn [lift]. rewrite bind_ret.
    unfold bind at 1. rewrite send_run.
    unfold bind at 1. unfold processBatchWithStreaming.
    rewrite (Hdriver unit notify_progress (Arr l) "address" "/batch/check" tt _
               i results s tt wi (snd (notify_progress progress s wi)) w2 e
               Hreach Hi eq_refl Hpost).
    reflexivity.
  - intros foundItems Hreach Hpost.
    rewrite (callTool_dispatch E _ _ _ Hmode).
    change (dispatch E "batch_get_data_streaming" args)
      with (batch_get_data_streaming E args).
    unfold batch_get_data_streaming. rewrite Hget. cbn [lift]. rewrite bind_ret.
    rewrite (streaming_guard l Hl).
    change (toString (get_opt (Arr l) "length"))
      with (@inr Exn string (string_of (get_opt (Arr l) "length"))).
    cbn [lift]. rewrite bind_ret.
    unfold bind at 1. rewrite send_run.
    unfold bind at 1. unfold processBatchWithStreaming.
    rewrite (Hdriver (list Val) collect_found (Arr l) "address" "/batch/data" [] _
               i results foundItems
               _
               wi (snd (collect_found progress foundItems wi)) w2 e
               Hreach Hi eq_refl Hpost).
    reflexivity.
Qed.

End Abort.

Lemma failed_chunk_aborts_batch_witness :
  let E := Sample.throttled in
  let args := Obj [("addresses", Arr (Sample.addresses 120))] in
  exists (e : Exn) (w2 : World),
    callTool E "batch_check_streaming" args initial = (error_result e, w2) /\
    error_result e = {| content := "Error: rate limited"; isError := true |} /\
    List.length (calls w2) = 2%nat.
Proof.
  intros E args.
  assert (Hmode : AUTH_MODE E <> none) by discriminate.
  destruct (failed_chunk_aborts_batch E) as [_ Htool].
  epose proof (Htool Hmode args (Sample.addresses 120) initial 50%nat _ _ _ _
                 eq_refl) as H.
  edestruct H as [Hcheck _]; [discriminate | vm_compute; lia |].
  set (w0 := log_notification (starting "batch check of " (Arr (Sample.addresses 120)))
                              initial) in *.
  eassert (Hreach : reaches E notify_progress (Arr (Sample.addresses 120)) "address"
                      "/batch/check" tt w0 50 _ tt _).
  { refine (reaches_next E notify_progress _ _ _ tt w0 0 [] tt w0 _ tt _
              (reaches_start _ _ _ _ _ _ _) _ _);
      [vm_compute; lia | by_evaluation]. }
  eapply Hcheck in Hreach; [|by_evaluation].
  eexists. eexists. split; [exact Hreach|]. split; reflexivity.
Defined.

(** *** The partition *)

Section Partition.

Context {A : Type}.
Variable n : nat.
Hypothesis n_positive : (1 <= n)%nat.

Lemma chunks_fuel_enough (fuel fuel' : nat) (l : list A) :
  (List.length l <= fuel)%nat -> (List.length l <= fuel')%nat ->
  chunks_fuel fuel n l = chunks_fuel fuel' n l.
Proof.
  revert fuel' l. induction fuel as [|fuel IH]; intros fuel' l Hf Hf'.
  - destruct l; [|simpl in Hf; lia]. destruct fuel'; reflexivity.
  - destruct l as [|x l]; [destruct fuel'; reflexivity|].
    destruct fuel' as [|fuel']; [simpl in Hf'; lia|].
    cbn [chunks_fuel]. f_equal.
    assert (Hlen : (List.length (skipn n (x :: l)) <= List.length l)%nat).
    { rewrite length_skipn. cbn [List.length]. lia. }
    simpl in Hf, Hf'. apply IH; lia.
Qed.

Lemma chunks_nil : chunks n (@nil A) = [].
Proof. reflexivity. Qed.

Lemma chunks_cons (l : list A) :
  l <> [] -> chunks n l = firstn n l :: chunks n (skipn n l).
Proof.
  intros Hl. unfold chunks. destruct l as [|x l]; [congruence|].
  cbn [List.length chunks_fuel]. f_equal.
  apply chunks_fuel_enough; rewrite length_skipn; cbn [List.length]; lia.
Qed.

(** The chunks are contiguous and cover the list, in order. *)
Lemma chunks_concat (l : list A) : List.concat (chunks n l) = l.
Proof.
  remember (List.length l) as m eqn:Hm. revert l Hm.
  induction m as [m IH] using lt_wf_ind. intros l Hm.
  destruct l as [|x l]; [reflexivity|].
  rewrite chunks_cons by discriminate. cbn [List.concat].
  rewrite (IH (List.length (skipn n (x :: l)))); [apply firstn_skipn| |reflexivity].
  subst m. rewrite length_skipn. cbn [List.length]. lia.
Qed.

(** Every chunk has between one and [n] items. *)
Lemma chunks_sizes (l : list A) :
  Forall (fun c => 1 <= List.length c <= n)%nat (chunks n l).
Proof.
  remember (List.length l) as m eqn:Hm. revert l Hm.
  induction m as [m IH] using lt_wf_ind. intros l Hm.
  destruct l as [|x l]; [constructor|].
  rewrite chunks_cons by discriminate. constructor.
  - rewrite length_firstn. cbn [List.length]. lia.
  - apply (IH (List.length (skipn n (x :: l)))); [|reflexivity].
    subst m. rewrite length_skipn. cbn [List.length]. lia.
Qed.

(** Every chunk but the last has exactly [n] items. *)
Lemma chunks_full (l : list A) :
  Forall (fun c => List.length c = n) (removelast (chunks n l)).
Proof.
  remember (List.length l) as m eqn:Hm. revert l Hm.
  induction m as [m IH] using lt_wf_ind. intros l Hm.
  destruct l as [|x l]; [constructor|].
  rewrite chunks_cons by discriminate.
  destruct (skipn n (x :: l)) as [|y rest] eqn:Hrest.
  - rewrite chunks_nil. constructor.
  - assert (Hmore : chunks n (y :: rest) <> []).
    { rewrite chunks_cons by discriminate. discriminate. }
    cbn [removelast].
    destruct (chunks n (y :: rest)) as [|c cs] eqn:Hc; [congruence|].
    constructor.
    + rewrite length_firstn.
      assert (Hlen : List.length (skipn n (x :: l)) = S (List.length rest))
        by (rewrite Hrest; reflexivity).
      rewrite length_skipn in Hlen. lia.
    + rewrite <- Hc.
      apply (IH (List.length (y :: rest))); [|reflexivity].
      subst m. rewrite <- Hrest, length_skipn. cbn [List.length]. lia.
Qed.

End Partition.

(** *** Computations that leave part of the state alone *)

Lemma keeps_ret {A B} (f : World -> B) (a : A) : keeps f (ret a).
Proof. intros w. reflexivity. Qed.

Lemma keeps_throw {A B} (f : World -> B) (e : Exn) : keeps f (@throw A e).
Proof. intros w. reflexivity. Qed.

Lemma keeps_lift {A B} (f : World -> B) (r : Exn + A) : keeps f (lift r).
Proof. destruct r; intros w; reflexivity. Qed.

Lemma keeps_read {A B} (f : World -> B) (g : World -> A) : keeps f (read g).
Proof. intros w. reflexivity. Qed.

Lemma keeps_bind {A B C} (f : World -> C) (m : M A) (k : A -> M B) :
  keeps f m -> (forall a, keeps f (k a)) -> keeps f (bind m k).
Proof.
  intros Hm Hk w. unfold bind. specialize (Hm w).
  destruct (m w) as [[a|e] w']; simpl in *; [rewrite Hk|]; assumption.
Qed.

Lemma keeps_try_catch {A B} (f : World -> B) (m : M A) (h : Exn -> M A) :
  keeps f m -> (forall e, keeps f (h e)) -> keeps f (try_catch m h).
Proof.
  intros Hm Hh w. unfold try_catch. specialize (Hm w).
  destruct (m w) as [[a|e] w']; simpl in *; [|rewrite Hh]; assumption.
Qed.

Create HintDb keeps.
#[export] Hint Resolve keeps_ret keeps_throw keeps_lift keeps_read : keeps.

Ltac keeps_steps :=
  repeat (cbv zeta;
          first [ solve [auto with keeps]
                | apply keeps_bind; [|intro]
                | apply keeps_try_catch; [|intro]
                | match goal with
                  | |- keeps _ (match ?x with _ => _ end) => destruct x
                  | |- keeps _ (if ?x then _ else _) => destruct x
                  end ]).

Section Frame.

Context {B : Type}.
Variable f : World -> B.
Variable E : Env.

Hypothesis beside_calls : forall req w, f (log_call req w) = f w.
Hypothesis beside_outbox : forall n w, f (log_notification n w) = f w.
Hypothesis beside_signed : forall a w, f (log_signed a w) = f w.
Hypothesis beside_clock : forall w, f (tick_clock w) = f w.
Hypothesis beside_random : forall n w, f (draw n w) = f w.

Lemma keeps_fetch (req : Request) : keeps f (fetch E req).
Proof.
  intros w. unfold fetch.
  destruct (fetch_reply E (List.length (calls w)) req); apply beside_calls.
Qed.

Lemma keeps_sendNotification (lvl msg : string) (d : Val) :
  keeps f (sendNotification lvl msg d).
Proof. intros w. apply beside_outbox. Qed.

Lemma keeps_Date_now : keeps f (Date_now E).
Proof. intros w. apply beside_clock. Qed.

Lemma keeps_randomBytes (n : nat) : keeps f (randomBytes E n).
Proof. intros w. apply beside_random. Qed.

Lemma keeps_wallet_signTypedData (wl : Wallet) (domain types value : Val) :
  keeps f (wallet_signTypedData E wl domain types value).
Proof.
  intros w. unfold wallet_signTypedData.
  destruct (signTypedData E (key wl) domain types value); apply beside_signed.
Qed.

Lemma keeps_throw_http_error {A} (r : Response) (prefix : string) :
  keeps f (@throw_http_error A r prefix).
Proof.
  unfold throw_http_error. keeps_steps.
Qed.

Lemma keeps_show (screen : Screen) : keeps f (show E screen).
Proof.
  unfold show. keeps_steps.
Qed.

Lemma keeps_createPaymentHeader (paymentRequest : Val) :
  keeps f (createPaymentHeader E paymentRequest).
Proof.
  unfold createPaymentHeader.
  pose proof keeps_Date_now. pose proof keeps_randomBytes.
  pose proof keeps_wallet_signTypedData.
  keeps_steps.
Qed.

Section Loop.

Context {St : Type}.
Variable progressCallback : Val -> St -> M St.
Hypothesis callback_keeps : forall progress s, keeps f (progressCallback progress s).
Hypothesis request_keeps : forall url body, keeps f (postWithAuth E url body).

Lemma keeps_item_of (type : string) (isData : bool) (itemKey : string) (info : Val) :
  keeps f (item_of type isData itemKey info).
Proof.
  unfold item_of. keeps_steps.
Qed.

Lemma keeps_each_entry (type : string) (isData : bool)
    (remaining : list (string * Val)) (results : list Val) (s : St) :
  keeps f (each_entry progressCallback type isData remaining results s).
Proof.
  revert results s. induction remaining as [|[itemKey info] rest IH]; intros results s.
  - apply keeps_ret.
  - cbn [each_entry]. apply keeps_bind; [apply keeps_item_of|intros itemResult].
    cbv zeta. apply keeps_bind; [|intros s'; apply IH].
    destruct (truthy _); [|apply keeps_ret].
    apply keeps_bind; [apply keeps_lift|intros message; apply callback_keeps].
Qed.

Lemma keeps_chunk_pass (items : Val) (type endpoint : string)
    (i : nat) (results : list Val) (s : St) :
  keeps f (chunk_pass E progressCallback items type endpoint i results s).
Proof.
  unfold chunk_pass. cbv zeta.
  apply keeps_bind; [apply callback_keeps|intros s1].
  apply keeps_bind; [apply request_keeps|intros result].
  apply keeps_bind; [apply keeps_lift|intros keyed].
  destruct (truthy _); [apply keeps_each_entry|apply keeps_ret].
Qed.

Lemma keeps_batch_loop (items : Val) (type endpoint : string) (m : nat) :
  forall (i : nat) (results : list Val) (s : St),
    (length_of items - i <= m)%nat ->
    keeps f (batch_loop E progressCallback items type endpoint i results s).
Proof.
  induction m as [|m IH]; intros i results s Hm.
  - rewrite batch_loop_done by lia. apply keeps_ret.
  - destruct (le_lt_dec (length_of items) i) as [Hi|Hi].
    + rewrite batch_loop_done by lia. apply keeps_ret.
    + rewrite batch_loop_step by exact Hi.
      apply keeps_bind; [apply keeps_chunk_pass|intros r].
      apply IH. unfold batchSize. lia.
Qed.

Lemma keeps_processBatchWithStreaming (items : Val) (type endpoint : string) (s : St) :
  keeps f (processBatchWithStreaming E progressCallback items type endpoint s).
Proof.
  unfold processBatchWithStreaming.
  destruct items; try apply keeps_ret; try apply keeps_throw;
    try (apply (keeps_batch_loop _ _ _ _ _ _ _ (Nat.le_refl _))).
  apply keeps_bind; [apply keeps_lift|intros entered].
  destruct entered; [apply keeps_throw|apply keeps_ret].
Qed.

End Loop.

End Frame.

(** *** The requests of a batch run *)

Section Requests.

Variable E : Env.

Lemma plain_request (url : string) (options : Options) :
  plain (request_for E url options []) = true.
Proof.
  unfold plain, is_retry, request_for, buildHeaders. cbn [headers].
  rewrite app_nil_r, existsb_app.
  destruct (API_KEY E) as [k|]; [destruct (present (Some k))|];
    destruct (opt_contentType options) as [c|];
    try destruct (c =? "")%string; reflexivity.
Qed.

Lemma paid_request (url : string) (options : Options) (h : string) :
  plain (request_for E url options [("X-PAYMENT", h)]) = false.
Proof.
  unfold plain, is_retry, request_for. cbn [headers].
  rewrite existsb_app. cbn. rewrite orb_true_r. reflexivity.
Qed.

Lemma slice_chunk (l : list Val) (i : nat) :
  slice (Arr l) i (Nat.min (i + batchSize) (List.length l)) =
  Arr (firstn batchSize (skipn i l)).
Proof.
  cbn [slice]. f_equal.
  destruct (le_lt_dec (i + batchSize) (List.length l)) as [H|H].
  - rewrite Nat.min_l by assumption. f_equal. lia.
  - rewrite Nat.min_r by lia.
    rewrite !firstn_all2; [reflexivity| |]; rewrite length_skipn; lia.
Qed.

Context {St : Type}.
Variable progressCallback : Val -> St -> M St.
Hypothesis quiet_callback : forall progress s, quiet (progressCallback progress s).

Lemma quiet_item_of (type : string) (isData : bool) (itemKey : string) (info : Val) :
  quiet (item_of type isData itemKey info).
Proof.
  unfold item_of. quiet_steps.
Qed.

Lemma quiet_each_entry (type : string) (isData : bool)
    (remaining : list (string * Val)) (results : list Val) (s : St) :
  quiet (each_entry progressCallback type isData remaining results s).
Proof.
  revert results s. induction remaining as [|[itemKey info] rest IH]; intros results s.
  - apply quiet_ret.
  - cbn [each_entry]. apply quiet_bind; [apply quiet_item_of|intros itemResult].
    cbv zeta. apply quiet_bind; [|intros s'; apply IH].
    destruct (truthy _); [|apply quiet_ret].
    apply quiet_bind; [apply quiet_lift|intros message; apply quiet_callback].
Qed.

(** One pass sends the request of its chunk, possibly followed by the paid
    retry, unless the callback threw before. *)
Lemma chunk_pass_calls (l : list Val) (type endpoint : string)
    (i : nat) (results : list Val) (s : St) (w : World)
    (o : Outcome (list Val * St)) (w' : World) :
  chunk_pass E progressCallback (Arr l) type endpoint i results s w = (o, w') ->
  exists sent,
    calls w' = (calls w ++ sent)%list /\
    ((sent = [] /\ exists e, o = Throw e) \/
     (filter plain sent = [chunk_request E type endpoint (firstn batchSize (skipn i l))] /\
      (present (API_KEY E) = true -> Forall (fun r => plain r = true) sent))).
Proof.
  intros Hpass. unfold chunk_pass in Hpass. cbv zeta in Hpass.
  cbn [length_of] in Hpass. rewrite slice_chunk in Hpass.
  set (progress := progress_event _ _ _ _) in Hpass.
  unfold bind at 1 in Hpass.
  pose proof (quiet_callback progress s w) as Hq.
  destruct (progressCallback progress s w) as [[s1|e] w1]; simpl in Hq.
  2:{ inversion Hpass; subst. exists []. rewrite app_nil_r.
      split; [exact Hq|]. left. split; eauto. }
  unfold bind at 1 in Hpass. unfold postWithAuth in Hpass.
  set (url := API_URL E ++ endpoint) in Hpass.
  set (options := post_options E _) in Hpass.
  destruct (fetchWithAuth_calls E url options w1) as [extra [Hcalls Hextra]].
  exists (request_for E url options [] :: extra).
  assert (Hsent : filter plain (request_for E url options [] :: extra) =
                  [chunk_request E type endpoint (firstn batchSize (skipn i l))] /\
                  (present (API_KEY E) = true ->
                   Forall (fun r => plain r = true) (request_for E url options [] :: extra))).
  { cbn [filter]. rewrite plain_request.
    destruct Hextra as [->|[Hkey [h ->]]].
    - split; [reflexivity|]. intros _. constructor; [apply plain_request|constructor].
    - cbn [filter]. rewrite paid_request. split; [reflexivity|].
      intros Hkey'. congruence. }
  split; [|right; exact Hsent].
  rewrite <- Hq, <- Hcalls.
  destruct (fetchWithAuth E url options w1) as [[result|e] w2];
    [|inversion Hpass; reflexivity].
  cbn [snd].
  match type of Hpass with
  | ?m w2 = _ => assert (Hrest : quiet m)
  end.
  { quiet_steps; apply quiet_each_entry. }
  rewrite <- (Hrest w2), Hpass. reflexivity.
Qed.

(** The requests of the loop entered at index [i] follow the chunks of the
    items from [i] on: always a prefix of them, all of them when the loop
    returns. *)
Lemma batch_loop_calls (l : list Val) (type endpoint : string) (m : nat) :
  forall (i : nat) (results : list Val) (s : St) (w : World)
         (o : Outcome (list Val * St)) (w' : World),
    (List.length l - i <= m)%nat ->
    batch_loop E progressCallback (Arr l) type endpoint i results s w = (o, w') ->
    let expected := map (chunk_request E type endpoint) (chunks batchSize (skipn i l)) in
    exists sent,
      calls w' = (calls w ++ sent)%list /\
      (exists k, filter plain sent = firstn k expected) /\
      (forall r, o = Return r -> filter plain sent = expected) /\
      (present (API_KEY E) = true -> Forall (fun r => plain r = true) sent).
Proof.
  assert (Hdone : forall i results s w o w',
             (List.length l <= i)%nat ->
             batch_loop E progressCallback (Arr l) type endpoint i results s w = (o, w') ->
             exists sent,
               calls w' = (calls w ++ sent)%list /\
               (exists k, filter plain sent =
                          firstn k (map (chunk_request E type endpoint)
                                        (chunks batchSize (skipn i l)))) /\
               (forall r, o = Return r ->
                          filter plain sent =
                          map (chunk_request E type endpoint)
                              (chunks batchSize (skipn i l))) /\
               (present (API_KEY E) = true -> Forall (fun r => plain r = true) sent)).
  { intros i results s w o w' Hi Hrun.
    rewrite batch_loop_done in Hrun by (cbn [length_of]; lia).
    inversion Hrun; subst. rewrite skipn_all2 by lia.
    exists []. rewrite app_nil_r. cbn.
    split; [reflexivity|]. split; [exists 0%nat; reflexivity|].
    split; [reflexivity|]. intros _. constructor. }
  induction m as [|m IH]; intros i results s w o w' Hm Hrun; cbv zeta.
  - apply (Hdone i results s w o w'); [lia|exact Hrun].
  - destruct (le_lt_dec (List.length l) i) as [Hi|Hi];
      [apply (Hdone i results s w o w'); [lia|exact Hrun]|].
    rewrite batch_loop_step in Hrun by exact Hi.
    assert (Hrest : skipn i l <> []).
    { intros H. apply (f_equal (@List.length Val)) in H.
      rewrite length_skipn in H. simpl in H. lia. }
    assert (Hsize : (1 <= batchSize)%nat) by (unfold batchSize; lia).
    rewrite (chunks_cons batchSize Hsize _ Hrest).
    rewrite skipn_skipn, (Nat.add_comm batchSize i). cbn [map].
    unfold bind in Hrun.
    destruct (chunk_pass E progressCallback (Arr l) type endpoint i results s w)
      as [[r|e] w1] eqn:Hpass;
      destruct (chunk_pass_calls _ _ _ _ _ _ _ _ _ Hpass) as [sent1 [Hcalls1 Hsent1]].
    + destruct Hsent1 as [[_ [e He]]|[Hplain Hapi]]; [discriminate|].
      destruct (IH (i + batchSize)%nat (fst r) (snd r) w1 o w') as
          [sent2 [Hcalls2 [[k Hprefix] [Hall Hapi2]]]];
        [unfold batchSize; lia|exact Hrun|].
      exists (sent1 ++ sent2)%list.
      rewrite Hcalls2, Hcalls1, <- app_assoc.
      split; [reflexivity|].
      rewrite filter_app, Hplain. cbn [app].
      split; [exists (S k); cbn [firstn]; now rewrite Hprefix|].
      split; [intros r' Hr'; now rewrite (Hall r' Hr')|].
      intros Hkey. apply Forall_app. split; auto.
    + inversion Hrun; subst. exists sent1. split; [exact Hcalls1|].
      split; [|split; [discriminate|]].
      * destruct Hsent1 as [[-> _]|[Hplain _]];
          [exists 0%nat; reflexivity|exists 1%nat; rewrite Hplain; reflexivity].
      * destruct Hsent1 as [[-> _]|[_ Hapi]]; [intros _; constructor|exact Hapi].
Qed.

End Requests.

Lemma filter_all {A} (f : A -> bool) (l : list A) :
  Forall (fun x => f x = true) l -> filter f l = l.
Proof.
  induction 1 as [|x l Hx _ IH]; [reflexivity|].
  cbn [filter]. rewrite Hx, IH. reflexivity.
Qed.

Lemma chunks_of_120 {A} (l : list A) :
  List.length l = 120%nat ->
  chunks 50 l = [firstn 50 l; firstn 50 (skipn 50 l); skipn 100 l] /\
  map (@List.length A) (chunks 50 l) = [50; 50; 20]%nat.
Proof.
  intros Hl.
  assert (Hsize : (1 <= 50)%nat) by lia.
  assert (Hnonempty : forall k, (k < 120)%nat -> skipn k l <> []).
  { intros k Hk H. apply (f_equal (@List.length A)) in H.
    rewrite length_skipn, Hl in H. cbn [List.length] in H. lia. }
  assert (Hchunks : chunks 50 l = [firstn 50 l; firstn 50 (skipn 50 l); skipn 100 l]).
  { rewrite (chunks_cons 50 Hsize l) by (apply (Hnonempty 0%nat); lia).
    rewrite (chunks_cons 50 Hsize (skipn 50 l)) by (apply Hnonempty; lia).
    rewrite skipn_skipn.
    rewrite (chunks_cons 50 Hsize (skipn (50 + 50) l)) by (apply Hnonempty; lia).
    rewrite skipn_skipn.
    rewrite (skipn_all2 (n := 50 + (50 + 50))) by lia.
    rewrite chunks_nil.
    rewrite (firstn_all2 (n := 50) (skipn (50 + 50) l)) by (rewrite length_skipn; lia).
    reflexivity. }
  split; [exact Hchunks|].
  rewrite Hchunks. cbn [map].
  rewrite !length_firstn, !length_skipn, Hl. reflexivity.
Qed.

(** *** The progress events of a batch run *)

Lemma keeps_silent {A} (m : M A) : keeps outbox m -> silent m.
Proof.
  intros H w. exists []. rewrite app_nil_r. split; [apply H|reflexivity].
Qed.

Lemma silent_bind {A B} (m : M A) (k : A -> M B) :
  silent m -> (forall a, silent (k a)) -> silent (bind m k).
Proof.
  intros Hm Hk w. unfold bind. destruct (Hm w) as [sent1 [H1 F1]].
  destruct (m w) as [[a|e] w1]; cbn [snd] in *.
  - destruct (Hk a w1) as [sent2 [H2 F2]]. exists (sent1 ++ sent2)%list.
    rewrite H2, H1, app_assoc. split; [reflexivity|].
    rewrite filter_app, F1, F2. reflexivity.
  - exists sent1. split; assumption.
Qed.

Lemma silent_sendNotification (lvl msg : string) (d : Val) :
  is_string (get_opt d "type") "progress" = false ->
  silent (sendNotification lvl msg d).
Proof.
  intros Hd w. exists [{| level := lvl; text := msg; data := d |}].
  split; [reflexivity|]. cbn [filter]. unfold is_progress. cbn [data].
  rewrite Hd. reflexivity.
Qed.

Lemma silent_ret {A} (a : A) : silent (ret a).
Proof. apply keeps_silent, keeps_ret. Qed.

Lemma silent_throw {A} (e : Exn) : silent (@throw A e).
Proof. apply keeps_silent, keeps_throw. Qed.

Lemma silent_lift {A} (r : Exn + A) : silent (lift r).
Proof. apply keeps_silent, keeps_lift. Qed.

Lemma silent_read {A} (f : World -> A) : silent (read f).
Proof. apply keeps_silent, keeps_read. Qed.

Create HintDb silent.
#[export] Hint Resolve silent_ret silent_throw silent_lift silent_read : silent.

Ltac silent_steps :=
  repeat (cbv zeta;
          first [ solve [auto with silent]
                | apply silent_bind; [|intro]
                | match goal with
                  | |- silent (match ?x with _ => _ end) => destruct x
                  | |- silent (if ?x then _ else _) => destruct x
                  end ]).

Section Progress.

Variable E : Env.

Lemma silent_checkCreditsAndNotify (credits : Val) :
  silent (checkCreditsAndNotify E credits).
Proof.
  unfold checkCreditsAndNotify, send.
  assert (Hset : forall v, silent (set_lastKnownCredits v))
    by (intros v; apply keeps_silent; intros w; reflexivity).
  assert (Hcritical : silent (sendNotification (level (critical_alert credits))
                                (text (critical_alert credits))
                                (data (critical_alert credits))))
    by (apply silent_sendNotification; reflexivity).
  assert (Hlow : silent (sendNotification (level (low_alert credits))
                           (text (low_alert credits)) (data (low_alert credits))))
    by (apply silent_sendNotification; reflexivity).
  silent_steps.
Qed.

Lemma silent_fetchWithAuth (url : string) (options : Options) :
  silent (fetchWithAuth E url options).
Proof.
  unfold fetchWithAuth.
  pose proof (fun req => keeps_silent _ (keeps_fetch outbox E (fun _ _ => eq_refl) req)).
  pose proof (fun A r prefix =>
                keeps_silent _ (@keeps_throw_http_error _ outbox A r prefix)).
  pose proof (fun pr => keeps_silent _
                (keeps_createPaymentHeader outbox E (fun _ _ => eq_refl)
                   (fun _ => eq_refl) (fun _ _ => eq_refl) pr)).
  pose proof silent_checkCreditsAndNotify.
  silent_steps.
Qed.

Lemma silent_each_entry (type : string) (isData : bool)
    (remaining : list (string * Val)) (results : list Val) :
  silent (each_entry notify_progress type isData remaining results tt).
Proof.
  revert results. induction remaining as [|[itemKey info] rest IH]; intros results.
  - apply silent_ret.
  - cbn [each_entry]. apply silent_bind.
    { apply keeps_silent. apply (keeps_item_of outbox). }
    intros itemResult. cbv zeta. apply silent_bind.
    + destruct (truthy _); [|apply silent_ret].
      apply silent_bind; [apply silent_lift|intros message].
      apply silent_sendNotification. reflexivity.
    + intros []. apply IH.
Qed.

(** One pass sends the progress event of its chunk and no other. *)
Lemma chunk_pass_progress (l : list Val) (type endpoint : string)
    (i : nat) (results : list Val) (w : World)
    (o : Outcome (list Val * unit)) (w' : World) :
  (i < List.length l)%nat ->
  chunk_pass E notify_progress (Arr l) type endpoint i results tt w = (o, w') ->
  exists sent,
    outbox w' = (outbox w ++ sent)%list /\
    map percentage (filter is_progress sent) =
      [percentage_of (Nat.min (i + 50) (List.length l)) (List.length l)].
Proof.
  intros Hi Hpass. unfold chunk_pass in Hpass. cbv zeta in Hpass.
  cbn [length_of] in Hpass. rewrite slice_chunk in Hpass.
  unfold bind at 1 in Hpass. unfold notify_progress at 1 in Hpass.
  unfold sendNotification at 1 in Hpass.
  match type of Hpass with
  | ?m (log_notification ?n w) = _ =>
      assert (Hrest : silent m); [|set (note := n) in *]
  end.
  { pose proof (fun body => silent_fetchWithAuth (API_URL E ++ endpoint)
                              (post_options E body)) as Hpost.
    apply silent_bind; [apply Hpost|intros result].
    apply silent_bind; [apply silent_lift|intros keyed].
    destruct (truthy _); [apply silent_each_entry|apply silent_ret]. }
  destruct (Hrest (log_notification note w)) as [extra [Hout Hnone]].
  rewrite Hpass in Hout. cbn [snd outbox log_notification] in Hout.
  exists (note :: extra). rewrite Hout, <- app_assoc. split; [reflexivity|].
  cbn [filter].
  assert (Hnote : is_progress note = true) by reflexivity.
  rewrite Hnote, Hnone. cbn [map]. f_equal.
  subst note. unfold percentage, progress_event. cbn [data get_opt get lookup].
  cbn [String.eqb Ascii.eqb Bool.eqb length_of].
  f_equal. rewrite length_firstn, length_skipn. unfold batchSize. lia.
Qed.

(** The progress events of the loop entered at index [i]: those of the
    passes from [i] on, always a prefix of them, all of them when the loop
    returns. *)
Lemma batch_loop_progress (l : list Val) (type endpoint : string) (m : nat) :
  forall (i : nat) (results : list Val) (w : World)
         (o : Outcome (list Val * unit)) (w' : World),
    (List.length l - i <= m)%nat ->
    batch_loop E notify_progress (Arr l) type endpoint i results tt w = (o, w') ->
    exists sent,
      outbox w' = (outbox w ++ sent)%list /\
      (exists k, map percentage (filter is_progress sent) =
                 firstn k (percentages_from m i (List.length l))) /\
      (forall r, o = Return r ->
                 map percentage (filter is_progress sent) =
                 percentages_from m i (List.length l)).
Proof.
  induction m as [|m IH]; intros i results w o w' Hm Hrun.
  - rewrite batch_loop_done in Hrun by (cbn [length_of]; lia).
    inversion Hrun; subst. exists []. rewrite app_nil_r.
    split; [reflexivity|]. split; [exists 0%nat; reflexivity|reflexivity].
  - cbn [percentages_from].
    destruct (Nat.ltb_spec i (List.length l)) as [Hi|Hi].
    2:{ rewrite batch_loop_done in Hrun by (cbn [length_of]; lia).
        inversion Hrun; subst. exists []. rewrite app_nil_r.
        split; [reflexivity|]. split; [exists 0%nat; reflexivity|reflexivity]. }
    rewrite batch_loop_step in Hrun by exact Hi.
    unfold bind in Hrun.
    destruct (chunk_pass E notify_progress (Arr l) type endpoint i results tt w)
      as [[[results1 []]|e] w1] eqn:Hpass;
      destruct (chunk_pass_progress _ _ _ _ _ _ _ _ Hi Hpass) as [sent1 [Hout1 Hone]].
    + cbn [fst snd] in Hrun.
      destruct (IH (i + batchSize)%nat results1 w1 o w') as [sent2 [Hout2 [[k Hprefix] Hall]]];
        [unfold batchSize; lia|exact Hrun|].
      exists (sent1 ++ sent2)%list. rewrite Hout2, Hout1, <- app_assoc.
      split; [reflexivity|].
      rewrite filter_app, map_app, Hone. cbn [app].
      split; [exists (S k); cbn [firstn]; now rewrite Hprefix|].
      intros r Hr. now rewrite (Hall r Hr).
    + inversion Hrun; subst. exists sent1. split; [exact Hout1|].
      split; [|discriminate]. exists 1%nat. rewrite Hone. reflexivity.
Qed.

End Progress.

Section Chunking.

Variable E : Env.

Lemma chunk_request_described (type endpoint : string) (chunk : list Val) :
  described (chunk_request E type endpoint chunk) =
  (API_URL E ++ endpoint, "POST",
   Some (JSON_stringify E
           (Obj [(if (type =? "address")%string then "addresses" else "twitters",
                  Arr chunk)]))).
Proof.
  unfold described, chunk_request, request_for, post_options, batch_request_body.
  cbn [url method body opt_method opt_body present String.eqb Ascii.eqb Bool.eqb negb].
  destruct (type =? "address")%string; reflexivity.
Qed.

(** C5. The batch driver sends one request per chunk of 50 items, in
    order. For every list of items and every callback that sends no
    request itself: the requests of a run other than paid retries are, for
    the first so many chunks of the list and for all of them when the run
    returns, a POST to the endpoint whose body is the JSON text of the
    object holding that chunk under [addresses] (or [twitters]); in
    API-key mode these are all the requests of the run. The chunks are
    contiguous and cover the list, each has between 1 and 50 items and
    each but the last exactly 50; a list of 120 items gives the chunks of
    its first 50, next 50 and last 20 items, so that a run over it that
    returns has sent exactly three such requests, carrying these 50, 50
    and 20 items. Over a list of 120 items the chunk-level progress events
    carry the percentages 42, 83 and 100, in this order: the first so many
    of them, and all three when the run returns. *)
Theorem batch_requests_follow_chunks :
  (forall (St : Type) (progressCallback : Val -> St -> M St),
      (forall progress s, quiet (progressCallback progress s)) ->
      forall (l : list Val) (type endpoint : string) (s : St) (w : World),
        let run := processBatchWithStreaming E progressCallback (Arr l) type endpoint s w in
        let sent := filter plain (new_calls w (snd run)) in
        let key := if (type =? "address")%string then "addresses" else "twitters" in
        let expected :=
          map (fun chunk =>
                 (API_URL E ++ endpoint, "POST",
                  Some (JSON_stringify E (Obj [(key, Arr chunk)]))))
              (chunks 50 l) in
        (exists k, map described sent = firstn k expected) /\
        (forall r, fst run = Return r -> map described sent = expected) /\
        (present (API_KEY E) = true -> new_calls w (snd run) = sent)) /\
  (forall l : list Val,
      List.concat (chunks 50 l) = l /\
      Forall (fun c => 1 <= List.length c <= 50)%nat (chunks 50 l) /\
      Forall (fun c => List.length c = 50%nat) (removelast (chunks 50 l)) /\
      (List.length l = 120%nat ->
       chunks 50 l = [firstn 50 l; firstn 50 (skipn 50 l); skipn 100 l] /\
       map (@List.length Val) (chunks 50 l) = [50; 50; 20]%nat)) /\
  (forall (St : Type) (progressCallback : Val -> St -> M St),
      (forall progress s, quiet (progressCallback progress s)) ->
      forall (l : list Val) (type endpoint : string) (s : St) (w : World)
             (r : list Val * St),
        List.length l = 120%nat ->
        let run := processBatchWithStreaming E progressCallback (Arr l) type endpoint s w in
        let key := if (type =? "address")%string then "addresses" else "twitters" in
        let posted items :=
          (API_URL E ++ endpoint, "POST",
           Some (JSON_stringify E (Obj [(key, Arr items)]))) in
        fst run = Return r ->
        map described (filter plain (new_calls w (snd run))) =
          [posted (firstn 50 l); posted (firstn 50 (skipn 50 l)); posted (skipn 100 l)] /\
        map (@List.length Val) [firstn 50 l; firstn 50 (skipn 50 l); skipn 100 l] =
          [50; 50; 20]%nat) /\
  (forall (l : list Val) (type endpoint : string) (w : World),
      List.length l = 120%nat ->
      let run := processBatchWithStreaming E notify_progress (Arr l)
                   type endpoint tt w in
      let percentages :=
        map percentage (filter is_progress (new_notifications w (snd run))) in
      (exists k, percentages = firstn k [Num 42; Num 83; Num 100]) /\
      (forall r, fst run = Return r -> percentages = [Num 42; Num 83; Num 100])).
Proof.
  assert (Hsize : (1 <= 50)%nat) by lia.
  assert (Hdriver :
            forall (St : Type) (progressCallback : Val -> St -> M St),
              (forall progress s, quiet (progressCallback progress s)) ->
              forall (l : list Val) (type endpoint : string) (s : St) (w : World),
                let run := processBatchWithStreaming E progressCallback (Arr l)
                             type endpoint s w in
                let sent := filter plain (new_calls w (snd run)) in
                let key := if (type =? "address")%string then "addresses" else "twitters" in
                let expected :=
                  map (fun chunk =>
                         (API_URL E ++ endpoint, "POST",
                          Some (JSON_stringify E (Obj [(key, Arr chunk)]))))
                      (chunks 50 l) in
                (exists k, map described sent = firstn k expected) /\
                (forall r, fst run = Return r -> map described sent = expected) /\
                (present (API_KEY E) = true -> new_calls w (snd run) = sent)).
  2: split; [exact Hdriver|split; [|split]].
  - intros St cb Hquiet l type endpoint s w run sent key expected.
    subst sent expected key. unfold processBatchWithStreaming in run.
    destruct run as [o w'] eqn:Hrun. subst run.
    destruct (batch_loop_calls E cb Hquiet l type endpoint (List.length l)
                0 [] s w o w') as [sent [Hcalls [[k Hprefix] [Hall Hapi]]]];
      [lia|exact Hrun|].
    cbn [skipn] in Hprefix, Hall. cbn [fst snd].
    unfold new_calls. rewrite Hcalls, skipn_length_app.
    assert (Hexpected :
              map described (map (chunk_request E type endpoint) (chunks batchSize l)) =
              map (fun chunk =>
                     (API_URL E ++ endpoint, "POST",
                      Some (JSON_stringify E
                              (Obj [(if (type =? "address")%string
                                     then "addresses" else "twitters", Arr chunk)]))))
                  (chunks 50 l)).
    { rewrite map_map. apply map_ext. intros chunk. apply chunk_request_described. }
    split; [|split].
    + exists k. rewrite Hprefix, <- Hexpected. symmetry. apply firstn_map.
    + intros r Hr. rewrite (Hall r Hr). exact Hexpected.
    + intros Hkey. symmetry. apply filter_all. auto.
  - intros l.
    split; [apply chunks_concat; exact Hsize|].
    split; [apply (chunks_sizes 50 Hsize)|].
    split; [apply (chunks_full 50 Hsize)|].
    apply chunks_of_120.
  - intros St cb Hquiet l type endpoint s w r Hl run key posted Hr.
    destruct (Hdriver St cb Hquiet l type endpoint s w) as [_ [Hall _]].
    destruct (chunks_of_120 l Hl) as [Hchunks Hsizes].
    split.
    + subst run. rewrite (Hall r Hr), Hchunks. reflexivity.
    + rewrite <- Hchunks. exact Hsizes.
  - intros l type endpoint w Hl run percentages. subst percentages.
    unfold processBatchWithStreaming in run.
    destruct run as [o w'] eqn:Hrun. subst run.
    destruct (batch_loop_progress E l type endpoint (List.length l) 0 [] w o w')
      as [sent [Hout [Hprefix Hall]]]; [lia|exact Hrun|].
    cbn [fst snd]. unfold new_notifications. rewrite Hout, skipn_length_app.
    rewrite Hl in Hprefix, Hall.
    assert (Hexpected : percentages_from 120 0 120 = [Num 42; Num 83; Num 100])
      by (vm_compute; reflexivity).
    rewrite Hexpected in Hprefix, Hall. split; assumption.
Qed.

End Chunking.

Lemma batch_requests_follow_chunks_witness :
  let E := Sample.open_handed in
  let items := Sample.addresses 120 in
  let run := processBatchWithStreaming E notify_progress (Arr items)
               "address" "/batch/check" tt initial in
  map described (new_calls initial (snd run)) =
    map (fun chunk =>
           ("https://bluepages.fyi/batch/check", "POST",
            Some (JSON_stringify E (Obj [("addresses", Arr chunk)]))))
        [firstn 50 items; firstn 50 (skipn 50 items); skipn 100 items] /\
  map percentage (filter is_progress (new_notifications initial (snd run))) =
    [Num 42; Num 83; Num 100].
Proof.
  intros E items run.
  destruct (batch_requests_follow_chunks E) as [Hdriver [_ [Hthree Hprogress]]].
  assert (Hquiet : forall progress (s : unit), quiet (notify_progress progress s))
    by (intros progress s w; reflexivity).
  assert (Hreturns : exists r, fst run = Return r) by (eexists; by_evaluation).
  destruct Hreturns as [r Hr].
  assert (Hlength : List.length items = 120%nat) by reflexivity.
  split.
  - destruct (Hdriver unit notify_progress Hquiet items
                "address" "/batch/check" tt initial) as [_ [_ Hplain]].
    fold run in Hplain. rewrite (Hplain eq_refl).
    exact (proj1 (Hthree unit notify_progress Hquiet items "address" "/batch/check"
                    tt initial r Hlength Hr)).
  - exact (proj2 (Hprogress items "address" "/batch/check" initial Hlength) r Hr).
Defined.

(** ** Further properties of the handlers *)

(** *** Refusals of the tool-call handler *)

Lemma nothing_given_skipped (E : Env) (v : Val) :
  nothing_given v -> given E v = inr false.
Proof.
  intros [-> | [-> | ->]]; reflexivity.
Qed.

Lemma nothing_given_refused (v : Val) :
  nothing_given v -> negb (truthy v) || is_zero (get_opt v "length") = true.
Proof.
  intros [-> | [-> | ->]]; reflexivity.
Qed.

Section Refusals.

Variable E : Env.
Hypothesis configured : AUTH_MODE E <> none.

(** X1. Under a credential, a tool name that is none of the eleven of the
    switch resolves to the error "Unknown tool: <name>" and changes
    nothing: no request, no notification. *)
Theorem unknown_tool_refused (name : string) (args : Val) (w : World) :
  ~ In name known_tools ->
  callTool E name args w = (error_result (Error ("Unknown tool: " ++ name)), w).
Proof.
  intros Hname. rewrite (callTool_dispatch E _ _ _ configured).
  unfold dispatch.
  repeat match goal with
         | |- context [(name =? ?s)%string] =>
             destruct (String.eqb_spec name s) as [Heq | _];
             [subst name; exfalso; apply Hname; unfold known_tools; simpl; tauto|]
         end.
  reflexivity.
Qed.

(** X2. The credit tools need the API key and the purchase tool needs the
    wallet: called without it, each resolves to its own error and changes
    nothing, the alert threshold included. *)
Theorem gated_tools_refused (args : Val) (w : World) :
  (present (API_KEY E) = false ->
   callTool E "check_credits" args w =
     (error_result (Error "check_credits only available with API key authentication"), w) /\
   callTool E "set_credit_alert" args w =
     (error_result (Error "set_credit_alert only available with API key authentication"), w)) /\
  (wallet E = None ->
   callTool E "purchase_credits" args w =
     (error_result (Error "purchase_credits requires PRIVATE_KEY for x402 payments"), w)).
Proof.
  split.
  - intros Hkey. split; rewrite (callTool_dispatch E _ _ _ configured).
    + change (dispatch E "check_credits" args) with (check_credits E args).
      unfold check_credits. rewrite Hkey. reflexivity.
    + change (dispatch E "set_credit_alert" args) with (set_credit_alert E args).
      unfold set_credit_alert. rewrite Hkey. reflexivity.
  - intros Hwallet. rewrite (callTool_dispatch E _ _ _ configured).
    change (dispatch E "purchase_credits" args) with (purchase_credits E args).
    unfold purchase_credits. rewrite Hwallet. reflexivity.
Qed.

(** X4. A batch tool given nothing to look up fails before any request:
    [batch_check] and [batch_get_data] when both lists are missing, [null]
    or empty, the streaming tools when the address list is; the state is
    unchanged, no notification is sent. *)
Theorem empty_batch_refused (args addresses twitters : Val) (w : World) :
  get args "addresses" = inr addresses ->
  nothing_given addresses ->
  (get args "twitters" = inr twitters ->
   nothing_given twitters ->
   callTool E "batch_check" args w =
     (error_result (Error "At least one address or twitter handle required"), w) /\
   callTool E "batch_get_data" args w =
     (error_result (Error "At least one address or twitter handle required"), w)) /\
  callTool E "batch_check_streaming" args w =
    (error_result (Error "At least one address required"), w) /\
  callTool E "batch_get_data_streaming" args w =
    (error_result (Error "At least one address required"), w).
Proof.
  intros Haddresses Hnone.
  split; [|split].
  - intros Htwitters Hnone'.
    assert (Hbody : batch_body E args w =
                    (Throw (Error "At least one address or twitter handle required"), w)).
    { unfold batch_body. rewrite Haddresses. cbn [lift]. rewrite bind_ret.
      rewrite (nothing_given_skipped E _ Hnone). cbn [lift]. rewrite bind_ret.
      cbv zeta. rewrite Htwitters. cbn [lift]. rewrite bind_ret.
      rewrite (nothing_given_skipped E _ Hnone'). reflexivity. }
    split; rewrite (callTool_dispatch E _ _ _ configured).
    + change (dispatch E "batch_check" args) with (batch_check E args).
      unfold batch_check, bind. rewrite Hbody. reflexivity.
    + change (dispatch E "batch_get_data" args) with (batch_get_data E args).
      unfold batch_get_data, bind. rewrite Hbody. reflexivity.
  - rewrite (callTool_dispatch E _ _ _ configured).
    change (dispatch E "batch_check_streaming" args) with (batch_check_streaming E args).
    unfold batch_check_streaming. rewrite Haddresses. cbn [lift]. rewrite bind_ret.
    rewrite (nothing_given_refused _ Hnone). reflexivity.
  - rewrite (callTool_dispatch E _ _ _ configured).
    change (dispatch E "batch_get_data_streaming" args)
      with (batch_get_data_streaming E args).
    unfold batch_get_data_streaming. rewrite Haddresses. cbn [lift]. rewrite bind_ret.
    rewrite (nothing_given_refused _ Hnone). reflexivity.
Qed.

(** X5. [check_twitter] and [get_data_for_twitter] fail before any request
    when the handle is not a string (missing included): the call resolves
    to an error and the state is unchanged. *)
Theorem handle_must_be_string (args t : Val) (w : World) :
  get args "twitter" = inr t ->
  (forall s, t <> Str s) ->
  exists e : Exn,
    callTool E "check_twitter" args w = (error_result e, w) /\
    callTool E "get_data_for_twitter" args w = (error_result e, w).
Proof.
  intros Hget Ht.
  assert (Hbad : exists e, atHandle "args.twitter" t = inl e).
  { destruct t; simpl; eauto. exfalso. now apply (Ht s). }
  destruct Hbad as [e He]. exists e.
  split; rewrite (callTool_dispatch E _ _ _ configured).
  - change (dispatch E "check_twitter" args) with (check_twitter E args).
    unfold check_twitter. rewrite Hget. cbn [lift]. rewrite bind_ret.
    rewrite He. reflexivity.
  - change (dispatch E "get_data_for_twitter" args) with (get_data_for_twitter E args).
    unfold get_data_for_twitter. rewrite Hget. cbn [lift]. rewrite bind_ret.
    rewrite He. reflexivity.
Qed.

(** X6. [check_address] and [get_data_for_address] do not check their
    argument. Whatever [args.address] is, a missing one included: when it
    converts to a string, the first request is a GET, with no body, to
    [/check?address=] (or [/data?address=]) followed by that text, URI
    encoded ("undefined" when the address is missing); when the conversion
    throws, the call resolves to that error, and no request is made and
    nothing else changes. *)
Theorem address_not_validated (args a : Val) (w : World) :
  get args "address" = inr a ->
  (forall address, toString a = inr address ->
     (exists request,
        hd_error (new_calls w (snd (callTool E "check_address" args w))) = Some request /\
        described request =
          (API_URL E ++ "/check?address=" ++ encodeURIComponent E address, "GET", None)) /\
     (exists request,
        hd_error (new_calls w (snd (callTool E "get_data_for_address" args w))) =
          Some request /\
        described request =
          (API_URL E ++ "/data?address=" ++ encodeURIComponent E address, "GET", None))) /\
  (forall e, toString a = inl e ->
     callTool E "check_address" args w = (error_result e, w) /\
     callTool E "get_data_for_address" args w = (error_result e, w)).
Proof.
  intros Hget. split.
  - intros address Haddress.
    split; rewrite (callTool_world E _ _ _ configured).
    + change (dispatch E "check_address") with (check_address E).
      unfold check_address. rewrite Hget. cbn [lift]. rewrite bind_ret.
      rewrite Haddress. cbn [lift]. rewrite bind_ret.
      unfold new_calls. rewrite calls_bind_quiet by (intro; apply quiet_show).
      eexists. split; [apply fetchWithAuth_first_call|reflexivity].
    + change (dispatch E "get_data_for_address") with (get_data_for_address E).
      unfold get_data_for_address. rewrite Hget. cbn [lift]. rewrite bind_ret.
      rewrite Haddress. cbn [lift]. rewrite bind_ret.
      unfold new_calls. rewrite calls_bind_quiet by (intro; apply quiet_show).
      eexists. split; [apply fetchWithAuth_first_call|reflexivity].
  - intros e He. split; rewrite (callTool_dispatch E _ _ _ configured).
    + change (dispatch E "check_address" args) with (check_address E args).
      unfold check_address. rewrite Hget. cbn [lift]. rewrite bind_ret.
      rewrite He. reflexivity.
    + change (dispatch E "get_data_for_address" args) with (get_data_for_address E args).
      unfold get_data_for_address. rewrite Hget. cbn [lift]. rewrite bind_ret.
      rewrite He. reflexivity.
Qed.

End Refusals.

(** *** What each authentication mode leaves alone *)

Lemma api_key_no_wallet (E : Env) : present (API_KEY E) = true -> wallet E = None.
Proof.
  unfold wallet. intros ->. destruct (PRIVATE_KEY E) as [k|]; [|reflexivity].
  rewrite andb_false_r. reflexivity.
Qed.

Lemma callTool_keeps {B} (f : World -> B) (E : Env) :
  (forall name args, keeps f (dispatch E name args)) ->
  forall name args w, f (snd (callTool E name args w)) = f w.
Proof.
  intros H name args w. unfold callTool.
  destruct (AUTH_MODE E); try reflexivity;
    specialize (H name args w);
    destruct (dispatch E name args w) as [[r|e] w']; exact H.
Qed.

Section WithoutApiKey.

Variable E : Env.
Hypothesis no_key : present (API_KEY E) = false.

Lemma tracker_fetchWithAuth (url : string) (options : Options) :
  keeps tracker (fetchWithAuth E url options).
Proof.
  unfold fetchWithAuth. rewrite no_key. cbv zeta.
  pose proof (keeps_fetch tracker E (fun _ _ => eq_refl)).
  pose proof (fun A => @keeps_throw_http_error _ tracker A).
  pose proof (keeps_createPaymentHeader tracker E (fun _ _ => eq_refl)
                (fun _ => eq_refl) (fun _ _ => eq_refl)).
  keeps_steps.
Qed.

Lemma tracker_dispatch (name : string) (args : Val) :
  keeps tracker (dispatch E name args).
Proof.
  pose proof tracker_fetchWithAuth as Hfetch.
  pose proof (fun url => Hfetch url get_options) as Hget.
  pose proof (fun url body => Hfetch url (post_options E body)) as Hpost.
  pose proof (keeps_show tracker E) as Hshow.
  pose proof (keeps_sendNotification tracker (fun _ _ => eq_refl)) as Hsend.
  pose proof (keeps_fetch tracker E (fun _ _ => eq_refl)) as Hraw.
  pose proof (fun A => @keeps_throw_http_error _ tracker A) as Hhttp.
  pose proof (keeps_createPaymentHeader tracker E (fun _ _ => eq_refl)
                (fun _ => eq_refl) (fun _ _ => eq_refl)) as Hheader.
  assert (Hnotify : forall progress (s : unit), keeps tracker (notify_progress progress s))
    by (intros; apply Hsend).
  assert (Hcollect : forall progress (s : list Val), keeps tracker (collect_found progress s))
    by (intros; unfold collect_found; keeps_steps).
  pose proof (fun items type endpoint s =>
                keeps_processBatchWithStreaming tracker E notify_progress
                  Hnotify Hpost items type endpoint s) as Hcheck.
  pose proof (fun items type endpoint s =>
                keeps_processBatchWithStreaming tracker E collect_found
                  Hcollect Hpost items type endpoint s) as Hdata.
  unfold dispatch.
  repeat match goal with
         | |- keeps _ (if (name =? ?s)%string then _ else _) =>
             destruct (name =? s)%string
         end;
    try apply keeps_throw.
  - unfold check_address, getWithAuth. keeps_steps.
  - unfold check_twitter, getWithAuth. keeps_steps.
  - unfold get_data_for_address, getWithAuth. keeps_steps.
  - unfold get_data_for_twitter, getWithAuth. keeps_steps.
  - unfold batch_check, batch_body, postWithAuth. keeps_steps.
  - unfold batch_get_data, batch_body, postWithAuth. keeps_steps.
  - unfold batch_check_streaming, send. keeps_steps.
  - unfold batch_get_data_streaming, send. keeps_steps.
  - unfold check_credits. rewrite no_key. apply keeps_throw.
  - unfold set_credit_alert. rewrite no_key. apply keeps_throw.
  - unfold purchase_credits. keeps_steps.
Qed.

(** X11. Without an API key the credit tracker is inert: no tool call,
    whatever the server answers, changes the last known balance or the
    alert threshold. *)
Theorem tracker_inert_without_key (name : string) (args : Val) (w : World) :
  lastKnownCredits (snd (callTool E name args w)) = lastKnownCredits w /\
  customAlertThreshold (snd (callTool E name args w)) = customAlertThreshold w.
Proof.
  pose proof (callTool_keeps tracker E tracker_dispatch name args w) as H.
  unfold tracker in H. inversion H. split; reflexivity.
Qed.

End WithoutApiKey.

Section WithApiKey.

Variable E : Env.
Hypothesis with_key : present (API_KEY E) = true.

Lemma trace_checkCreditsAndNotify (credits : Val) :
  keeps payment_trace (checkCreditsAndNotify E credits).
Proof.
  unfold checkCreditsAndNotify, send.
  pose proof (keeps_sendNotification payment_trace (fun _ _ => eq_refl)).
  assert (forall v, keeps payment_trace (set_lastKnownCredits v))
    by (intros v w; reflexivity).
  keeps_steps.
Qed.

Lemma trace_fetchWithAuth (url : string) (options : Options) :
  keeps payment_trace (fetchWithAuth E url options).
Proof.
  unfold fetchWithAuth. rewrite with_key. cbv zeta.
  pose proof (keeps_fetch payment_trace E (fun _ _ => eq_refl)).
  pose proof (fun A => @keeps_throw_http_error _ payment_trace A).
  pose proof trace_checkCreditsAndNotify.
  keeps_steps.
Qed.

Lemma trace_dispatch (name : string) (args : Val) :
  keeps payment_trace (dispatch E name args).
Proof.
  pose proof trace_fetchWithAuth as Hfetch.
  pose proof (fun url => Hfetch url get_options) as Hget.
  pose proof (fun url body => Hfetch url (post_options E body)) as Hpost.
  pose proof (keeps_show payment_trace E) as Hshow.
  pose proof (keeps_sendNotification payment_trace (fun _ _ => eq_refl)) as Hsend.
  pose proof trace_checkCreditsAndNotify as Hobserve.
  assert (Hset : forall v, keeps payment_trace (set_customAlertThreshold v))
    by (intros v w; reflexivity).
  assert (Hnotify : forall progress (s : unit),
             keeps payment_trace (notify_progress progress s))
    by (intros; apply Hsend).
  assert (Hcollect : forall progress (s : list Val),
             keeps payment_trace (collect_found progress s))
    by (intros; unfold collect_found; keeps_steps).
  pose proof (fun items type endpoint s =>
                keeps_processBatchWithStreaming payment_trace E notify_progress
                  Hnotify Hpost items type endpoint s) as Hcheck.
  pose proof (fun items type endpoint s =>
                keeps_processBatchWithStreaming payment_trace E collect_found
                  Hcollect Hpost items type endpoint s) as Hdata.
  unfold dispatch.
  repeat match goal with
         | |- keeps _ (if (name =? ?s)%string then _ else _) =>
             destruct (name =? s)%string
         end;
    try apply keeps_throw.
  - unfold check_address, getWithAuth. keeps_steps.
  - unfold check_twitter, getWithAuth. keeps_steps.
  - unfold get_data_for_address, getWithAuth. keeps_steps.
  - unfold get_data_for_twitter, getWithAuth. keeps_steps.
  - unfold batch_check, batch_body, postWithAuth. keeps_steps.
  - unfold batch_get_data, batch_body, postWithAuth. keeps_steps.
  - unfold batch_check_streaming, send. keeps_steps.
  - unfold batch_get_data_streaming, send. keeps_steps.
  - unfold check_credits, getWithAuth. keeps_steps.
  - unfold set_credit_alert. keeps_steps.
  - unfold purchase_credits. rewrite (api_key_no_wallet E with_key). apply keeps_throw.
Qed.

Lemma with_key_one_call (url : string) (options : Options) (w : World) :
  new_calls w (snd (fetchWithAuth E url options w)) = [request_for E url options []].
Proof.
  destruct (fetchWithAuth_calls E url options w) as [extra [Hcalls Hextra]].
  unfold new_calls. rewrite Hcalls, skipn_length_app.
  destruct Hextra as [-> | [Hnone _]]; [reflexivity|congruence].
Qed.

Lemma with_key_failure (url : string) (options : Options) (w : World) (r : Response) :
  fetch_reply E (List.length (calls w)) (request_for E url options []) = inr r ->
  ok r = false ->
  exists e : Exn,
    fetchWithAuth E url options w = (Throw e, log_call (request_for E url options []) w).
Proof.
  intros Hreply Hok.
  destruct (@throw_http_error_throws Val r "Request failed: "
              (log_call (request_for E url options []) w)) as [e He].
  exists e.
  unfold fetchWithAuth. cbv zeta. rewrite with_key.
  unfold bind at 1. unfold fetch. rewrite Hreply, Hok. exact He.
Qed.

(** X12. Under an API key nothing is ever paid: no tool call signs an
    authorization, draws a random byte or reads the clock, whatever the
    server answers, a 402 included. *)
Theorem api_key_never_pays (name : string) (args : Val) (w : World) :
  signed (snd (callTool E name args w)) = signed w /\
  random_drawn (snd (callTool E name args w)) = random_drawn w /\
  clock_reads (snd (callTool E name args w)) = clock_reads w.
Proof.
  pose proof (callTool_keeps payment_trace E trace_dispatch name args w) as H.
  unfold payment_trace in H. inversion H. repeat split; reflexivity.
Qed.

(** X10. Under an API key every authenticated request is a single network
    call, whatever the response: the request sent carries the key in its
    [X-API-KEY] header and there is no retry. *)
Theorem api_key_single_call (url : string) (options : Options) (w : World) :
  new_calls w (snd (fetchWithAuth E url options w)) = [request_for E url options []] /\
  exists k, API_KEY E = Some k /\
            In ("X-API-KEY", k) (headers (request_for E url options [])).
Proof.
  split; [apply with_key_one_call|].
  destruct (API_KEY E) as [k|] eqn:Hk; [|discriminate].
  exists k. split; [reflexivity|].
  unfold request_for, buildHeaders. cbn [headers]. rewrite Hk, with_key.
  simpl. left. reflexivity.
Qed.

(** X13. Under an API key, a response that is not a success is only turned
    into an error: its credits header is not read, so the last known
    balance and the notifications are as before, and the request log has
    grown by the one request. *)
Theorem failed_response_not_observed
    (url : string) (options : Options) (w : World) (r : Response) :
  fetch_reply E (List.length (calls w)) (request_for E url options []) = inr r ->
  ok r = false ->
  exists e : Exn,
    fetchWithAuth E url options w = (Throw e, log_call (request_for E url options []) w) /\
    lastKnownCredits (log_call (request_for E url options []) w) = lastKnownCredits w /\
    outbox (log_call (request_for E url options []) w) = outbox w.
Proof.
  intros Hreply Hok.
  destruct (with_key_failure url options w r Hreply Hok) as [e He].
  exists e. split; [exact He|split; reflexivity].
Qed.

Lemma observed_header (creditsHeader : string) (w : World) :
  converts (lastKnownCredits w) = true ->
  fst (checkCreditsAndNotify E (parseInt creditsHeader) w) = Return tt /\
  lastKnownCredits (snd (checkCreditsAndNotify E (parseInt creditsHeader) w)) =
    parseInt creditsHeader.
Proof.
  intros Hlast.
  destruct (checkCreditsAndNotify_returns E (parseInt creditsHeader) w with_key
              (parseInt_number creditsHeader) (parseInt_converts creditsHeader) Hlast)
    as [w1 [-> _]].
  split; reflexivity.
Qed.


Lemma with_key_success
    (url : string) (options : Options) (w : World) (r : Response) (result : Val) :
  fetch_reply E (List.length (calls w)) (request_for E url options []) = inr r ->
  ok r = true ->
  json r = inr result ->
  converts (lastKnownCredits w) = true ->
  exists w1, fetchWithAuth E url options w = (Return result, w1) /\
             converts (lastKnownCredits w1) = true.
Proof.
  intros Hreply Hok Hjson Hlast.
  unfold fetchWithAuth. cbv zeta. rewrite with_key.
  unfold bind at 1. unfold fetch. rewrite Hreply, Hok. cbn [negb].
  unfold bind at 1. rewrite Hjson. cbn [lift ret].
  destruct (credits_remaining r) as [creditsHeader|];
    [destruct (present (Some creditsHeader))|];
    try (eexists; split; [reflexivity|exact Hlast]).
  unfold bind.
  destruct (observed_header creditsHeader (log_call (request_for E url options []) w) Hlast)
    as [Hreturns Hbalance].
  destruct (checkCreditsAndNotify E (parseInt creditsHeader)
              (log_call (request_for E url options []) w)) as [o w1].
  cbn [fst snd] in *. rewrite Hreturns. exists w1.
  split; [reflexivity|]. rewrite Hbalance. apply parseInt_converts.
Qed.

End WithApiKey.

(** *** The alert threshold, the wallet guard and the startup *)

Section Settings.

Variable E : Env.

Lemma show_world (screen : Screen) (w : World) : snd (show E screen w) = w.
Proof.
  unfold show, bind, lift, ret, throw. destruct (render E screen); reflexivity.
Qed.

(** X8. Under an API key, [set_credit_alert] stores the threshold it is
    given before anything else: no request is made and the last known
    balance is untouched, so nothing is evaluated again against the new
    threshold. Then it calls [toLocaleString] on the threshold. When that
    gives a text (for a number, the number formatted for the locale) one
    "info" notification is sent, whose message shows the text and whose
    data carry the threshold; when it throws (a missing threshold, an
    object that has a property [toLocaleString] or [toString]) nothing is
    sent and the call resolves to that error, the threshold stored all the
    same. *)
Theorem set_credit_alert_stores (args threshold : Val) (w : World) :
  present (API_KEY E) = true ->
  get args "threshold" = inr threshold ->
  let answer := fst (callTool E "set_credit_alert" args w) in
  let w' := snd (callTool E "set_credit_alert" args w) in
  let notice shown :=
    {| level := "info";
       text := "Credit alert threshold set to " ++ shown ++ " credits";
       data := Obj [("threshold", threshold)] |} in
  customAlertThreshold w' = threshold /\
  lastKnownCredits w' = lastKnownCredits w /\
  calls w' = calls w /\
  (forall shown, localized E "customAlertThreshold" threshold = inr shown ->
     new_notifications w w' = [notice shown]) /\
  (forall z, threshold = Num z ->
     new_notifications w w' = [notice (toLocaleString E (Num z))]) /\
  (forall e, localized E "customAlertThreshold" threshold = inl e ->
     new_notifications w w' = [] /\ answer = error_result e).
Proof.
  intros Hkey Hget answer w' notice.
  assert (Hmode : AUTH_MODE E <> none)
    by (unfold AUTH_MODE; rewrite Hkey; discriminate).
  assert (Hstored : set_credit_alert E args w =
            bind (lift (localized E "customAlertThreshold" threshold))
                 (fun shown =>
                    sendNotification "info"
                      ("Credit alert threshold set to " ++ shown ++ " credits")
                      (Obj [("threshold", threshold)]) ;;;
                    show E (SetCreditAlert threshold))
                 (snd (set_customAlertThreshold threshold w))).
  { unfold set_credit_alert. rewrite Hkey, Hget. cbn [negb lift]. rewrite bind_ret.
    reflexivity. }
  assert (Hsent : forall shown,
             localized E "customAlertThreshold" threshold = inr shown ->
             w' = log_notification (notice shown)
                    (snd (set_customAlertThreshold threshold w))).
  { intros shown Hshown. subst w'. rewrite (callTool_world E _ _ _ Hmode).
    change (dispatch E "set_credit_alert" args) with (set_credit_alert E args).
    rewrite Hstored, Hshown. cbn [lift]. rewrite bind_ret.
    unfold bind at 1. unfold sendNotification at 1. apply show_world. }
  assert (Hthrown : forall e,
             localized E "customAlertThreshold" threshold = inl e ->
             callTool E "set_credit_alert" args w =
               (error_result e, snd (set_customAlertThreshold threshold w))).
  { intros e He. rewrite (callTool_dispatch E _ _ _ Hmode).
    change (dispatch E "set_credit_alert" args) with (set_credit_alert E args).
    rewrite Hstored, He. reflexivity. }
  assert (Hnotice : forall shown,
             localized E "customAlertThreshold" threshold = inr shown ->
             new_notifications w w' = [notice shown]).
  { intros shown Hshown. rewrite (Hsent shown Hshown).
    unfold new_notifications. cbn. apply skipn_length_app. }
  destruct (localized E "customAlertThreshold" threshold) as [e|shown] eqn:Hlocalized.
  - assert (Hw : w' = snd (set_customAlertThreshold threshold w))
      by (subst w'; rewrite (Hthrown e eq_refl); reflexivity).
    split; [rewrite Hw; reflexivity|].
    split; [rewrite Hw; reflexivity|].
    split; [rewrite Hw; reflexivity|].
    split; [intros shown H; discriminate|].
    split.
    + intros z Hz. subst threshold. discriminate.
    + intros e' He'. inversion He'; subst e'. split.
      * rewrite Hw. unfold new_notifications. cbn. apply skipn_all.
      * subst answer. rewrite (Hthrown e eq_refl). reflexivity.
  - pose proof (Hsent shown eq_refl) as Hw.
    split; [rewrite Hw; reflexivity|].
    split; [rewrite Hw; reflexivity|].
    split; [rewrite Hw; reflexivity|].
    split; [exact Hnotice|].
    split; [|intros e H; discriminate].
    intros z Hz. apply Hnotice. subst threshold.
    cbn [localized] in Hlocalized. inversion Hlocalized. reflexivity.
Qed.

(** X9. Under an API key, [set_credit_alert] without a threshold resolves
    to an error, yet the assignment has already happened: the alert
    threshold is now [undefined] (or [null]). *)
Theorem set_credit_alert_without_threshold (args threshold : Val) (w : World) :
  present (API_KEY E) = true ->
  get args "threshold" = inr threshold ->
  is_nullish threshold = true ->
  fst (callTool E "set_credit_alert" args w) =
    error_result (cannot_read threshold "toLocaleString") /\
  customAlertThreshold (snd (callTool E "set_credit_alert" args w)) = threshold /\
  new_notifications w (snd (callTool E "set_credit_alert" args w)) = [].
Proof.
  intros Hkey Hget Hmissing.
  assert (Hmode : AUTH_MODE E <> none)
    by (unfold AUTH_MODE; rewrite Hkey; discriminate).
  rewrite (callTool_dispatch E _ _ _ Hmode).
  change (dispatch E "set_credit_alert" args) with (set_credit_alert E args).
  unfold set_credit_alert. rewrite Hkey, Hget. cbn [negb lift]. rewrite bind_ret.
  unfold bind at 1. cbn [set_customAlertThreshold].
  assert (Hthrows : localized E "customAlertThreshold" threshold =
                    inl (cannot_read threshold "toLocaleString"))
    by (destruct threshold; try discriminate; reflexivity).
  rewrite Hthrows.
  cbn. repeat split. unfold new_notifications. cbn. apply skipn_all.
Qed.

Lemma or_else_number (c : Val) : is_nullish (or_else c (Num 0)) = false.
Proof.
  unfold or_else.
  destruct (truthy c) eqn:Htruthy; [|reflexivity].
  destruct c; try reflexivity; discriminate.
Qed.

(** X24. [check_credits] remembers the balance of the body: under an API
    key and on a successful answer of [/api/me], when the [credits] of the
    body and the last known balance are values that convert to a number
    (any number, string, [null] or plain object does), the last known
    balance after the call is the [credits] of the body, or 0 when the
    body has none (or a falsy one), whatever the credits header of the
    same response said. *)
Theorem check_credits_remembers_body
    (args : Val) (w : World) (r : Response) (result c : Val) :
  present (API_KEY E) = true ->
  fetch_reply E (List.length (calls w))
    (request_for E (API_URL E ++ "/api/me") get_options []) = inr r ->
  ok r = true ->
  json r = inr result ->
  get result "credits" = inr c ->
  converts c = true ->
  converts (lastKnownCredits w) = true ->
  lastKnownCredits (snd (callTool E "check_credits" args w)) = or_else c (Num 0).
Proof.
  intros Hkey Hreply Hok Hjson Hget Hconverts Hlast.
  assert (Hmode : AUTH_MODE E <> none)
    by (unfold AUTH_MODE; rewrite Hkey; discriminate).
  assert (Hbody : converts (or_else c (Num 0)) = true)
    by (unfold or_else; destruct (truthy c); [exact Hconverts|reflexivity]).
  rewrite (callTool_world E _ _ _ Hmode).
  change (dispatch E "check_credits" args) with (check_credits E args).
  unfold check_credits. rewrite Hkey. cbn [negb].
  destruct (with_key_success E Hkey _ _ _ _ _ Hreply Hok Hjson Hlast) as [w1 [Hrun Hlast1]].
  unfold bind at 1. unfold getWithAuth. rewrite Hrun.
  unfold bind at 1. rewrite Hget. cbn [lift ret]. cbv zeta.
  unfold bind at 1.
  destruct (checkCreditsAndNotify_returns E _ w1 Hkey (or_else_number c) Hbody Hlast1)
    as [w2 [-> _]].
  cbn [set_lastKnownCredits]. unfold bind at 1. cbn [read].
  rewrite show_world. reflexivity.
Qed.

(** X7. With a wallet, [purchase_credits] for a name that is neither a
    package nor a name every object inherits resolves to the error
    "Invalid package: <name>" and changes nothing: no request, no
    notification, nothing signed. *)
Theorem invalid_package_refused (wl : Wallet) (args : Val) (name : string) (w : World) :
  wallet E = Some wl ->
  get args "package" = inr (Str name) ->
  ~ In name ["starter"; "pro"; "enterprise"] ->
  ~ In name Object_prototype_keys ->
  callTool E "purchase_credits" args w =
    (error_result (Error ("Invalid package: " ++ name)), w).
Proof.
  intros Hwallet Hget Hpackage Hinherited.
  assert (Hmode : AUTH_MODE E <> none)
    by (rewrite (wallet_mode E wl Hwallet); discriminate).
  rewrite (callTool_dispatch E _ _ _ Hmode).
  change (dispatch E "purchase_credits" args) with (purchase_credits E args).
  unfold purchase_credits. rewrite Hwallet, Hget. cbn [lift]. rewrite bind_ret.
  change (toString (Str name)) with (@inr Exn string name).
  cbn [lift]. rewrite bind_ret.
  assert (Hmember : member name packages = Undefined).
  { unfold member, packages. cbn [lookup].
    repeat match goal with
           | |- context [(name =? ?s)%string] =>
               destruct (String.eqb_spec name s) as [Heq | _];
               [subst name; exfalso; apply Hpackage; simpl; tauto|]
           end.
    destruct (existsb (String.eqb name) Object_prototype_keys) eqn:Hex; [|reflexivity].
    apply existsb_exists in Hex. destruct Hex as [k [Hin Heq]].
    apply String.eqb_eq in Heq. subst k. contradiction. }
  cbv zeta. rewrite Hmember. reflexivity.
Qed.

Lemma unpaid_outcome (url : string) (options : Options) (w : World) :
  present (API_KEY E) = false ->
  wallet E = None ->
  exists o, fetchWithAuth E url options w = (o, log_call (request_for E url options []) w).
Proof.
  intros Hkey Hwallet. unfold fetchWithAuth. cbv zeta. rewrite Hkey, Hwallet.
  unfold bind at 1. unfold fetch.
  destruct (fetch_reply E (List.length (calls w)) (request_for E url options []))
    as [e|r]; [eexists; reflexivity|].
  destruct (status r =? 402); cbn [negb]; [eexists; reflexivity|].
  destruct (ok r); cbn [negb].
  - destruct (json r); eexists; reflexivity.
  - destruct (@throw_http_error_throws Val r "Request failed: "
                (log_call (request_for E url options []) w)) as [e He].
    rewrite He. eexists. reflexivity.
Qed.

(** X15. Without a wallet nothing is paid: [createPaymentHeader] fails at
    once with its configuration error and touches nothing, and a request
    of [fetchWithAuth], whatever the answer, is a single network call that
    signs nothing, draws no random byte and does not read the clock. With
    no API key either, a 402 is turned into the error "Payment required
    but no PRIVATE_KEY or BLUEPAGES_API_KEY configured". *)
Theorem no_wallet_no_payment
    (paymentRequest : Val) (url : string) (options : Options) (w : World) :
  wallet E = None ->
  createPaymentHeader E paymentRequest w =
    (Throw (Error "PRIVATE_KEY environment variable required for x402 payments"), w) /\
  payment_trace (snd (fetchWithAuth E url options w)) = payment_trace w /\
  new_calls w (snd (fetchWithAuth E url options w)) = [request_for E url options []] /\
  (forall r : Response,
      present (API_KEY E) = false ->
      fetch_reply E (List.length (calls w)) (request_for E url options []) = inr r ->
      status r = 402 ->
      fst (fetchWithAuth E url options w) =
        Throw (Error "Payment required but no PRIVATE_KEY or BLUEPAGES_API_KEY configured")).
Proof.
  intros Hwallet.
  split; [unfold createPaymentHeader; rewrite Hwallet; reflexivity|].
  split; [|split].
  - destruct (present (API_KEY E)) eqn:Hkey.
    + apply (trace_fetchWithAuth E Hkey).
    + destruct (unpaid_outcome url options w Hkey Hwallet) as [o Hrun].
      rewrite Hrun. reflexivity.
  - destruct (present (API_KEY E)) eqn:Hkey.
    + apply (with_key_one_call E Hkey).
    + destruct (unpaid_outcome url options w Hkey Hwallet) as [o Hrun].
      rewrite Hrun. apply new_calls_one.
  - intros r Hkey Hreply H402.
    unfold fetchWithAuth. cbv zeta. rewrite Hkey, Hwallet.
    unfold bind at 1. unfold fetch. rewrite Hreply, H402. reflexivity.
Qed.

(** X16. The startup never fails on the balance: [main] always completes,
    without an API key it does nothing at all, and with one it makes
    exactly one request, to [/api/me], whose failure is swallowed. *)
Theorem main_never_fails (w : World) :
  fst (main E w) = Return tt /\
  (present (API_KEY E) = false -> main E w = (Return tt, w)) /\
  (present (API_KEY E) = true ->
   new_calls w (snd (main E w)) =
     [request_for E (API_URL E ++ "/api/me") get_options []]).
Proof.
  unfold main. destruct (present (API_KEY E)) eqn:Hkey.
  - split; [|split; [discriminate|intros _]].
    + unfold try_catch.
      match goal with
      | |- fst (match ?m w with _ => _ end) = _ => destruct (m w) as [[[]|e] w']
      end; reflexivity.
    + pose proof (with_key_one_call E Hkey (API_URL E ++ "/api/me") get_options w)
        as Hcalls.
      unfold new_calls in *. unfold try_catch, bind, getWithAuth.
      destruct (fetchWithAuth E (API_URL E ++ "/api/me") get_options w)
        as [[result|e] w1]; cbn [snd] in *; [|exact Hcalls].
      unfold lift, ret, throw.
      destruct (get result "credits"); cbn; exact Hcalls.
  - split; [reflexivity|]. split; [reflexivity|discriminate].
Qed.

End Settings.

(** *** The catalogues *)

Section Catalogues.

Variable E : Env.

(** X3. The tool catalogue follows the authentication mode: the eight
    lookup tools are always listed (with no credential too), the two
    credit tools exactly under an API key, the purchase tool exactly in
    x402 mode; no name is listed twice and every listed name is one the
    tool-call handler knows. *)
Theorem catalogue_follows_mode :
  let names := map tool_name (listTools E) in
  (In "check_credits" names <-> AUTH_MODE E = api_key) /\
  (In "set_credit_alert" names <-> AUTH_MODE E = api_key) /\
  (In "purchase_credits" names <-> AUTH_MODE E = x402) /\
  NoDup names /\
  (forall name, In name names -> In name known_tools) /\
  (forall name, In name (firstn 8 known_tools) -> In name names).
Proof.
  unfold listTools, AUTH_MODE, wallet.
  destruct (present (API_KEY E)); destruct (PRIVATE_KEY E) as [k|];
    try destruct (present (Some k)); cbn;
    (split; [|split; [|split; [|split; [|split]]]]);
    try (split; [intros H; repeat destruct H as [H|H]; try discriminate H;
                 try reflexivity; try contradiction
                | intros H; try discriminate H; tauto]);
    try (repeat constructor; cbn; intros H;
         repeat destruct H as [H|H]; try discriminate H; contradiction);
    try (intros name H; repeat destruct H as [H|H]; try contradiction;
         subst name; tauto).
Qed.

(** X21. Every resource of the catalogue can be read, in every mode and
    whatever the server answers: the read returns text/plain contents
    under the same URI. Any other URI is refused with "Unknown resource:
    <uri>" and changes nothing. *)
Theorem resources_readable (uri : string) (w : World) :
  (In uri (map resource_uri listResources) ->
   exists text w', readResource E uri w = (Return (text_plain uri text), w')) /\
  (~ In uri (map resource_uri listResources) ->
   readResource E uri w = (Throw (Error ("Unknown resource: " ++ uri)), w)).
Proof.
  unfold readResource. split.
  - intros Hin. cbn in Hin.
    destruct Hin as [<-|[<-|[<-|[]]]]; cbn [String.eqb Ascii.eqb Bool.eqb];
      try (eexists; eexists; reflexivity).
    destruct (present (API_KEY E)).
    + unfold try_catch.
      match goal with
      | |- exists _ _, match ?m w with _ => _ end = _ => destruct (m w) as [[c|e] w'] eqn:Hrun
      end.
      * unfold bind in Hrun.
        destruct (getWithAuth E (API_URL E ++ "/api/me") w) as [[result|e] w1];
          [|discriminate].
        destruct (status_text E result w1) as [[shown|e] w2]; [|discriminate].
        inversion Hrun; subst. eexists; eexists; reflexivity.
      * eexists; eexists; reflexivity.
    + destruct (wallet E); eexists; eexists; reflexivity.
  - intros Hout. cbn in Hout.
    repeat match goal with
           | |- context [(uri =? ?s)%string] =>
               destruct (String.eqb_spec uri s) as [Heq | _];
               [subst uri; exfalso; apply Hout; tauto|]
           end.
    reflexivity.
Qed.

Lemma quiet_status_text (result : Val) : quiet (status_text E result).
Proof.
  unfold status_text. quiet_steps.
Qed.

Lemma status_text_world (result : Val) (w : World) :
  snd (status_text E result w) = w.
Proof.
  assert (H : keeps (fun w => w) (status_text E result))
    by (unfold status_text; keeps_steps).
  apply H.
Qed.

(** X22. Reading a resource reaches the network only for the status under
    an API key: any other read leaves the whole state as it was, and the
    status read then makes exactly one request, to [/api/me]. When that
    request is answered with a failure, the read still returns: its text
    reports "Error fetching credits" with the error's message. *)
Theorem status_is_the_only_read_that_fetches (uri : string) (w : World) :
  (uri <> "bluepages://status" \/ present (API_KEY E) = false ->
   snd (readResource E uri w) = w) /\
  (present (API_KEY E) = true ->
   let request := request_for E (API_URL E ++ "/api/me") get_options [] in
   new_calls w (snd (readResource E "bluepages://status" w)) = [request] /\
   forall r : Response,
     fetch_reply E (List.length (calls w)) request = inr r ->
     ok r = false ->
     exists e : Exn,
       readResource E "bluepages://status" w =
       (Return (text_plain "bluepages://status"
                  (text_of ["Current Session Status"; "";
                            "Authentication: API Key";
                            "Status: Error fetching credits - " ++ message e])),
        log_call request w)).
Proof.
  split.
  - intros Hother. unfold readResource.
    destruct (uri =? "bluepages://info")%string; [reflexivity|].
    destruct (uri =? "bluepages://pricing")%string; [reflexivity|].
    destruct (String.eqb_spec uri "bluepages://status") as [Heq|_]; [|reflexivity].
    destruct Hother as [Hother|Hkey]; [contradiction|].
    rewrite Hkey. destruct (wallet E); reflexivity.
  - intros Hkey request. split.
    + pose proof (with_key_one_call E Hkey (API_URL E ++ "/api/me") get_options w)
        as Hcalls.
      unfold readResource. cbn [String.eqb Ascii.eqb Bool.eqb]. rewrite Hkey.
      unfold new_calls in *. unfold try_catch, bind, getWithAuth.
      destruct (fetchWithAuth E (API_URL E ++ "/api/me") get_options w)
        as [[result|e] w1]; cbn [snd] in *; [|exact Hcalls].
      pose proof (status_text_world result w1) as Hsame.
      destruct (status_text E result w1) as [[shown|e] w2]; cbn in *;
        subst w2; exact Hcalls.
    + intros r Hreply Hok.
      destruct (with_key_failure E Hkey (API_URL E ++ "/api/me")
                  get_options w r Hreply Hok) as [e Hrun].
      exists e. unfold readResource. cbn [String.eqb Ascii.eqb Bool.eqb].
      rewrite Hkey. unfold try_catch, bind, getWithAuth. rewrite Hrun.
      reflexivity.
Qed.

End Catalogues.

(** X23. Every prompt of the catalogue expands for any arguments, none
    at all included, and depends on them only through the one argument
    the catalogue declares for it; any other prompt name is refused with
    "Unknown prompt: <name>". *)
Theorem prompts_follow_catalogue :
  (forall (p : Prompt) (args args' : Val),
      In p listPrompts ->
      (exists m, getPrompt (prompt_name p) args = inr m) /\
      (get_opt args (argument_name p) = get_opt args' (argument_name p) ->
       getPrompt (prompt_name p) args = getPrompt (prompt_name p) args')) /\
  (forall (name : string) (args : Val),
      ~ In name (map prompt_name listPrompts) ->
      getPrompt name args = inl (Error ("Unknown prompt: " ++ name))).
Proof.
  split.
  - intros p args args' Hin. cbn in Hin.
    destruct Hin as [<-|[<-|[<-|[]]]]; cbn [prompt_name argument_name];
      (split; [eexists; reflexivity|]);
      intros Hsame; unfold getPrompt; cbn [String.eqb Ascii.eqb Bool.eqb];
      rewrite Hsame; reflexivity.
  - intros name args Hout. cbn in Hout. unfold getPrompt.
    repeat match goal with
           | |- context [(name =? ?s)%string] =>
               destruct (String.eqb_spec name s) as [Heq | _];
               [subst name; exfalso; apply Hout; tauto|]
           end.
    reflexivity.
Qed.

(** *** Alerts along a falling balance *)

Lemma last_of_nonempty {A} (l : list A) (d d' : A) :
  l <> [] -> List.last l d = List.last l d'.
Proof.
  induction l as [|x l IH]; [congruence|]. intros _.
  destruct l as [|y l]; [reflexivity|].
  change (List.last (y :: l) d = List.last (y :: l) d'). apply IH. discriminate.
Qed.

Lemma last_shift (b last : Z) (rest : list Z) :
  List.last (b :: rest) last = List.last rest b.
Proof.
  destruct rest as [|c rest]; [reflexivity|].
  change (List.last (b :: c :: rest) last) with (List.last (c :: rest) last).
  apply last_of_nonempty. discriminate.
Qed.

Lemma falling_last (last : Z) (balances : list Z) :
  falling last balances -> List.last balances last <= last.
Proof.
  revert last. induction balances as [|b rest IH]; intros last H; [simpl; lia|].
  destruct H as [Hb Hrest]. specialize (IH b Hrest).
  rewrite last_shift. lia.
Qed.

Section Falling.

Variable E : Env.

Lemma crossing_numbers (threshold last new : Z) :
  crossing threshold (Num last) (Num new) = (threshold <? last) && (new <=? threshold).
Proof. reflexivity. Qed.

(** X17. A balance that does not fall never alerts: when the last known
    balance is a number and the new one is at least as large, the
    observation sends nothing, in any mode and at any level. *)
Theorem no_alert_unless_balance_falls (last new : Z) (w : World) :
  lastKnownCredits w = Num last ->
  last <= new ->
  new_notifications w (snd (checkCreditsAndNotify E (Num new) w)) = [].
Proof.
  intros Hlast Hrise.
  destruct (present (API_KEY E)) eqn:Hkey.
  - rewrite (checkCreditsAndNotify_run E new w Hkey (or_intror (ex_intro _ last Hlast))).
    rewrite Hlast, !crossing_numbers.
    unfold CRITICAL_CREDIT_WARNING, LOW_CREDIT_WARNING.
    destruct (Z.ltb_spec 100 last); destruct (Z.leb_spec new 100);
      destruct (Z.ltb_spec 1000 last); destruct (Z.leb_spec new 1000);
      cbn [andb]; try (exfalso; lia);
      unfold new_notifications; cbn [snd set_lastKnownCredits outbox]; apply skipn_all.
  - unfold checkCreditsAndNotify. rewrite Hkey. apply new_notifications_same.
Qed.

Hypothesis with_key : present (API_KEY E) = true.

Lemma observe_step (new : Z) (rest : list Z) (w : World) :
  observe E (map Num (new :: rest)) w =
  new_notifications w (snd (checkCreditsAndNotify E (Num new) w)) ::
  observe E (map Num rest) (snd (checkCreditsAndNotify E (Num new) w)).
Proof. reflexivity. Qed.

Lemma observed_balance (last new : Z) (w : World) :
  lastKnownCredits w = Num last ->
  lastKnownCredits (snd (checkCreditsAndNotify E (Num new) w)) = Num new.
Proof.
  intros Hlast.
  rewrite (checkCreditsAndNotify_run E new w with_key (or_intror (ex_intro _ last Hlast))).
  reflexivity.
Qed.

Lemma observed_alerts (last new : Z) (w : World) :
  lastKnownCredits w = Num last ->
  new_notifications w (snd (checkCreditsAndNotify E (Num new) w)) =
  if (100 <? last) && (new <=? 100) then [critical_alert (Num new)]
  else if (1000 <? last) && (new <=? 1000) then [low_alert (Num new)]
  else [].
Proof.
  intros Hlast.
  rewrite (checkCreditsAndNotify_run E new w with_key (or_intror (ex_intro _ last Hlast))).
  rewrite Hlast, !crossing_numbers.
  unfold CRITICAL_CREDIT_WARNING, LOW_CREDIT_WARNING.
  destruct ((100 <? last) && (new <=? 100));
    [|destruct ((1000 <? last) && (new <=? 1000))];
    cbn [snd set_lastKnownCredits]; unfold new_notifications; cbn [outbox log_notification];
    rewrite ?skipn_length_app, ?skipn_all; reflexivity.
Qed.

(** X18. Along a balance that never rises, each alert fires once per
    crossing, under an API key and from a known balance: the critical
    alert is sent exactly once if the balance starts above 100 and ends
    at or below it, and not at all otherwise; the low alert is sent at
    most once, and never if the balance starts at or below 1000. *)
Theorem alerts_once_while_falling (last : Z) (balances : list Z) (w : World) :
  lastKnownCredits w = Num last ->
  falling last balances ->
  let sent := List.concat (observe E (map Num balances) w) in
  count_level "error" sent =
    (if (100 <? last) && (List.last balances last <=? 100) then 1%nat else 0%nat) /\
  (count_level "warning" sent <= if (1000 <? last)%Z then 1 else 0)%nat.
Proof.
  revert last w. induction balances as [|new rest IH]; intros last w Hlast Hfall.
  - cbn. split.
    + destruct (Z.ltb_spec 100 last); destruct (Z.leb_spec last 100);
        cbn [andb]; try reflexivity; exfalso; lia.
    + destruct (1000 <? last); lia.
  - destruct Hfall as [Hnew Hrest]. cbv zeta.
    rewrite observe_step. cbn [List.concat].
    unfold count_level. rewrite !filter_app, !length_app.
    specialize (IH new (snd (checkCreditsAndNotify E (Num new) w))
                  (observed_balance last new w Hlast) Hrest).
    cbv zeta in IH. unfold count_level in IH. destruct IH as [IHc IHl].
    rewrite IHc. rewrite (observed_alerts last new w Hlast).
    rewrite last_shift.
    pose proof (falling_last new rest Hrest) as Hend.
    destruct (Z.ltb_spec 100 last); destruct (Z.leb_spec new 100);
      destruct (Z.ltb_spec 1000 last); destruct (Z.leb_spec new 1000);
      destruct (Z.ltb_spec 100 new); destruct (Z.ltb_spec 1000 new);
      destruct (Z.leb_spec (List.last rest new) 100);
      cbn [andb filter level critical_alert low_alert String.eqb Ascii.eqb Bool.eqb
           List.length Nat.add] in *;
      try (exfalso; lia); split; lia.
Qed.

End Falling.

(** *** The records of a batch run *)

Lemma bind_Return {A B} (m : M A) (k : A -> M B) (w w' : World) (b : B) :
  bind m k w = (Return b, w') ->
  exists a w1, m w = (Return a, w1) /\ k a w1 = (Return b, w').
Proof.
  unfold bind. destruct (m w) as [[a|e] w1]; [eauto|discriminate].
Qed.

(** The record of an entry keyed by address: the key under [address], the
    entry's own flag under [found]. *)
Lemma item_of_address (isData : bool) (itemKey : string) (info itemResult : Val)
    (w w' : World) :
  item_of "address" isData itemKey info w = (Return itemResult, w') ->
  w' = w /\
  get_opt itemResult "address" = Str itemKey /\
  get_opt itemResult "found" = get_opt info (if isData then "found" else "exists").
Proof.
  unfold item_of, get_opt. destruct isData.
  - destruct info; cbn; intros H; inversion H; subst; repeat split.
  - destruct info; cbn; intros H; inversion H; subst; repeat split.
Qed.

Section Records.

Context {St : Type}.
Variable progressCallback : Val -> St -> M St.

(** X19. The records of one response follow its entries: when the loop
    over the entries of a response completes, it has appended to the
    results exactly one record per entry, found or not, in the order of
    the entries, each carrying the entry's key as its address and the
    entry's own flag ([found] of a data entry, [exists] of a check entry)
    as [found]. *)
Theorem entries_recorded (isData : bool) (remaining : list (string * Val))
    (results results' : list Val) (s s' : St) (w w' : World) :
  each_entry progressCallback "address" isData remaining results s w =
    (Return (results', s'), w') ->
  exists records,
    results' = (results ++ records)%list /\
    map (fun r => get_opt r "address") records = map (fun e => Str (fst e)) remaining /\
    map (fun r => get_opt r "found") records =
      map (fun e => get_opt (snd e) (if isData then "found" else "exists")) remaining.
Proof.
  revert results s w.
  induction remaining as [|[itemKey info] rest IH]; intros results s w Hrun.
  - inversion Hrun; subst. exists []. rewrite app_nil_r. repeat split.
  - cbn [each_entry] in Hrun.
    apply bind_Return in Hrun. destruct Hrun as [itemResult [w1 [Hitem Hrun]]].
    apply item_of_address in Hitem. destruct Hitem as [-> [Haddress Hfound]].
    cbv zeta in Hrun.
    apply bind_Return in Hrun. destruct Hrun as [s1 [w2 [_ Hrun]]].
    destruct (IH _ _ _ Hrun) as [records [-> [Hkeys Hflags]]].
    exists (itemResult :: records). rewrite <- app_assoc.
    split; [reflexivity|]. cbn [map fst snd].
    rewrite Haddress, Hfound, Hkeys, Hflags. split; reflexivity.
Qed.

End Records.

Section Found.

Variable E : Env.

Lemma collect_found_run (progress : Val) (foundItems : list Val) (w : World) :
  exists n,
    collect_found progress foundItems w =
    (Return (if is_string (get_opt progress "type") "result" &&
                truthy (get_opt (get_opt progress "item") "found")
             then (foundItems ++ [get_opt progress "item"])%list
             else foundItems),
     log_notification n w).
Proof.
  eexists. reflexivity.
Qed.

Lemma each_entry_found (remaining : list (string * Val)) :
  forall (results results' foundItems foundItems' : list Val) (w w' : World),
    each_entry collect_found "address" true remaining results foundItems w =
      (Return (results', foundItems'), w') ->
    foundItems = filter found_flag results ->
    foundItems' = filter found_flag results'.
Proof.
  induction remaining as [|[itemKey info] rest IH];
    intros results results' foundItems foundItems' w w' Hrun Hinv.
  - inversion Hrun; subst. reflexivity.
  - cbn [each_entry] in Hrun.
    apply bind_Return in Hrun. destruct Hrun as [itemResult [w1 [Hitem Hrun]]].
    apply item_of_address in Hitem. destruct Hitem as [-> [_ Hfound]].
    cbv zeta in Hrun.
    apply bind_Return in Hrun. destruct Hrun as [found1 [w2 [Hcall Hrun]]].
    apply (IH _ _ _ _ _ _ Hrun).
    rewrite filter_app. cbn [filter]. unfold found_flag at 2. rewrite Hfound.
    destruct (truthy (get_opt info "found")) eqn:Hflag.
    + apply bind_Return in Hcall. destruct Hcall as [message [w3 [_ Hcall]]].
      destruct (collect_found_run
                  (Obj [("type", Str "result");
                        ("message", Str message);
                        ("item", itemResult)]) foundItems w3) as [n Hcollect].
      rewrite Hcollect in Hcall. cbn in Hcall. rewrite Hfound, Hflag in Hcall.
      inversion Hcall; subst. reflexivity.
    + inversion Hcall; subst. rewrite app_nil_r. reflexivity.
Qed.

Lemma chunk_pass_found (l : list Val) (i : nat)
    (results results' foundItems foundItems' : list Val) (w w' : World) :
  chunk_pass E collect_found (Arr l) "address" "/batch/data" i results foundItems w =
    (Return (results', foundItems'), w') ->
  foundItems = filter found_flag results ->
  foundItems' = filter found_flag results'.
Proof.
  intros Hrun Hinv. unfold chunk_pass in Hrun. cbv zeta in Hrun.
  apply bind_Return in Hrun. destruct Hrun as [found1 [w1 [Hprogress Hrun]]].
  apply bind_Return in Hrun. destruct Hrun as [result [w2 [_ Hrun]]].
  apply bind_Return in Hrun. destruct Hrun as [keyed [w3 [_ Hrun]]].
  assert (Hsame : found1 = foundItems).
  { destruct (collect_found_run
                (progress_event "address" i (length_of (Arr l))
                   (slice (Arr l) i (Nat.min (i + batchSize) (length_of (Arr l)))))
                foundItems w) as [n Hcollect].
    rewrite Hcollect in Hprogress. cbn in Hprogress. inversion Hprogress. reflexivity. }
  subst found1.
  change (includes "/batch/data" "/data") with true in Hrun.
  destruct (truthy _).
  - exact (each_entry_found _ _ _ _ _ _ _ Hrun Hinv).
  - inversion Hrun; subst. reflexivity.
Qed.

Lemma batch_loop_found (l : list Val) (m : nat) :
  forall (i : nat) (results results' foundItems foundItems' : list Val) (w w' : World),
    (List.length l - i <= m)%nat ->
    batch_loop E collect_found (Arr l) "address" "/batch/data" i results foundItems w =
      (Return (results', foundItems'), w') ->
    foundItems = filter found_flag results ->
    foundItems' = filter found_flag results'.
Proof.
  induction m as [|m IH];
    intros i results results' foundItems foundItems' w w' Hm Hrun Hinv.
  - rewrite batch_loop_done in Hrun by (cbn [length_of]; lia).
    inversion Hrun; subst. reflexivity.
  - destruct (le_lt_dec (List.length l) i) as [Hi|Hi].
    + rewrite batch_loop_done in Hrun by (cbn [length_of]; lia).
      inversion Hrun; subst. reflexivity.
    + rewrite batch_loop_step in Hrun by exact Hi.
      apply bind_Return in Hrun. destruct Hrun as [[results1 found1] [w1 [Hpass Hrun]]].
      cbn [fst snd] in Hrun.
      apply (IH (i + batchSize)%nat results1 results' found1 foundItems' w1 w');
        [unfold batchSize; lia|exact Hrun|].
      exact (chunk_pass_found _ _ _ _ _ _ _ _ Hpass Hinv).
Qed.

(** X20. What [batch_get_data_streaming] collects as found is what the
    driver returns as found: when the driver returns over an array of
    addresses, the items its callback has collected are exactly the
    returned records whose [found] is truthy, in the same order. *)
Theorem found_items_are_found_records
    (l results foundItems : list Val) (w w' : World) :
  processBatchWithStreaming E collect_found (Arr l) "address" "/batch/data" [] w =
    (Return (results, foundItems), w') ->
  foundItems = filter found_flag results /\
  List.length foundItems = count_found results.
Proof.
  intros Hrun. unfold processBatchWithStreaming in Hrun.
  assert (Hfound : foundItems = filter found_flag results).
  { apply (batch_loop_found l (List.length l) 0 [] results [] foundItems w w');
      [lia|exact Hrun|reflexivity]. }
  split; [exact Hfound|]. rewrite Hfound. reflexivity.
Qed.

End Found.

(** *** Instances of the further properties *)

Ltac not_listed :=
  let H := fresh in
  intros H; cbn in H;
  repeat (destruct H as [H|H]; [discriminate H|]); destruct H.

Lemma metered_configured : AUTH_MODE Sample.metered <> none.
Proof. intros H. vm_compute in H. discriminate H. Qed.

Lemma paying_configured : AUTH_MODE Sample.paying <> none.
Proof. intros H. vm_compute in H. discriminate H. Qed.

Lemma unknown_tool_refused_witness :
  callTool Sample.metered "lookup" (Obj []) initial =
    (error_result (Error "Unknown tool: lookup"), initial).
Proof.
  apply (unknown_tool_refused Sample.metered metered_configured "lookup" (Obj []) initial).
  not_listed.
Defined.

Lemma gated_tools_refused_witness :
  (callTool Sample.paying "check_credits" (Obj []) initial =
     (error_result (Error "check_credits only available with API key authentication"),
      initial) /\
   callTool Sample.paying "set_credit_alert" (Obj []) initial =
     (error_result (Error "set_credit_alert only available with API key authentication"),
      initial)) /\
  callTool Sample.metered "purchase_credits" (Obj [("package", Str "pro")]) initial =
    (error_result (Error "purchase_credits requires PRIVATE_KEY for x402 payments"), initial).
Proof.
  split.
  - apply (proj1 (gated_tools_refused Sample.paying paying_configured (Obj []) initial)).
    reflexivity.
  - apply (proj2 (gated_tools_refused Sample.metered metered_configured
                    (Obj [("package", Str "pro")]) initial)).
    reflexivity.
Defined.

Lemma empty_batch_refused_witness :
  let args := Obj [("addresses", Arr [])] in
  (callTool Sample.metered "batch_check" args initial =
     (error_result (Error "At least one address or twitter handle required"), initial) /\
   callTool Sample.metered "batch_get_data" args initial =
     (error_result (Error "At least one address or twitter handle required"), initial)) /\
  callTool Sample.metered "batch_check_streaming" args initial =
    (error_result (Error "At least one address required"), initial) /\
  callTool Sample.metered "batch_get_data_streaming" args initial =
    (error_result (Error "At least one address required"), initial).
Proof.
  intros args.
  destruct (empty_batch_refused Sample.metered metered_configured args (Arr []) Undefined
              initial eq_refl (or_intror (or_intror eq_refl))) as [Hboth Hstreaming].
  split; [|exact Hstreaming].
  apply Hboth; [reflexivity|left; reflexivity].
Defined.

Lemma handle_must_be_string_witness :
  exists e : Exn,
    callTool Sample.metered "check_twitter" (Obj [("twitter", Num 7)]) initial =
      (error_result e, initial) /\
    callTool Sample.metered "get_data_for_twitter" (Obj [("twitter", Num 7)]) initial =
      (error_result e, initial).
Proof.
  apply (handle_must_be_string Sample.metered metered_configured
           (Obj [("twitter", Num 7)]) (Num 7) initial);
    [reflexivity|intros s; discriminate].
Defined.

Lemma address_not_validated_witness :
  let refused := Obj [("address", Obj [("toString", Num 1)])] in
  (exists request,
     hd_error (new_calls initial
                 (snd (callTool Sample.metered "check_address" (Obj []) initial))) =
       Some request /\
     described request =
       (API_URL Sample.metered ++ "/check?address=" ++
        encodeURIComponent Sample.metered "undefined", "GET", None)) /\
  callTool Sample.metered "check_address" refused initial =
    (error_result (TypeError "Cannot convert object to primitive value"), initial) /\
  callTool Sample.metered "get_data_for_address" refused initial =
    (error_result (TypeError "Cannot convert object to primitive value"), initial).
Proof.
  intros refused. split.
  - exact (proj1 (proj1 (address_not_validated Sample.metered metered_configured
                           (Obj []) Undefined initial eq_refl)
                    "undefined" eq_refl)).
  - exact (proj2 (address_not_validated Sample.metered metered_configured
                    refused (Obj [("toString", Num 1)]) initial eq_refl)
             (TypeError "Cannot convert object to primitive value") eq_refl).
Defined.

Lemma tracker_inert_without_key_witness :
  let run := callTool Sample.paying "check_address" (Obj [("address", Str "0x1")])
               (Sample.known 1500) in
  lastKnownCredits (snd run) = Num 1500 /\
  customAlertThreshold (snd run) = Num LOW_CREDIT_WARNING.
Proof.
  intros run.
  exact (tracker_inert_without_key Sample.paying eq_refl "check_address"
           (Obj [("address", Str "0x1")]) (Sample.known 1500)).
Defined.

Lemma api_key_never_pays_witness :
  let run := callTool Sample.metered "check_address" (Obj [("address", Str "0x1")]) initial in
  signed (snd run) = [] /\ random_drawn (snd run) = 0%nat /\ clock_reads (snd run) = 0%nat.
Proof.
  intros run.
  exact (api_key_never_pays Sample.metered eq_refl "check_address"
           (Obj [("address", Str "0x1")]) initial).
Defined.

Lemma api_key_single_call_witness :
  let request := request_for Sample.metered "https://api/check" get_options [] in
  new_calls initial (snd (fetchWithAuth Sample.metered "https://api/check" get_options initial)) =
    [request] /\
  exists k, API_KEY Sample.metered = Some k /\ In ("X-API-KEY", k) (headers request).
Proof.
  intros request.
  exact (api_key_single_call Sample.metered eq_refl "https://api/check" get_options initial).
Defined.

Lemma failed_response_not_observed_witness :
  let request := request_for Sample.out_of_order "https://api/check" get_options [] in
  exists e : Exn,
    fetchWithAuth Sample.out_of_order "https://api/check" get_options (Sample.known 1500) =
      (Throw e, log_call request (Sample.known 1500)) /\
    lastKnownCredits (log_call request (Sample.known 1500)) =
      lastKnownCredits (Sample.known 1500) /\
    outbox (log_call request (Sample.known 1500)) = outbox (Sample.known 1500).
Proof.
  intros request.
  eapply (failed_response_not_observed Sample.out_of_order eq_refl "https://api/check"
            get_options (Sample.known 1500)); reflexivity.
Defined.


Lemma set_credit_alert_stores_witness :
  let w' := snd (callTool Sample.metered "set_credit_alert"
                   (Obj [("threshold", Num 250)]) initial) in
  let odd := Obj [("toLocaleString", Num 1)] in
  let refused := callTool Sample.metered "set_credit_alert" (Obj [("threshold", odd)])
                   initial in
  customAlertThreshold w' = Num 250 /\
  lastKnownCredits w' = lastKnownCredits initial /\
  calls w' = calls initial /\
  new_notifications initial w' =
    [{| level := "info";
        text := "Credit alert threshold set to " ++
                toLocaleString Sample.metered (Num 250) ++ " credits";
        data := Obj [("threshold", Num 250)] |}] /\
  customAlertThreshold (snd refused) = odd /\
  new_notifications initial (snd refused) = [] /\
  fst refused =
    error_result (TypeError "customAlertThreshold.toLocaleString is not a function").
Proof.
  intros w' odd refused.
  destruct (set_credit_alert_stores Sample.metered (Obj [("threshold", Num 250)]) (Num 250)
              initial eq_refl eq_refl) as [Hstored [Hbalance [Hcalls [_ [Hnumber _]]]]].
  destruct (set_credit_alert_stores Sample.metered (Obj [("threshold", odd)]) odd
              initial eq_refl eq_refl) as [Hodd [_ [_ [_ [_ Hthrown]]]]].
  destruct (Hthrown (TypeError "customAlertThreshold.toLocaleString is not a function")
              eq_refl) as [Hnone Hanswer].
  split; [exact Hstored|]. split; [exact Hbalance|]. split; [exact Hcalls|].
  split; [exact (Hnumber 250 eq_refl)|].
  split; [exact Hodd|]. split; [exact Hnone|exact Hanswer].
Defined.

Lemma set_credit_alert_without_threshold_witness :
  let run := callTool Sample.metered "set_credit_alert" (Obj []) initial in
  fst run = error_result (cannot_read Undefined "toLocaleString") /\
  customAlertThreshold (snd run) = Undefined /\
  new_notifications initial (snd run) = [].
Proof.
  intros run.
  apply (set_credit_alert_without_threshold Sample.metered (Obj []) Undefined initial);
    reflexivity.
Defined.

Lemma invalid_package_refused_witness :
  callTool Sample.paying "purchase_credits" (Obj [("package", Str "mega")]) initial =
    (error_result (Error "Invalid package: mega"), initial).
Proof.
  eapply (invalid_package_refused Sample.paying _ (Obj [("package", Str "mega")]) "mega"
            initial);
    [reflexivity|reflexivity|not_listed|not_listed].
Defined.

Lemma check_credits_remembers_body_witness :
  lastKnownCredits (snd (callTool Sample.metered "check_credits" (Obj []) initial)) = Num 0.
Proof.
  eapply (check_credits_remembers_body Sample.metered (Obj []) initial _ _ Undefined);
    reflexivity.
Defined.

Lemma no_wallet_no_payment_witness :
  let request := request_for Sample.unfunded "https://api/check" get_options [] in
  let run := fetchWithAuth Sample.unfunded "https://api/check" get_options initial in
  createPaymentHeader Sample.unfunded Sample.requirement initial =
    (Throw (Error "PRIVATE_KEY environment variable required for x402 payments"), initial) /\
  payment_trace (snd run) = payment_trace initial /\
  new_calls initial (snd run) = [request] /\
  fst run = Throw (Error "Payment required but no PRIVATE_KEY or BLUEPAGES_API_KEY configured").
Proof.
  intros request run.
  destruct (no_wallet_no_payment Sample.unfunded Sample.requirement "https://api/check"
              get_options initial eq_refl) as [Hheader [Htrace [Hcalls H402]]].
  split; [exact Hheader|]. split; [exact Htrace|]. split; [exact Hcalls|].
  eapply H402; reflexivity.
Defined.

Lemma main_never_fails_witness :
  main Sample.paying initial = (Return tt, initial) /\
  fst (main Sample.out_of_order initial) = Return tt /\
  new_calls initial (snd (main Sample.out_of_order initial)) =
    [request_for Sample.out_of_order (API_URL Sample.out_of_order ++ "/api/me")
       get_options []].
Proof.
  split; [|split].
  - apply (proj1 (proj2 (main_never_fails Sample.paying initial))). reflexivity.
  - apply (proj1 (main_never_fails Sample.out_of_order initial)).
  - apply (proj2 (proj2 (main_never_fails Sample.out_of_order initial))). reflexivity.
Defined.

Lemma resources_readable_witness :
  (exists text w',
      readResource Sample.metered "bluepages://status" initial =
        (Return (text_plain "bluepages://status" text), w')) /\
  readResource Sample.metered "bluepages://credits" initial =
    (Throw (Error "Unknown resource: bluepages://credits"), initial).
Proof.
  split.
  - apply (proj1 (resources_readable Sample.metered "bluepages://status" initial)).
    right. right. left. reflexivity.
  - apply (proj2 (resources_readable Sample.metered "bluepages://credits" initial)).
    not_listed.
Defined.

Lemma status_is_the_only_read_that_fetches_witness :
  snd (readResource Sample.metered "bluepages://pricing" initial) = initial /\
  snd (readResource Sample.paying "bluepages://status" initial) = initial /\
  let request := request_for Sample.out_of_order
                   (API_URL Sample.out_of_order ++ "/api/me") get_options [] in
  new_calls initial (snd (readResource Sample.out_of_order "bluepages://status" initial)) =
    [request] /\
  exists e : Exn,
    readResource Sample.out_of_order "bluepages://status" initial =
      (Return (text_plain "bluepages://status"
                 (text_of ["Current Session Status"; "";
                           "Authentication: API Key";
                           "Status: Error fetching credits - " ++ message e])),
       log_call request initial).
Proof.
  split; [|split].
  - apply (proj1 (status_is_the_only_read_that_fetches Sample.metered
                    "bluepages://pricing" initial)).
    left. discriminate.
  - apply (proj1 (status_is_the_only_read_that_fetches Sample.paying
                    "bluepages://status" initial)).
    right. reflexivity.
  - intros request.
    destruct (proj2 (status_is_the_only_read_that_fetches Sample.out_of_order
                       "bluepages://status" initial) eq_refl) as [Hcalls Hfailure].
    split; [exact Hcalls|].
    eapply Hfailure; reflexivity.
Defined.

Lemma prompts_follow_catalogue_witness :
  let p := {| prompt_name := "find_crypto_twitter";
              prompt_description :=
                "Find the Ethereum address for a Twitter/X crypto personality";
              argument_name := "twitter_handle";
              argument_description := "Twitter/X handle to look up";
              argument_required := true |} in
  (exists m, getPrompt "find_crypto_twitter" Undefined = inr m) /\
  getPrompt "find_crypto_twitter" (Obj [("twitter_handle", Str "vitalik")]) =
  getPrompt "find_crypto_twitter"
    (Obj [("twitter_handle", Str "vitalik"); ("addresses", Str "0x1")]) /\
  getPrompt "summarize" Undefined = inl (Error "Unknown prompt: summarize").
Proof.
  intros p.
  assert (Hlisted : In p listPrompts) by (right; left; reflexivity).
  split; [|split].
  - exact (proj1 (proj1 prompts_follow_catalogue p Undefined Undefined Hlisted)).
  - apply (proj2 (proj1 prompts_follow_catalogue p
                    (Obj [("twitter_handle", Str "vitalik")])
                    (Obj [("twitter_handle", Str "vitalik"); ("addresses", Str "0x1")])
                    Hlisted)).
    reflexivity.
  - apply (proj2 prompts_follow_catalogue "summarize" Undefined). not_listed.
Defined.

Lemma no_alert_unless_balance_falls_witness :
  new_notifications (Sample.known 900)
    (snd (checkCreditsAndNotify Sample.metered (Num 950) (Sample.known 900))) = [].
Proof.
  apply (no_alert_unless_balance_falls Sample.metered 900 950 (Sample.known 900));
    [reflexivity|lia].
Defined.

Lemma alerts_once_while_falling_witness :
  let sent := List.concat (observe Sample.metered (map Num [900; 400; 400; 90; 20])
                             (Sample.known 1500)) in
  count_level "error" sent = 1%nat /\ (count_level "warning" sent <= 1)%nat.
Proof.
  intros sent.
  apply (alerts_once_while_falling Sample.metered eq_refl 1500 [900; 400; 400; 90; 20]
           (Sample.known 1500)); [reflexivity|].
  cbn [falling]. repeat split; lia.
Defined.

Lemma entries_recorded_witness :
  let remaining := [("a0", Obj [("exists", Bool true); ("twitter", Bool true);
                                ("farcaster", Bool false)]);
                    ("a1", Obj [("exists", Bool false); ("twitter", Bool false);
                                ("farcaster", Bool false)])] in
  exists results' records,
    fst (each_entry notify_progress "address" false remaining [] tt initial) =
      Return (results', tt) /\
    results' = ([] ++ records)%list /\
    map (fun r => get_opt r "address") records = [Str "a0"; Str "a1"] /\
    map (fun r => get_opt r "found") records = [Bool true; Bool false].
Proof.
  intros remaining.
  assert (Hrun : exists results' w',
             each_entry notify_progress "address" false remaining [] tt initial =
             (Return (results', tt), w'))
    by (eexists; eexists; by_evaluation).
  destruct Hrun as [results' [w' Hrun]].
  destruct (entries_recorded notify_progress false remaining [] results' tt tt initial w' Hrun)
    as [records Hrecords].
  exists results', records. split; [rewrite Hrun; reflexivity|exact Hrecords].
Defined.

Lemma found_items_are_found_records_witness :
  exists results foundItems w',
    processBatchWithStreaming Sample.profiled collect_found (Arr [Str "a0"; Str "a1"])
      "address" "/batch/data" [] initial = (Return (results, foundItems), w') /\
    List.length results = 2%nat /\
    foundItems = filter found_flag results /\
    List.length foundItems = count_found results.
Proof.
  eexists. eexists. eexists.
  split; [by_evaluation|].
  split; [reflexivity|].
  eapply (found_items_are_found_records Sample.profiled [Str "a0"; Str "a1"] _ _ initial).
  by_evaluation.
Defined.
